(** * mpv-winbuild-python: the dependency build orchestrator

    A shallow embedding of [build_v2_clang.py] (the canonical variant, module
    [V2]) and of [build.py] (the legacy variant, module [Legacy]), and the
    properties of the orchestrator proved over it.

    The scripts are sequential Python programs that inspect and mutate a
    directory tree and spawn child processes.  The embedding threads an
    explicit state (file system, the outside world, the trace of observable
    events) through a state-and-exception monad; child processes, downloads
    and archive extraction are functions of the outside world that every
    theorem quantifies over. *)

From Stdlib Require Import ZArith Ascii.
From Stdlib Require String.
From stdpp Require Import base option list gmap strings.

Local Open Scope Z_scope.

(** ** Python string operations used by the scripts *)

Module Py.

Definition nl : string := String (ascii_of_nat 10) EmptyString.
Definition dquote : string := String (ascii_of_nat 34) EmptyString.

(** [s.startswith(p)] *)
Definition startswith (p s : string) : bool := String.prefix p s.

(** [t in s] *)
Fixpoint contains (t s : string) : bool :=
  String.prefix t s ||
  match s with
  | EmptyString => false
  | String _ s' => contains t s'
  end.

(** [s.replace(old, new)]: every non-overlapping occurrence, scanning from
    the left.  [skip] counts the characters of a matched occurrence that are
    still to be dropped. *)
Fixpoint replace_go (old new : string) (skip : nat) (s : string) : string :=
  match s with
  | EmptyString => EmptyString
  | String c s' =>
      match skip with
      | S k => replace_go old new k s'
      | O =>
          if String.prefix old s
          then new +:+ replace_go old new (Nat.pred (String.length old)) s'
          else String c (replace_go old new O s')
      end
  end.

(** With an empty [old] Python puts [new] before every character and at the
    end. *)
Fixpoint intersperse (new s : string) : string :=
  match s with
  | EmptyString => new
  | String c s' => new +:+ String c (intersperse new s')
  end.

Definition replace (old new s : string) : string :=
  match old with
  | EmptyString => intersperse new s
  | _ => replace_go old new O s
  end.

(** [s.split('\n')] *)
Fixpoint split_nl (s : string) : list string :=
  match s with
  | EmptyString => [EmptyString]
  | String c s' =>
      if Ascii.eqb c (ascii_of_nat 10) then EmptyString :: split_nl s'
      else match split_nl s' with
           | [] => [String c EmptyString]
           | l :: ls => String c l :: ls
           end
  end.

(** ['\n'.join(lines)] *)
Fixpoint join (sep : string) (ls : list string) : string :=
  match ls with
  | [] => EmptyString
  | [l] => l
  | l :: ls' => l +:+ sep +:+ join sep ls'
  end.

(** The ASCII characters [str.strip] and [str.rstrip] remove. *)
Definition is_space (c : ascii) : bool :=
  let n := nat_of_ascii c in
  ((9 <=? n) && (n <=? 13) || (28 <=? n) && (n <=? 32))%nat.

Fixpoint lstrip (s : string) : string :=
  match s with
  | EmptyString => EmptyString
  | String c s' => if is_space c then lstrip s' else s
  end.

Fixpoint rstrip (s : string) : string :=
  match s with
  | EmptyString => EmptyString
  | String c s' =>
      match rstrip s' with
      | EmptyString => if is_space c then EmptyString else String c EmptyString
      | r => String c r
      end
  end.

Definition strip (s : string) : string := lstrip (rstrip s).

Definition lower_ascii (c : ascii) : ascii :=
  let n := nat_of_ascii c in
  if ((65 <=? n) && (n <=? 90))%nat then ascii_of_nat (n + 32) else c.

(** [s.lower()] on ASCII text *)
Fixpoint lower (s : string) : string :=
  match s with
  | EmptyString => EmptyString
  | String c s' => String (lower_ascii c) (lower s')
  end.

(** [s.endswith(p)] *)
Definition endswith (p s : string) : bool :=
  String.prefix (String.rev p) (String.rev s).

(** [fnmatch]: [*] matches any run of characters and [?] one character;
    every other character stands for itself. *)
Fixpoint fnmatch_go (p : list ascii) : list ascii → bool :=
  match p with
  | [] => fun s => match s with [] => true | _ => false end
  | c :: p' =>
      if Ascii.eqb c "*"%char then
        fix star (s : list ascii) : bool :=
          fnmatch_go p' s || match s with [] => false | _ :: s' => star s' end
      else
        fun s =>
          match s with
          | [] => false
          | d :: s' => (Ascii.eqb c "?"%char || Ascii.eqb c d) && fnmatch_go p' s'
          end
  end.

Definition fnmatch (pat name : string) : bool :=
  fnmatch_go (String.list_ascii_of_string pat) (String.list_ascii_of_string name).

End Py.

(** ** The directory tree

    A tree is a finite map from normalised paths (components separated by
    [/], as Windows accepts them too) to what is stored there.  Only regular
    files and directories are modelled. *)

Module FS.

Inductive node := File (content : string) | Dir.

(** [os.path.join(a, b)] for a relative [b] *)
Definition join (a b : string) : string := a +:+ "/" +:+ b.

Definition join3 (a b c : string) : string := join (join a b) c.

Definition exists_ (f : gmap string node) (p : string) : bool :=
  match f !! p with Some _ => true | None => false end.

Definition isdir (f : gmap string node) (p : string) : bool :=
  match f !! p with Some Dir => true | _ => false end.

Definition isfile (f : gmap string node) (p : string) : bool :=
  match f !! p with Some (File _) => true | _ => false end.

(** [p] lies strictly below the directory [d] *)
Definition under (d p : string) : bool := String.prefix (d +:+ "/") p.

(** [p] is [d] or lies below it *)
Definition inside (d p : string) : bool := bool_decide (p = d) || under d p.

(** [shutil.rmtree(d)] *)
Definition rmtree (d : string) (f : gmap string node) : gmap string node :=
  filter (λ kv, inside d kv.1 = false) f.

(** [os.remove(p)] *)
Definition remove (p : string) (f : gmap string node) : gmap string node :=
  delete p f.

(** [open(p, 'w').write(c)] *)
Definition write (p c : string) (f : gmap string node) : gmap string node :=
  <[p := File c]> f.

(** [os.makedirs(p, exist_ok=True)]; ancestors are not tracked. *)
Definition makedirs (p : string) (f : gmap string node) : gmap string node :=
  match f !! p with Some _ => f | None => <[p := Dir]> f end.

Fixpoint strip_prefix (pre s : string) : option string :=
  match pre with
  | EmptyString => Some s
  | String a pre' =>
      match s with
      | EmptyString => None
      | String b s' => if Ascii.eqb a b then strip_prefix pre' s' else None
      end
  end.

(** The name of [p] when [p] is an entry of the directory [d]. *)
Definition child_name (d p : string) : option string :=
  match strip_prefix (d +:+ "/") p with
  | Some x =>
      if Py.contains "/" x || bool_decide (x = EmptyString) then None else Some x
  | None => None
  end.

(** [os.listdir(d)] *)
Definition listdir (d : string) (f : gmap string node) : list string :=
  omap (child_name d) (map_to_list f).*1.

(** [glob.glob(os.path.join(d, pat))]: the entries of [d] whose name matches
    [pat]; a name with a leading dot only matches a pattern with one. *)
Definition glob (d pat : string) (f : gmap string node) : list string :=
  join d <$>
    filter (λ x, Py.fnmatch pat x = true ∧
                 (Py.startswith "." x = true → Py.startswith "." pat = true))
           (listdir d f).

(** Where [p], an entry of the tree rooted at [src], lands below [dst]. *)
Definition reroot (src dst p : string) : option string :=
  if bool_decide (p = src) then Some dst
  else (λ r, dst +:+ "/" +:+ r) <$> strip_prefix (src +:+ "/") p.

(** [shutil.copytree(src, dst, dirs_exist_ok=True)] on an existing [src] *)
Definition copytree (src dst : string) (f : gmap string node) : gmap string node :=
  foldr (λ kv acc, match reroot src dst kv.1 with
                   | Some q => <[q := kv.2]> acc
                   | None => acc
                   end) f (map_to_list f).

(** [os.path.dirname(p)] *)
Fixpoint head_go (s : string) : option string :=
  match s with
  | EmptyString => None
  | String c s' =>
      match head_go s' with
      | Some h => Some (String c h)
      | None => if Ascii.eqb c "/"%char then Some (String c EmptyString) else None
      end
  end.

Fixpoint all_slash (s : string) : bool :=
  match s with
  | EmptyString => true
  | String c s' => Ascii.eqb c "/"%char && all_slash s'
  end.

Fixpoint rstrip_slash (s : string) : string :=
  match s with
  | EmptyString => EmptyString
  | String c s' =>
      match rstrip_slash s' with
      | EmptyString => if Ascii.eqb c "/"%char then EmptyString else String c EmptyString
      | r => String c r
      end
  end.

Definition dirname (p : string) : string :=
  match head_go p with
  | None => EmptyString
  | Some h => if all_slash h then h else rstrip_slash h
  end.

(** [os.path.basename(p)] *)
Fixpoint basename (p : string) : string :=
  match p with
  | EmptyString => EmptyString
  | String c s' =>
      if Py.contains "/" p
      then basename s'
      else p
  end.

End FS.

(** ** Observable events, exceptions and the host *)

Inductive level := INFO | WARNING | ERROR.

(** The log lines the properties refer to, each with the value interpolated
    into it; [Note] stands for every other line. *)
Inductive log_msg :=
| Building (n : string)
| Skipping (n : string)
| ForcingRebuild (n : string)
| SkippingUpdate (n : string)
| Cloning (n : string)
| UpdateFailed (n : string)
| Failed (cmd : string)
| Patched (file : string)
| PatchFailed (path : string)
| Cleaned (file : string)
| Removed (item : string)
| Note (text : string).

(** What a run lets an observer see.  [EvExec] is a finished child process
    with its exit status, [EvDownload] one [urlretrieve] attempt.  [EvSync]
    records the value the source acquirer reported for a package and
    [EvMarker] the write of a completion marker. *)
Inductive event :=
| EvLog (l : level) (m : log_msg)
| EvExec (cmd cwd : string) (rc : Z)
| EvDownload (url : string)
| EvSync (n : string) (changed : bool)
| EvMarker (n : string).

Inductive exn :=
| CalledProcessError (rc : Z) (cmd : string)
| FileNotFoundError (path : string)
| OSError (path : string)
| KeyError (key : string)
| DownloadError (url : string)
| SystemExit (code : Z).

(** [except Exception] does not catch [SystemExit]. *)
Definition is_Exception (e : exn) : bool :=
  match e with SystemExit _ => false | _ => true end.

Definition is_CalledProcessError (e : exn) : bool :=
  match e with CalledProcessError _ _ => true | _ => false end.

Inductive result (A : Type) := Ok (a : A) | Raise (e : exn).
Arguments Ok {A} a.
Arguments Raise {A} e.

(** The outside world: child processes run in the toolchain shell, network
    downloads, archive extraction, and the toolchain bootstrap of the
    scripts' first half.  Each may change the world and the directory tree;
    [None] stands for a raised exception. *)
Class Host (W : Type) := {
  spawn : string → string → W → gmap string FS.node →
          Z * string * W * gmap string FS.node;
  urlretrieve : string → string → W → gmap string FS.node →
                option (W * gmap string FS.node);
  extractall : string → string → W → gmap string FS.node →
               option (W * gmap string FS.node);
  toolchain : W → gmap string FS.node → option (W * gmap string FS.node);
  environment : W → gmap string FS.node →
                option (bool * W * gmap string FS.node)
}.

Record state (W : Type) := State {
  fs : gmap string FS.node;
  world : W;
  trace : list event
}.
Arguments State {W} fs world trace.
Arguments fs {W} s.
Arguments world {W} s.
Arguments trace {W} s.

(** ** The state-and-exception monad *)

Definition M (W A : Type) : Type := state W → result A * state W.

Definition ret {W A} (a : A) : M W A := λ st, (Ok a, st).

Definition bind {W A B} (m : M W A) (k : A → M W B) : M W B :=
  λ st, match m st with
        | (Ok a, st') => k a st'
        | (Raise e, st') => (Raise e, st')
        end.

Definition raise {W A} (e : exn) : M W A := λ st, (Raise e, st).

(** [try: m except <sel>: h] *)
Definition try_except {W A} (m : M W A) (sel : exn → bool) (h : exn → M W A) : M W A :=
  λ st, match m st with
        | (Ok a, st') => (Ok a, st')
        | (Raise e, st') => if sel e then h e st' else (Raise e, st')
        end.

Definition get_fs {W} : M W (gmap string FS.node) := λ st, (Ok (fs st), st).

Definition modify_fs {W} (g : gmap string FS.node → gmap string FS.node) : M W unit :=
  λ st, (Ok tt, State (g (fs st)) (world st) (trace st)).

Definition emit {W} (e : event) : M W unit :=
  λ st, (Ok tt, State (fs st) (world st) (trace st ++ [e])).

Declare Scope monad_scope.
Delimit Scope monad_scope with monad.
Notation "x <- m ;; k" := (bind m (λ x, k))
  (at level 100, m at next level, right associativity) : monad_scope.
Notation "m ;; k" := (bind m (λ _, k))
  (at level 100, right associativity) : monad_scope.
Local Open Scope monad_scope.

(** [for x in l: body x] *)
Fixpoint for_each {W A} (l : list A) (body : A → M W unit) : M W unit :=
  match l with
  | [] => ret tt
  | x :: l' => body x ;; for_each l' body
  end.

Definition when {W} (b : bool) (m : M W unit) : M W unit :=
  if b then m else ret tt.

Section Primitives.
Context {W : Type} `{Host W}.

Definition logi (m : log_msg) : M W unit := emit (EvLog INFO m).
Definition log_warning (m : log_msg) : M W unit := emit (EvLog WARNING m).
Definition log_error (m : log_msg) : M W unit := emit (EvLog ERROR m).

(** [run(c, cwd, env)]: the command runs to completion in the toolchain
    shell; a nonzero exit status is logged and raised.  The value is the
    captured standard output. *)
Definition run (cmd cwd : string) : M W string :=
  λ st,
    let '(rc, out, w', f') := spawn cmd cwd (world st) (fs st) in
    let st' := State f' w' (trace st ++ [EvExec cmd cwd rc]) in
    if Z.eqb rc 0 then (Ok out, st')
    else (Raise (CalledProcessError rc cmd),
          State f' w' (trace st' ++ [EvLog ERROR (Failed cmd)])).

(** [mrun(cs, cwd, env)] *)
Definition mrun (cs : list string) (cwd : string) : M W unit :=
  for_each cs (λ c, run c cwd ;; ret tt).

(** [rmd(d)] *)
Definition rmd (d : string) : M W unit :=
  f <- get_fs ;;
  if FS.exists_ f d then modify_fs (FS.rmtree d) else ret tt.

(** [os.remove(p)] *)
Definition os_remove (p : string) : M W unit :=
  f <- get_fs ;;
  match f !! p with
  | Some (FS.File _) => modify_fs (FS.remove p)
  | Some FS.Dir => raise (OSError p)
  | None => raise (FileNotFoundError p)
  end.

(** [shutil.rmtree(p)] *)
Definition shutil_rmtree (p : string) : M W unit :=
  f <- get_fs ;;
  if FS.isdir f p then modify_fs (FS.rmtree p)
  else raise (if FS.exists_ f p then OSError p else FileNotFoundError p).

(** [os.rmdir(p)]: only an empty directory goes. *)
Definition os_rmdir (p : string) : M W unit :=
  f <- get_fs ;;
  if FS.isdir f p then
    match FS.listdir p f with
    | [] => modify_fs (FS.remove p)
    | _ => raise (OSError p)
    end
  else raise (if FS.exists_ f p then OSError p else FileNotFoundError p).

(** [shutil.copytree(src, dst, dirs_exist_ok=True)] *)
Definition shutil_copytree (src dst : string) : M W unit :=
  f <- get_fs ;;
  if FS.isdir f src then modify_fs (FS.copytree src dst)
  else raise (if FS.exists_ f src then OSError src else FileNotFoundError src).

(** [shutil.move(src, dstdir)] into an existing directory, under the name
    [name] of [src] *)
Definition shutil_move (src dstdir name : string) : M W unit :=
  f <- get_fs ;;
  match f !! src with
  | None => raise (FileNotFoundError src)
  | Some _ =>
      if FS.exists_ f (FS.join dstdir name) then raise (OSError (FS.join dstdir name))
      else modify_fs (λ f, FS.rmtree src (FS.copytree src (FS.join dstdir name) f))
  end.

(** [shutil.copy(src, dst)] / [shutil.copy2] of a regular file to the path [dst] *)
Definition shutil_copy (src dst : string) : M W unit :=
  f <- get_fs ;;
  match f !! src with
  | Some (FS.File c) => modify_fs (FS.write dst c)
  | Some FS.Dir => raise (OSError src)
  | None => raise (FileNotFoundError src)
  end.

(** [open(p).read()] *)
Definition read_file (p : string) : M W string :=
  f <- get_fs ;;
  match f !! p with
  | Some (FS.File c) => ret c
  | Some FS.Dir => raise (OSError p)
  | None => raise (FileNotFoundError p)
  end.

(** [open(p, 'w').write(c)] *)
Definition write_file (p c : string) : M W unit :=
  f <- get_fs ;;
  match f !! p with
  | Some FS.Dir => raise (OSError p)
  | _ => modify_fs (FS.write p c)
  end.

Definition os_makedirs (p : string) : M W unit :=
  f <- get_fs ;;
  match f !! p with
  | Some (FS.File _) => raise (OSError p)
  | _ => modify_fs (FS.makedirs p)
  end.

(** [os.listdir(d)] *)
Definition os_listdir (d : string) : M W (list string) :=
  f <- get_fs ;;
  match f !! d with
  | Some FS.Dir => ret (FS.listdir d f)
  | Some (FS.File _) => raise (OSError d)
  | None => raise (FileNotFoundError d)
  end.

(** A call into the host that returns nothing. *)
Definition host_call (g : W → gmap string FS.node → option (W * gmap string FS.node))
    (e : exn) : M W unit :=
  λ st, match g (world st) (fs st) with
        | Some (w', f') => (Ok tt, State f' w' (trace st))
        | None => (Raise e, st)
        end.

(** The environment set-up; its value is [enable_cuda], which only selects
    command-line flags. *)
Definition host_environment : M W bool :=
  λ st, match environment (world st) (fs st) with
        | Some (enable_cuda, w', f') => (Ok enable_cuda, State f' w' (trace st))
        | None => (Raise (CalledProcessError 1 "pacman"), st)
        end.

End Primitives.

(** ** Further primitives *)

(** [try: m finally: fin] *)
Definition try_finally {W A} (m : M W A) (fin : M W unit) : M W A :=
  λ st, match m st with
        | (r, st') =>
            match fin st' with
            | (Ok _, st'') => (r, st'')
            | (Raise e, st'') => (Raise e, st'')
            end
        end.

(** [subprocess.run(cmd, capture_output=True).stdout]: a child process
    started without the toolchain shell; its exit status is not looked
    at. *)
Definition subprocess_run {W} `{Host W} (cmd : string) : M W string :=
  λ st,
    let '(rc, out, w', f') := spawn cmd EmptyString (world st) (fs st) in
    (Ok out, State f' w' (trace st ++ [EvExec cmd EmptyString rc])).

(** [s.split(sep)] at the first occurrence of a non-empty [sep]: what is
    before it and what is after it. *)
Fixpoint split_at (sep s : string) : option (string * string) :=
  match FS.strip_prefix sep s with
  | Some rest => Some (EmptyString, rest)
  | None =>
      match s with
      | EmptyString => None
      | String c s' =>
          match split_at sep s' with
          | Some (a, b) => Some (String c a, b)
          | None => None
          end
      end
  end.

(** [l[-k:]] *)
Definition last_n {A} (k : nat) (l : list A) : list A := drop (length l - k) l.

(** ** Command-line flags and directory layout (both variants) *)

Record config := Config {
  bd : string;            (* the build root, [mpv-standalone-build] *)
  clean_mode : bool;
  force_resume : bool;
  skip_updates : bool;
  force_mpv : bool
}.

(** [dirs[k]] *)
Definition dirs (cfg : config) (k : string) : string := FS.join (bd cfg) k.

(** [os.path.join(dirs['installed'], f'.built_{n}')] *)
Definition marker_of (cfg : config) (n : string) : string :=
  FS.join (dirs cfg "installed") (".built_" +:+ n).

(** ** Command-line arguments (both variants, lines 60-65) *)

Definition allowed_args : list string :=
  ["--clean"; "--force-resume"; "--skip-updates"; "--force-mpv"].

(** The flags of a run started in the build root [bd] with the arguments
    [argv]; an argument that is not allowed ends the script with status
    one. *)
Definition parse_args {W} `{Host W} (bd : string) (argv : list string) : M W config :=
  let args : gset string := list_to_set argv in
  if negb (bool_decide (args ⊆ list_to_set allowed_args)) then
    log_error (Note "Invalid args") ;;
    raise (SystemExit 1)
  else
    ret (Config bd (bool_decide ("--clean" ∈ args)) (bool_decide ("--force-resume" ∈ args))
           (bool_decide ("--skip-updates" ∈ args)) (bool_decide ("--force-mpv" ∈ args))).

(** ** The canonical variant, [build_v2_clang.py] *)

Module V2.

Inductive build_kind := cmake | intl | make | autotools | meson | luajit.

#[global] Instance build_kind_eq_dec : EqDecision build_kind.
Proof. solve_decision. Defined.

(** One entry of [deps]: [(n, u, t, f, depends_on)].  The flag text [f] is
    only ever interpolated into command lines, whose effect is the host's, so
    the descriptor leaves it out and a command is named by its program and
    sub-command. *)
Record package := Package {
  pkg_n : string;
  pkg_u : option string;
  pkg_t : option build_kind;
  depends_on : list string
}.

Definition to_unix (p : string) : string :=
  let p := Py.replace "\" "/" p in
  match p with
  | String d (String c rest) =>
      if Ascii.eqb c ":"%char then "/" +:+ String (Py.lower_ascii d) rest else p
  | _ => p
  end.

Definition pre (cfg : config) : string := to_unix (dirs cfg "installed").

Definition deps : list package := [
  Package "expat" (Some "https://github.com/libexpat/libexpat.git") (Some cmake) [];
  Package "gettext" None (Some intl) [];
  Package "bzip2" (Some "https://sourceware.org/git/bzip2.git") (Some make) [];
  Package "zlib" (Some "https://github.com/madler/zlib.git") (Some cmake) [];
  Package "xz" None (Some autotools) [];
  Package "zimg" (Some "https://github.com/sekrit-twc/zimg.git") (Some autotools) [];
  Package "libpng" (Some "https://github.com/glennrp/libpng.git") (Some cmake) ["zlib"];
  Package "libjpeg-turbo" (Some "https://github.com/libjpeg-turbo/libjpeg-turbo.git")
    (Some cmake) ["zlib"];
  Package "freetype" (Some "https://gitlab.freedesktop.org/freetype/freetype.git")
    (Some meson) ["libpng"; "bzip2"; "zlib"];
  Package "libiconv" None (Some autotools) [];
  Package "fribidi" (Some "https://github.com/fribidi/fribidi.git") (Some meson) [];
  Package "harfbuzz" (Some "https://github.com/harfbuzz/harfbuzz.git") (Some cmake)
    ["freetype"];
  Package "fontconfig" (Some "https://gitlab.freedesktop.org/fontconfig/fontconfig.git")
    (Some meson) ["freetype"; "expat"; "libiconv"; "gettext"];
  Package "libass" (Some "https://github.com/libass/libass.git") (Some autotools)
    ["freetype"; "fribidi"; "harfbuzz"; "fontconfig"];
  Package "lcms2" (Some "https://github.com/mm2/Little-CMS.git") (Some meson) [];
  Package "libepoxy" (Some "https://github.com/anholt/libepoxy.git") (Some meson) [];
  Package "spirv-headers" (Some "https://github.com/KhronosGroup/SPIRV-Headers.git")
    (Some cmake) [];
  Package "spirv-cross" (Some "https://github.com/KhronosGroup/SPIRV-Cross.git")
    (Some cmake) [];
  Package "glslang" (Some "https://github.com/KhronosGroup/glslang.git") None [];
  Package "spirv-tools" (Some "https://github.com/KhronosGroup/SPIRV-Tools.git") None [];
  Package "shaderc" (Some "https://github.com/google/shaderc.git") (Some cmake)
    ["glslang"; "spirv-tools"; "spirv-headers"];
  Package "ffnvcodec" (Some "https://git.videolan.org/git/ffmpeg/nv-codec-headers.git")
    (Some make) [];
  Package "dav1d" (Some "https://code.videolan.org/videolan/dav1d.git") (Some meson) [];
  Package "libplacebo" (Some "https://code.videolan.org/videolan/libplacebo.git")
    (Some meson) ["shaderc"; "lcms2"; "libepoxy"; "glslang"];
  Package "luajit" (Some "https://github.com/LuaJIT/LuaJIT.git") (Some luajit) [];
  Package "uchardet" (Some "https://gitlab.freedesktop.org/uchardet/uchardet.git")
    (Some cmake) [];
  Package "libsoxr" (Some "https://git.code.sf.net/p/soxr/code") (Some cmake) [];
  Package "fftw" None (Some autotools) [];
  Package "libsamplerate" (Some "https://github.com/libsndfile/libsamplerate.git")
    (Some cmake) [];
  Package "rubberband" (Some "https://github.com/breakfastquay/rubberband.git")
    (Some meson) ["fftw"; "libsamplerate"];
  Package "libdvdcss" (Some "https://code.videolan.org/videolan/libdvdcss.git")
    (Some meson) [];
  Package "libdvdread" (Some "https://code.videolan.org/videolan/libdvdread.git")
    (Some meson) ["libdvdcss"];
  Package "libdvdnav" (Some "https://code.videolan.org/videolan/libdvdnav.git")
    (Some meson) ["libdvdread"];
  Package "libbluray" (Some "https://code.videolan.org/videolan/libbluray.git")
    (Some meson) ["libdvdread"; "fontconfig"; "freetype"];
  Package "libarchive" (Some "https://github.com/libarchive/libarchive.git")
    (Some cmake) ["zlib"; "bzip2"; "xz"]
].

(** [lib_map] of [remove_pkg] *)
Definition lib_map : gmap string string := list_to_map [
  ("bzip2", "bz2"); ("gettext", "intl"); ("xz", "lzma"); ("freetype", "freetype");
  ("harfbuzz", "harfbuzz"); ("fribidi", "fribidi"); ("libiconv", "iconv");
  ("spirv-headers", "SPIRV-Headers"); ("spirv-tools", "SPIRV-Tools");
  ("spirv-cross", "spirv-cross"); ("glslang", "glslang"); ("shaderc", "shaderc");
  ("lcms2", "lcms2"); ("libepoxy", "epoxy"); ("zimg", "zimg"); ("libass", "ass");
  ("fontconfig", "fontconfig"); ("zlib", "z"); ("libpng", "png");
  ("libjpeg-turbo", "jpeg"); ("luajit", "luajit"); ("ffnvcodec", "ffnvcodec");
  ("uchardet", "uchardet"); ("libsoxr", "soxr"); ("fftw", "fftw3");
  ("libsamplerate", "samplerate"); ("rubberband", "rubberband");
  ("libdvdcss", "dvdcss"); ("libdvdread", "dvdread"); ("libdvdnav", "dvdnav");
  ("libbluray", "bluray"); ("libarchive", "archive")
].

Definition search_patterns (n : string) : list string :=
  let ln := default n (lib_map !! n) in
  ["lib" +:+ ln +:+ "*.a"; ln +:+ "*.a"]
  ++ (if bool_decide (n = "shaderc") then ["libshaderc*.a"] else [])
  ++ (if bool_decide (n = "glslang")
      then ["libGenericCodeGen.a"; "libMachineIndependent.a"; "libOGLCompiler.a";
            "libOSDependent.a"; "libHLSL.a"] else [])
  ++ (if bool_decide (n = "spirv-tools") then ["libSPIRV-Tools*.a"] else [])
  ++ (if bool_decide (n = "spirv-cross") then ["libspirv-cross*.a"] else [])
  ++ (if bool_decide (n = "libjpeg-turbo") then ["libturbojpeg.a"; "libjpeg.a"] else []).

(** [output_check_map]: the file whose absence invalidates a marker; [None]
    as a value switches the check off. *)
Definition output_check_map : gmap string (option (string * string)) := list_to_map [
  ("gettext", None);
  ("bzip2", Some ("lib", "libbz2.a"));
  ("libiconv", Some ("lib", "libiconv.a"));
  ("xz", Some ("lib/pkgconfig", "liblzma.pc"));
  ("freetype", Some ("lib/pkgconfig", "freetype2.pc"));
  ("libjpeg-turbo", Some ("lib/pkgconfig", "libjpeg.pc"));
  ("libsamplerate", Some ("lib/pkgconfig", "samplerate.pc"));
  ("spirv-cross", Some ("lib/pkgconfig", "spirv-cross-c.pc"));
  ("libsoxr", Some ("lib", "libsoxr.a"));
  ("luajit", Some ("lib/pkgconfig", "luajit.pc"));
  ("ffnvcodec", Some ("lib/pkgconfig", "ffnvcodec.pc"));
  ("glslang", None);
  ("spirv-tools", None);
  ("fftw", Some ("lib/pkgconfig", "fftw3.pc"));
  ("libepoxy", Some ("lib/pkgconfig", "epoxy.pc"));
  ("spirv-headers", None);
  ("libdvdread", Some ("lib/pkgconfig", "dvdread.pc"));
  ("libdvdnav", Some ("lib/pkgconfig", "dvdnav.pc"))
].

(** [output_check_map.get(n, ('lib/pkgconfig', f'{n}.pc'))] *)
Definition check_info (n : string) : option (string * string) :=
  default (Some ("lib/pkgconfig", n +:+ ".pc")) (output_check_map !! n).

(** [check_path], when the package has a check *)
Definition check_path (cfg : config) (n : string) : option string :=
  (λ cf, FS.join3 (dirs cfg "installed") cf.1 cf.2) <$> check_info n.

Definition tarball_packages : list string := ["gettext"; "xz"; "fftw"; "libiconv"].

Definition t_urls : gmap string (string * string) := list_to_map [
  ("gettext", ("gettext-0.22.tar.xz", "https://ftp.gnu.org/pub/gnu/gettext/gettext-0.22.tar.xz"));
  ("xz", ("xz-5.4.4.tar.xz",
          "https://github.com/tukaani-project/xz/releases/download/v5.4.4/xz-5.4.4.tar.xz"));
  ("fftw", ("fftw-3.3.10.tar.gz", "https://www.fftw.org/fftw-3.3.10.tar.gz"));
  ("libiconv", ("libiconv-1.17.tar.gz",
                "https://mirror.init7.net/gnu/libiconv/libiconv-1.17.tar.gz"))
].

Definition root_map : gmap string string := list_to_map [
  ("gettext", "gettext-0.22"); ("xz", "xz-5.4.4"); ("fftw", "fftw-3.3.10");
  ("libiconv", "libiconv-1.17")
].

Definition extra_sdl : string :=
  "-lmingw32 -lSDL2 -mwindows -lsetupapi -lwinmm -limm32 -lole32 -loleaut32 -lversion -luuid -ladvapi32 -lshell32 -luser32 -lgdi32".

Definition is_libs_line (line : string) : bool :=
  Py.startswith "Libs.private:" line || Py.startswith "Libs:" line.

(** The text [patch_pc] writes back for a file at [path] holding [c]. *)
Definition patch_content (cfg : config) (path libs c : string) : string :=
  let msys_ucrt64 := FS.join3 (FS.join (dirs cfg "working") "..") "msys2" "ucrt64" in
  let msys_ucrt64_unix :=
    Py.replace "c:/" "/c/" (Py.replace "C:/" "/c/" (Py.replace "\" "/" msys_ucrt64)) in
  let c := if Py.contains "prefix=/ucrt64" c
           then Py.replace "prefix=/ucrt64" ("prefix=" +:+ msys_ucrt64_unix) c else c in
  let c :=
    if Py.contains "sdl2.pc" (Py.lower path) then
      let c := Py.replace "-lSDL2main" "" c in
      if Py.contains "Libs.private:" c then
        if negb (Py.contains "-lsetupapi" c)
        then Py.replace "Libs.private:" ("Libs.private: " +:+ extra_sdl) c else c
      else if Py.contains "Libs:" c
           then Py.replace "Libs:" ("Libs: " +:+ extra_sdl) c else c
    else c in
  let c :=
    if negb (Py.contains "-lvsnprintf_shim" c) then
      Py.join Py.nl
        ((λ line, if is_libs_line line then Py.rstrip line +:+ " -lvsnprintf_shim" else line)
           <$> Py.split_nl c)
    else c in
  let c :=
    if negb (bool_decide (libs = EmptyString)) && negb (Py.contains libs c) then
      Py.join Py.nl
        ((λ line, if is_libs_line line
                  then (if negb (Py.contains libs line)
                        then Py.rstrip line +:+ " " +:+ libs else line)
                  else line)
           <$> Py.split_nl c)
    else c in
  if Py.contains "-ldl" c then Py.replace "-ldl" "" c else c.

Section Orchestrator.
Context {W : Type} `{Host W}.
Variable cfg : config.

Definition git_clone_cmd (u n : string) : string :=
  if bool_decide (n = "ffmpeg") || bool_decide (n = "mpv")
  then "git clone --quiet --depth 1 " +:+ u +:+ " " +:+ n
  else "git clone --quiet " +:+ u +:+ " " +:+ n.

Definition git_sync (u n d : string) : M W bool :=
  f <- get_fs ;;
  if negb (FS.isdir f (FS.join d ".git")) then
    if skip_updates cfg then
      logi (SkippingUpdate n) ;; ret false
    else
      logi (Cloning n) ;;
      rmd d ;;
      run (git_clone_cmd u n) (FS.dirname d) ;;
      ret true
  else if skip_updates cfg then
    logi (SkippingUpdate n) ;; ret false
  else
    try_except
      (try_except
         (current_url <- run "git remote get-url origin" d ;;
          if negb (bool_decide (Py.strip current_url = u))
          then run ("git remote set-url origin " +:+ u) d ;; ret tt
          else ret tt)
         (λ _, true) (λ _, ret tt) ;;
       run "git reset --hard HEAD" d ;;
       old <- run "git rev-parse HEAD" d ;;
       run "git pull --quiet" d ;;
       run "git submodule update --init --recursive --quiet" d ;;
       new <- run "git rev-parse HEAD" d ;;
       ret (negb (bool_decide (Py.strip old = Py.strip new))))
      is_CalledProcessError
      (λ _, log_warning (UpdateFailed n) ;; ret false).

Definition patch_pc (path libs : string) : M W unit :=
  f <- get_fs ;;
  if negb (FS.exists_ f path) then ret tt
  else
    try_except
      (c <- read_file path ;;
       write_file path (patch_content cfg path libs c) ;;
       logi (Patched (FS.basename path)))
      is_Exception
      (λ _, log_error (PatchFailed path)).

Definition remove_pkg (n : string) : M W unit :=
  let ln := default n (lib_map !! n) in
  for_each ["lib"; "lib64"] (λ lib_dir,
    let p := FS.join (dirs cfg "installed") lib_dir in
    let pk := FS.join p "pkgconfig" in
    f <- get_fs ;;
    if negb (FS.exists_ f p) then ret tt
    else
      for_each (search_patterns n) (λ pat,
        f <- get_fs ;;
        for_each (FS.glob p pat f) (λ file,
          try_except (os_remove file ;; logi (Cleaned file)) (λ _, true) (λ _, ret tt))) ;;
      f <- get_fs ;;
      for_each (FS.glob pk ("*" +:+ ln +:+ "*.pc") f) (λ file,
        try_except (os_remove file ;; logi (Cleaned file)) (λ _, true) (λ _, ret tt))).

(** [download_with_retry(url, tar)] with its default three attempts *)
Fixpoint download_attempts (k : nat) (url tar : string) : M W unit :=
  match k with
  | O => raise (DownloadError url)
  | S k' =>
      emit (EvDownload url) ;;
      try_except (host_call (urlretrieve url tar) (DownloadError url))
        is_Exception
        (λ _, logi (Note "Download failed") ;; download_attempts k' url tar)
  end.

Definition download_with_retry (url tar : string) : M W unit :=
  download_attempts 3 url tar.

Definition extract_tar (f d : string) : M W unit :=
  logi (Note "Extracting") ;;
  host_call (extractall f d) (OSError f).

(** Move every entry of [root] one level up into [dest], replacing what is
    there (the loops at lines 664-669 and 710-715). *)
Definition flatten_into (root dest : string) : M W unit :=
  items <- os_listdir root ;;
  for_each items (λ i,
    let dst := FS.join dest i in
    f <- get_fs ;;
    (if FS.exists_ f dst
     then (if FS.isdir f dst then shutil_rmtree dst else os_remove dst)
     else ret tt) ;;
    shutil_move (FS.join root i) dest i).

(** Lines 637-670: bring the package's source tree up to date; the value is
    [source_changed]. *)
Definition acquire (p : package) : M W bool :=
  let n := pkg_n p in
  let dep_dir := FS.join (dirs cfg "repositories") n in
  match pkg_u p with
  | Some u => git_sync u n dep_dir
  | None =>
      if bool_decide (n ∈ tarball_packages) then
        f <- get_fs ;;
        (if FS.exists_ f (FS.join dep_dir ".git")
         then logi (Note "Replacing legacy git repo with tarball") ;; rmd dep_dir
         else ret tt) ;;
        f <- get_fs ;;
        let source_changed := negb (FS.exists_ f dep_dir) in
        if source_changed then
          match t_urls !! n, root_map !! n with
          | Some (t_name, t_url), Some root_name =>
              let tar := FS.join (dirs cfg "tarballs") t_name in
              (if negb (FS.exists_ f tar) then download_with_retry t_url tar else ret tt) ;;
              logi (Note "Extracting") ;;
              extract_tar tar dep_dir ;;
              let root := FS.join dep_dir root_name in
              f <- get_fs ;;
              (if FS.exists_ f root
               then flatten_into root dep_dir ;; os_rmdir root
               else ret tt) ;;
              ret true
          | _, _ => raise (KeyError n)
          end
        else ret false
      else ret false
  end.

(** Lines 695-701: a marker whose output file is gone is deleted. *)
Definition integrity_check (n : string) : M W unit :=
  match check_path cfg n with
  | Some path =>
      f <- get_fs ;;
      if negb (FS.exists_ f path) && FS.exists_ f (marker_of cfg n) then
        os_remove (marker_of cfg n) ;;
        logi (ForcingRebuild n)
      else ret tt
  | None => ret tt
  end.

Definition cmake_cmds : list string :=
  ["cmake -B build -G Ninja {f_env} ."; "ninja -C build -j{nproc}"; "ninja -C build install"].

Definition meson_cmds : list string :=
  ["meson setup build . {options} {f_env} {link_args}"; "ninja -C build -j{nproc}";
   "ninja -C build install"].

Definition libarchive_pc (cfg : config) : string :=
  let prefix := pre cfg in
  let lib_dir := prefix +:+ "/lib" in
  let msys_lib := Py.replace "/installed" "/msys2/ucrt64/lib" prefix in
  Py.join Py.nl [
    "prefix=" +:+ prefix;
    "exec_prefix=${prefix}";
    "libdir=${exec_prefix}/lib";
    "includedir=${prefix}/include";
    "";
    "Name: libarchive";
    "Description: library that can create and read several streaming archive formats";
    "Version: 3.9.0";
    "Cflags: -I${includedir}";
    "Cflags.private: -DLIBARCHIVE_STATIC";
    "Libs: " +:+ lib_dir +:+ "/libarchive.a " +:+ msys_lib +:+ "/libz.a "
      +:+ msys_lib +:+ "/liblzma.a " +:+ msys_lib +:+ "/libbz2.a "
      +:+ msys_lib +:+ "/libiconv.a " +:+ msys_lib +:+ "/libbcrypt.a "
      +:+ msys_lib +:+ "/libzstd.a";
    ""].

Definition spirv_cross_pc (cfg : config) : string :=
  Py.join Py.nl [
    "# Auto-generated for static linking";
    "prefix=" +:+ pre cfg;
    "exec_prefix=${prefix}";
    "libdir=${prefix}/lib";
    "includedir=${prefix}/include/spirv_cross";
    "";
    "Name: spirv-cross-c-shared";
    "Description: C API for SPIRV-Cross (static linking with all dependencies)";
    "Version: 0.68.0";
    "";
    "Requires:";
    "Libs: -L${libdir} -lspirv-cross-c -lspirv-cross-glsl -lspirv-cross-hlsl -lspirv-cross-msl -lspirv-cross-cpp -lspirv-cross-reflect -lspirv-cross-util -lspirv-cross-core -lstdc++";
    "Cflags: -I${includedir}";
    ""].

(** Lines 722-797: the build adapter for one package, run in its working
    copy [build_dir]. *)
Definition dispatch (p : package) (build_dir : string) : M W unit :=
  let n := pkg_n p in
  let t := pkg_t p in
  if bool_decide (n = "shaderc") then
    let tp := FS.join build_dir "third_party" in
    for_each ["glslang"; "spirv-tools"; "spirv-headers"] (λ sub,
      shutil_copytree (FS.join (dirs cfg "repositories") sub) (FS.join tp sub)) ;;
    mrun cmake_cmds build_dir
  else if bool_decide (t = Some meson) then
    mrun meson_cmds build_dir ;;
    if bool_decide (n = "rubberband") then
      let pc_file := FS.join3 (pre cfg) "lib/pkgconfig" "rubberband.pc" in
      f <- get_fs ;;
      if FS.exists_ f pc_file then
        pc_content <- read_file pc_file ;;
        if negb (Py.contains "-lstdc++" pc_content) then
          write_file pc_file (Py.replace "-lrubberband" "-lrubberband -lstdc++" pc_content) ;;
          logi (Note "FIX: Patched rubberband.pc with -lstdc++")
        else ret tt
      else ret tt
    else ret tt
  else if bool_decide (t = Some cmake) then
    mrun cmake_cmds build_dir ;;
    if bool_decide (n = "libarchive") then
      write_file (FS.join3 (dirs cfg "installed") "lib/pkgconfig" "libarchive.pc")
        (libarchive_pc cfg) ;;
      logi (Note "FIX: Patched libarchive.pc with absolute static lib paths")
    else ret tt
  else if bool_decide (t = Some autotools) || bool_decide (t = Some intl)
          || bool_decide (t = Some make) || bool_decide (t = Some luajit) then
    f <- get_fs ;;
    (if (bool_decide (t = Some autotools) || bool_decide (t = Some intl))
        && negb (FS.exists_ f (FS.join build_dir "configure")) then
       if FS.exists_ f (FS.join build_dir "autogen.sh") then
         logi (Note "Running autogen.sh...") ;; mrun ["./autogen.sh"] build_dir
       else if FS.exists_ f (FS.join build_dir "configure.ac") then
         logi (Note "Running autoreconf -i...") ;; mrun ["autoreconf"; "-i"] build_dir
       else ret tt
     else ret tt) ;;
    if bool_decide (t = Some autotools) then
      mrun ["./configure {conf_flags} {f_env}"; "make -j{current_nproc}"; "make install"]
        build_dir
    else if bool_decide (t = Some luajit) then
      mrun ["make -C src BUILDMODE=static PREFIX={pre} -j{nproc}";
            "make install PREFIX={pre} BUILDMODE=static"] build_dir ;;
      let luajit_pc := FS.join3 (dirs cfg "installed") "lib/pkgconfig" "luajit.pc" in
      f <- get_fs ;;
      if FS.exists_ f luajit_pc then
        pc_content <- read_file luajit_pc ;;
        write_file luajit_pc
          (Py.replace "Libs.private: -Wl,-E -lm -ldl" "Libs.private:" pc_content) ;;
        logi (Note "FIX: Removed Linux-specific flags from luajit.pc")
      else ret tt
    else
      mrun ["make -j{nproc} {f_env}"; "make install {f_env}"] build_dir
  else ret tt.

(** Lines 706-715: purge, fresh working copy, and the expat fix-up. *)
Definition prepare (p : package) (dep_dir build_dir : string) : M W unit :=
  let n := pkg_n p in
  remove_pkg n ;;
  rmd build_dir ;;
  shutil_copytree dep_dir build_dir ;;
  f <- get_fs ;;
  if bool_decide (n = "expat") && negb (FS.exists_ f (FS.join build_dir "CMakeLists.txt"))
  then
    let src_sub := FS.join build_dir "expat" in
    if FS.exists_ f src_sub then flatten_into src_sub build_dir else ret tt
  else ret tt.

(** Lines 802-837: what follows the marker for two packages. *)
Definition post_marker (n : string) : M W unit :=
  let pkgconfig_dir := FS.join (dirs cfg "installed") "lib/pkgconfig" in
  (if bool_decide (n = "spirv-cross") then
     write_file (FS.join pkgconfig_dir "spirv-cross-c-shared.pc") (spirv_cross_pc cfg) ;;
     logi (Note "FIX: Created complete spirv-cross-c-shared.pc with all static deps")
   else ret tt) ;;
  if bool_decide (n = "shaderc") then
    let shaderc_pc := FS.join pkgconfig_dir "shaderc.pc" in
    f <- get_fs ;;
    if FS.exists_ f shaderc_pc then
      content <- read_file shaderc_pc ;;
      if Py.contains "-lshaderc_shared" content then
        write_file shaderc_pc (Py.replace "-lshaderc_shared" "-lshaderc_combined" content) ;;
        logi (Note "FIX: Patched shaderc.pc to use shaderc_combined")
      else ret tt
    else ret tt
  else ret tt.

(** [open(marker, 'w').close()] *)
Definition write_marker (n : string) : M W unit :=
  write_file (marker_of cfg n) EmptyString ;;
  emit (EvMarker n).

(** Lines 706-800: everything the rebuild branch does before it writes
    the marker. *)
Definition build_steps (p : package) : M W unit :=
  let n := pkg_n p in
  let dep_dir := FS.join (dirs cfg "repositories") n in
  let build_dir := FS.join (dirs cfg "working") n in
  prepare p dep_dir build_dir ;;
  dispatch p build_dir ;;
  f <- get_fs ;;
  for_each (FS.glob (FS.join (pre cfg) "lib/pkgconfig") ("*" +:+ n +:+ "*.pc") f)
    (λ pcf, patch_pc pcf "-lstdc++ -lm -lpthread").

(** The rebuild branch, lines 705-837. *)
Definition rebuild (p : package) : M W unit :=
  let n := pkg_n p in
  logi (Building n) ;;
  build_steps p ;;
  write_marker n ;;
  post_marker n.

(** [any(d in updated_libs for d in depends_on)] *)
Definition dep_changed (p : package) (updated_libs : gset string) : bool :=
  existsb (λ d, bool_decide (d ∈ updated_libs)) (depends_on p).

(** The staleness predicate of line 704, on the tree [f] it is evaluated
    in. *)
Definition stale (p : package) (source_changed : bool) (updated_libs : gset string)
    (f : gmap string FS.node) : bool :=
  clean_mode cfg || negb (FS.exists_ f (marker_of cfg (pkg_n p))) || source_changed
  || dep_changed p updated_libs.

(** Lines 695-838 for a package whose acquisition reported
    [source_changed]: integrity check, staleness predicate, and the branch
    taken.  The value is [updated_libs] afterwards. *)
Definition decide_and_build (p : package) (source_changed : bool)
    (updated_libs : gset string) : M W (gset string) :=
  let n := pkg_n p in
  integrity_check n ;;
  f <- get_fs ;;
  if stale p source_changed updated_libs f
  then rebuild p ;; ret ({[n]} ∪ updated_libs)
  else logi (Skipping n) ;; ret updated_libs.

(** One iteration of the loop over [deps]. *)
Definition dep_step (p : package) (updated_libs : gset string) : M W (gset string) :=
  source_changed <- acquire p ;;
  emit (EvSync (pkg_n p) source_changed) ;;
  decide_and_build p source_changed updated_libs.

Fixpoint dependency_loop (ps : list package) (updated_libs : gset string)
    : M W (gset string) :=
  match ps with
  | [] => ret updated_libs
  | p :: ps' =>
      updated_libs' <- dep_step p updated_libs ;;
      dependency_loop ps' updated_libs'
  end.

(** Lines 840-869 *)
Definition build_ffmpeg (updated_libs : gset string) : M W unit :=
  let f_dir := FS.join (dirs cfg "repositories") "ffmpeg" in
  f_changed <- git_sync "https://git.ffmpeg.org/ffmpeg.git" "ffmpeg" f_dir ;;
  emit (EvSync "ffmpeg" f_changed) ;;
  f <- get_fs ;;
  if clean_mode cfg || negb (FS.exists_ f (marker_of cfg "ffmpeg")) || f_changed
     || negb (bool_decide (updated_libs = ∅))
  then
    logi (Building "ffmpeg") ;;
    let b_dir := FS.join (dirs cfg "working") "ffmpeg" in
    rmd b_dir ;;
    shutil_copytree f_dir b_dir ;;
    run "./configure {ffmpeg options}" b_dir ;;
    run "make -j{nproc}" b_dir ;;
    run "make install" b_dir ;;
    write_marker "ffmpeg"
  else ret tt.

Definition libs_list : list string := [
  "-static";
  "-lintl"; "-liconv"; "-limagehlp"; "-lksuser"; "-lmfplat"; "-lmfuuid"; "-lwmcodecdspuuid";
  "-lshlwapi"; "-lole32"; "-luuid"; "-lversion"; "-lwinmm"; "-lsetupapi";
  "-ld3d11"; "-ldxgi"; "-ld3dcompiler"; "-ldxguid"; "-ldwmapi"; "-luxtheme"; "-lSDL2"
].

Definition native_file : string :=
  let meson_list := Py.join ", " ((λ x, "'" +:+ x +:+ "'") <$> libs_list) in
  "[built-in options]" +:+ Py.nl
  +:+ "c_link_args = [" +:+ meson_list +:+ "]" +:+ Py.nl
  +:+ "cpp_link_args = [" +:+ meson_list +:+ "]" +:+ Py.nl.

(** Lines 871-913 *)
Definition build_mpv (updated_libs : gset string) : M W unit :=
  let m_dir := FS.join (dirs cfg "repositories") "mpv" in
  m_changed <- git_sync "https://github.com/mpv-player/mpv.git" "mpv" m_dir ;;
  emit (EvSync "mpv" m_changed) ;;
  f <- get_fs ;;
  if clean_mode cfg || negb (FS.exists_ f (marker_of cfg "mpv")) || m_changed
     || negb (bool_decide (updated_libs = ∅)) || force_mpv cfg
  then
    let sdl2_src := FS.join (dirs cfg "msys2") "ucrt64/include/SDL2" in
    let sdl2_dst := FS.join (dirs cfg "installed") "include/SDL2" in
    (if FS.exists_ f sdl2_src && negb (FS.exists_ f (FS.join sdl2_dst "SDL.h")) then
       os_makedirs sdl2_dst ;;
       items <- os_listdir sdl2_src ;;
       for_each items (λ x,
         shutil_copy (FS.join sdl2_src x) (FS.join sdl2_dst x)) ;;
       logi (Note "FIX: Copied SDL2 headers from msys2")
     else ret tt) ;;
    logi (Building "mpv") ;;
    let b_dir := FS.join (dirs cfg "working") "mpv" in
    rmd b_dir ;;
    shutil_copytree m_dir b_dir ;;
    write_file (FS.join b_dir "mpv_build.ini") native_file ;;
    mrun ["meson setup build . {mpv options}"; "ninja -C build -j{nproc}";
          "ninja -C build install"] b_dir ;;
    write_marker "mpv"
  else ret tt.

Definition allowed_files : list string :=
  ["mpv.exe"; "mpv.com"; "ffmpeg.exe"; "ffplay.exe"; "ffprobe.exe"].

(** Lines 918-925 *)
Definition strip_binaries (bin_dir : string) : M W unit :=
  for_each ["mpv.exe"; "mpv.com"; "ffmpeg.exe"; "ffplay.exe"; "ffprobe.exe"] (λ exe,
    let src := FS.join bin_dir exe in
    f <- get_fs ;;
    if FS.exists_ f src then
      try_except
        (logi (Note "Stripping") ;; run ("strip -s " +:+ src) bin_dir ;; ret tt)
        is_Exception
        (λ _, log_error (Note "Failed to process"))
    else ret tt).

(** Lines 927-937 *)
Definition clean_bin (bin_dir : string) : M W unit :=
  items <- os_listdir bin_dir ;;
  for_each items (λ item,
    if negb (bool_decide (item ∈ allowed_files)) then
      let p := FS.join bin_dir item in
      try_except
        (f <- get_fs ;;
         (if FS.isfile f p then os_remove p
          else if FS.isdir f p then shutil_rmtree p
          else ret tt) ;;
         logi (Removed item))
        is_Exception
        (λ _, log_error (Note "Failed to remove"))
    else ret tt).


(** Lines 633-913: the dependency loop and the two top-level projects. *)
Definition orchestrate : M W unit :=
  updated_libs <- dependency_loop deps ∅ ;;
  build_ffmpeg updated_libs ;;
  build_mpv updated_libs.



(** *** Helpers of the environment set-up *)

Definition shim_source : string :=
  Py.join Py.nl [
    "#include <stdio.h>";
    "#include <stdarg.h>";
    "// Compatibility shims for MSVC symbols in static CUDA/NVCC builds";
    "int _vsnprintf(char *s, size_t n, const char *format, va_list arg) {";
    "    return vsnprintf(s, n, format, arg);";
    "}";
    "int _snprintf(char *s, size_t n, const char *format, ...) {";
    "    va_list arg; int ret; va_start(arg, format);";
    "    ret = vsnprintf(s, n, format, arg);";
    "    va_end(arg); return ret;";
    "}";
    ""].

Definition shim_compile_cmd : string :=
  "gcc -O3 -fPIC -c vsnprintf_shim.c -o vsnprintf_shim.o".

(** The archive command; lines 298-303 convert the library's path the way
    [to_unix] does. *)
Definition shim_archive_cmd : string :=
  "ar rcs "
    +:+ to_unix (FS.join3 (dirs cfg "installed") "lib" "libvsnprintf_shim.a")
    +:+ " vsnprintf_shim.o".

(** [create_vsnprintf_shim(env)], lines 283-311 *)
Definition create_vsnprintf_shim : M W unit :=
  logi (Note "Creating vsnprintf shim library...") ;;
  os_makedirs (dirs cfg "working") ;;
  write_file (FS.join (dirs cfg "working") "vsnprintf_shim.c") shim_source ;;
  try_except
    (run shim_compile_cmd (dirs cfg "working") ;;
     run shim_archive_cmd (dirs cfg "working") ;;
     logi (Note "Created libvsnprintf_shim.a"))
    is_Exception
    (λ _, log_error (Note "Failed to create shim")).

Definition is_object (f : string) : bool := Py.endswith ".obj" f || Py.endswith ".o" f.

Definition sanitize_dir : string := FS.join (dirs cfg "working") "cudart_sanitize".

(** [sanitize_libcudart(lib_path)], lines 509-543 *)
Definition sanitize_libcudart (lib_path : string) : M W unit :=
  f <- get_fs ;;
  if negb (FS.exists_ f lib_path) then ret tt
  else
    let lib_path_unix := Py.replace "\" "/" lib_path in
    logi (Note "Sanitizing for MinGW LTO compatibility...") ;;
    rmd sanitize_dir ;;
    os_makedirs sanitize_dir ;;
    try_finally
      (try_except
         (run ("llvm-ar x " +:+ lib_path_unix) sanitize_dir ;;
          items <- os_listdir sanitize_dir ;;
          let objects := filter (λ f, is_object f = true) items in
          if bool_decide (objects = []) then
            log_warning (Note "No objects found in libcudart.a")
          else
            for_each objects (λ obj,
              run ("llvm-objcopy --remove-section=.drectve "
                     +:+ Py.replace "\" "/" (FS.join sanitize_dir obj)) sanitize_dir ;;
              ret tt) ;;
            os_remove lib_path ;;
            run ("llvm-ar rcs " +:+ lib_path_unix +:+ " " +:+ Py.join " " objects)
              sanitize_dir ;;
            logi (Note "Successfully sanitized"))
         is_Exception
         (λ _, log_error (Note "Failed to sanitize libcudart")))
      (rmd sanitize_dir).

(** [clean_libs]'s [keep] *)
Definition keep_libs : list string :=
  ["libvulkan-1.dll.a"; "libOpenCL.dll.a"; "libcudart.a"; "libSDL2.a"; "libvsnprintf_shim.a"].

(** [clean_libs()], lines 229-246 *)
Definition clean_libs : M W unit :=
  logi (Note "Sweeping lib folder for import libraries...") ;;
  for_each ["lib"; "lib64"] (λ lib_dir,
    let p := FS.join (dirs cfg "installed") lib_dir in
    f <- get_fs ;;
    if negb (FS.exists_ f p) then ret tt
    else
      for_each ["*.dll.a"; "*.la"] (λ ext,
        f <- get_fs ;;
        for_each (FS.glob p ext f) (λ file,
          if bool_decide (FS.basename file ∈ keep_libs) then ret tt
          else try_except (os_remove file ;; logi (Cleaned file))
                 (λ _, true) (λ _, ret tt)))) ;;
  for_each ["libz.dll.a"; "libstdc++.dll.a"; "libgcc_s.dll.a"; "libSDL2main.a"] (λ bad,
    let sys_z := FS.join3 (dirs cfg "installed") "lib" bad in
    f <- get_fs ;;
    if FS.exists_ f sys_z then logi (Cleaned sys_z) ;; os_remove sys_z else ret tt).

(** Lines 561-585: the system's metadata files and import libraries are
    copied into the install prefix. *)
Definition import_system_files : M W unit :=
  let sys_lib := FS.join3 (dirs cfg "msys2") "ucrt64" "lib" in
  let sys_pkg := FS.join sys_lib "pkgconfig" in
  let loc_lib := FS.join (dirs cfg "installed") "lib" in
  let loc_pkg := FS.join loc_lib "pkgconfig" in
  os_makedirs loc_pkg ;;
  for_each ["vulkan.pc"; "sdl2.pc"] (λ pattern,
    f <- get_fs ;;
    for_each (FS.glob sys_pkg pattern f) (λ file,
      shutil_copy file (FS.join loc_pkg (FS.basename file)) ;;
      logi (Note "Imported") ;;
      patch_pc (FS.join loc_pkg (FS.basename file)) "-lstdc++ -lm -lpthread")) ;;
  os_makedirs loc_lib ;;
  for_each ["libvulkan*.dll.a"; "libOpenCL*.dll.a"; "libSDL2.a"] (λ pattern,
    f <- get_fs ;;
    for_each (FS.glob sys_lib pattern f) (λ file,
      shutil_copy file (FS.join loc_lib (FS.basename file)) ;;
      logi (Note "Imported library"))) ;;
  for_each [("libvulkan-1.dll.a", "libvulkan-1.a"); ("libOpenCL.dll.a", "libOpenCL.a")]
    (λ alias,
      let src_p := FS.join loc_lib alias.1 in
      let dst_p := FS.join loc_lib alias.2 in
      f <- get_fs ;;
      if FS.exists_ f src_p then shutil_copy src_p dst_p ;; logi (Note "Aliased")
      else ret tt).

End Orchestrator.

End V2.

(** ** The legacy variant, [build.py]

    Its loop over [deps] (lines 394-600) with the helpers it calls.  The
    packages are rebuilt in list order: one flag, [deps_rebuilt], takes the
    place of the canonical variant's dependency sets. *)

Module Legacy.

Inductive build_kind := cmake | intl | make | autotools | meson | luajit.

#[global] Instance build_kind_eq_dec : EqDecision build_kind.
Proof. solve_decision. Defined.

(** One entry of [deps]: [(n, u, t, f)], the flag text [f] left out as in
    the canonical variant. *)
Record package := Package {
  pkg_n : string;
  pkg_u : option string;
  pkg_t : option build_kind
}.

Definition to_unix (p : string) : string :=
  Py.replace "C:/" "/c/" (Py.replace "\" "/" p).

Definition pre (cfg : config) : string := to_unix (dirs cfg "installed").

Definition deps : list package := [
  Package "expat" (Some "https://github.com/libexpat/libexpat.git") (Some cmake);
  Package "gettext" None (Some intl);
  Package "bzip2" (Some "https://sourceware.org/git/bzip2.git") (Some make);
  Package "zlib" (Some "https://github.com/madler/zlib.git") (Some cmake);
  Package "xz" None (Some autotools);
  Package "zimg" (Some "https://github.com/sekrit-twc/zimg.git") (Some autotools);
  Package "libpng" (Some "https://github.com/glennrp/libpng.git") (Some cmake);
  Package "libjpeg-turbo" (Some "https://github.com/libjpeg-turbo/libjpeg-turbo.git")
    (Some cmake);
  Package "freetype" (Some "https://gitlab.freedesktop.org/freetype/freetype.git")
    (Some meson);
  Package "libiconv" (Some "https://git.savannah.gnu.org/git/libiconv.git") (Some autotools);
  Package "fribidi" (Some "https://github.com/fribidi/fribidi.git") (Some meson);
  Package "harfbuzz" (Some "https://github.com/harfbuzz/harfbuzz.git") (Some cmake);
  Package "fontconfig" (Some "https://gitlab.freedesktop.org/fontconfig/fontconfig.git")
    (Some meson);
  Package "libass" (Some "https://github.com/libass/libass.git") (Some autotools);
  Package "lcms2" (Some "https://github.com/mm2/Little-CMS.git") (Some meson);
  Package "libepoxy" (Some "https://github.com/anholt/libepoxy.git") (Some meson);
  Package "spirv-headers" (Some "https://github.com/KhronosGroup/SPIRV-Headers.git")
    (Some cmake);
  Package "spirv-cross" (Some "https://github.com/KhronosGroup/SPIRV-Cross.git") (Some cmake);
  Package "glslang" (Some "https://github.com/KhronosGroup/glslang.git") None;
  Package "spirv-tools" (Some "https://github.com/KhronosGroup/SPIRV-Tools.git") None;
  Package "shaderc" (Some "https://github.com/google/shaderc.git") (Some cmake);
  Package "ffnvcodec" (Some "https://git.videolan.org/git/ffmpeg/nv-codec-headers.git")
    (Some make);
  Package "dav1d" (Some "https://code.videolan.org/videolan/dav1d.git") (Some meson);
  Package "libplacebo" (Some "https://code.videolan.org/videolan/libplacebo.git")
    (Some meson);
  Package "luajit" (Some "https://github.com/LuaJIT/LuaJIT.git") (Some luajit);
  Package "uchardet" (Some "https://gitlab.freedesktop.org/uchardet/uchardet.git")
    (Some cmake);
  Package "libsoxr" (Some "https://git.code.sf.net/p/soxr/code") (Some cmake);
  Package "fftw" None (Some autotools);
  Package "libsamplerate" (Some "https://github.com/libsndfile/libsamplerate.git")
    (Some cmake);
  Package "rubberband" (Some "https://github.com/breakfastquay/rubberband.git") (Some meson)
].

(** [remove_pkg]'s [lib_map] *)
Definition lib_map : gmap string string := list_to_map [
  ("bzip2", "bz2"); ("gettext", "intl"); ("xz", "lzma"); ("freetype", "freetype");
  ("harfbuzz", "harfbuzz"); ("fribidi", "fribidi"); ("libiconv", "iconv");
  ("spirv-headers", "SPIRV-Headers"); ("spirv-tools", "SPIRV-Tools");
  ("spirv-cross", "spirv-cross"); ("glslang", "glslang"); ("shaderc", "shaderc");
  ("lcms2", "lcms2"); ("libepoxy", "epoxy"); ("zimg", "zimg"); ("libass", "ass");
  ("fontconfig", "fontconfig"); ("zlib", "z"); ("libpng", "png");
  ("libjpeg-turbo", "jpeg"); ("luajit", "luajit"); ("ffnvcodec", "ffnvcodec");
  ("uchardet", "uchardet"); ("libsoxr", "soxr"); ("fftw", "fftw3");
  ("libsamplerate", "samplerate"); ("rubberband", "rubberband")
].

Definition search_patterns (n : string) : list string :=
  let ln := default n (lib_map !! n) in
  ["lib" +:+ ln +:+ "*.a"; ln +:+ "*.a"]
  ++ (if bool_decide (n = "shaderc") then ["libshaderc*.a"] else [])
  ++ (if bool_decide (n = "glslang")
      then ["libGenericCodeGen.a"; "libMachineIndependent.a"; "libOGLCompiler.a";
            "libOSDependent.a"; "libHLSL.a"] else [])
  ++ (if bool_decide (n = "spirv-tools") then ["libSPIRV-Tools*.a"] else [])
  ++ (if bool_decide (n = "spirv-cross") then ["libspirv-cross*.a"] else [])
  ++ (if bool_decide (n = "libjpeg-turbo") then ["libturbojpeg.a"; "libjpeg.a"] else []).

(** The tarball packages of lines 401-449: archive name, download
    locations, top directory inside the archive, and whether a source tree
    without [configure] is thrown away first. *)
Definition tarballs : gmap string (string * list string * string * bool) := list_to_map [
  ("gettext", ("gettext-0.22.tar.xz",
               ["https://ftp.gnu.org/pub/gnu/gettext/gettext-0.22.tar.xz";
                "https://ftpmirror.gnu.org/gettext/gettext-0.22.tar.xz";
                "https://mirror.selfnet.de/gnu/gettext/gettext-0.22.tar.xz"],
               "gettext-0.22", false));
  ("xz", ("xz-5.6.3.tar.xz",
          ["https://github.com/tukaani-project/xz/releases/download/v5.6.3/xz-5.6.3.tar.xz"],
          "xz-5.6.3", true));
  ("fftw", ("fftw-3.3.10.tar.gz", ["https://www.fftw.org/fftw-3.3.10.tar.gz"],
            "fftw-3.3.10", true))
].

(** The corruption check's [pc_map]; [None] is Python's [None]. *)
Definition pc_map : gmap string (option string) := list_to_map [
  ("gettext", Some "libintl"); ("xz", Some "liblzma"); ("libjpeg-turbo", Some "libjpeg");
  ("freetype", Some "freetype2"); ("spirv-cross", None); ("spirv-headers", None);
  ("spirv-tools", Some "SPIRV-Tools"); ("glslang", None); ("libepoxy", Some "epoxy");
  ("ffnvcodec", Some "ffnvcodec"); ("bzip2", None); ("libsoxr", Some "soxr");
  ("fftw", Some "fftw3"); ("libsamplerate", Some "samplerate")
].

Definition lib_name (n : string) : string :=
  if bool_decide (n = "freetype") then "libfreetype.a"
  else if bool_decide (n = "libsoxr") then "libsoxr.a"
  else if bool_decide (n = "fftw") then "libfftw3.a"
  else "lib" +:+ n +:+ ".a".

(** Lines 480-484: the file whose absence alone marks a package changed. *)
Definition required_output : gmap string string := list_to_map [
  ("spirv-cross", "lib/libspirv-cross-c.a");
  ("shaderc", "lib/libshaderc_combined.a");
  ("libplacebo", "lib/libplacebo.a");
  ("glslang", "lib/libglslang.a");
  ("spirv-headers", "include/spirv/unified1/spirv.h")
].

(** The text [patch_pc] writes back for a file holding [c]. *)
Definition patch_content (libs c : string) : string :=
  let c :=
    if negb (Py.contains libs c) then
      if Py.contains "Libs.private:" c
      then Py.replace "Libs.private:" ("Libs.private: " +:+ libs) c
      else if Py.contains "Libs:" c
           then Py.replace "Libs:" ("Libs: " +:+ libs) c
           else c +:+ Py.nl +:+ "Libs: " +:+ libs
    else c in
  if Py.contains "-ldl" c then Py.replace "-ldl" "" c else c.

(** The text [create_pc] writes. *)
Definition pc_text (cfg : config) (name ver desc libs reqs cflags : string) : string :=
  Py.join Py.nl [
    "prefix=" +:+ pre cfg;
    "exec_prefix=${prefix}";
    "libdir=${exec_prefix}/lib";
    "includedir=${prefix}/include";
    "";
    "Name: " +:+ name;
    "Description: " +:+ desc;
    "Version: " +:+ ver;
    "Requires.private: " +:+ reqs;
    "Libs: -L${libdir} " +:+ libs;
    "Cflags: " +:+ cflags;
    ""].

Definition link_libs_placebo : string :=
  "-lstdc++ -lm -lgcc -lpthread -lvulkan-1 -lshlwapi -lgdi32 -lbcrypt -lole32 -luuid -luser32 -ld3d11 -ldxgi -lversion -llcms2 -lsetupapi -ladvapi32 -lepoxy".

(** [l.insert(i, x)] *)
Definition list_insert_at {A} (i : nat) (x : A) (l : list A) : list A :=
  take i l ++ x :: drop i l.

Section Loop.
Context {W : Type} `{Host W}.
Variable cfg : config.

Definition inst_path (rel : string) : string := FS.join (dirs cfg "installed") rel.

Definition pkgconfig_file (name : string) : string :=
  FS.join (FS.join3 (dirs cfg "installed") "lib" "pkgconfig") name.

Definition git_clone_cmd (u n : string) : string :=
  if bool_decide (n = "ffmpeg") || bool_decide (n = "mpv")
  then "git clone --quiet --depth 1 " +:+ u +:+ " " +:+ n
  else "git clone --quiet " +:+ u +:+ " " +:+ n.

Definition git_sync (u n d : string) : M W bool :=
  f <- get_fs ;;
  (if negb (FS.exists_ f d) then
     logi (Cloning n) ;;
     run (git_clone_cmd u n) (FS.dirname d) ;;
     ret tt
   else
     try_except
       (current_url <- run "git remote get-url origin" d ;;
        if negb (bool_decide (Py.strip current_url = u)) && negb (skip_updates cfg)
        then run ("git remote set-url origin " +:+ u) d ;; ret tt
        else ret tt)
       (λ _, true) (λ _, ret tt)) ;;
  if skip_updates cfg then
    logi (SkippingUpdate n) ;; ret false
  else
    try_except
      (run "git reset --hard HEAD" d ;;
       old <- run "git rev-parse HEAD" d ;;
       run "git pull --quiet" d ;;
       run "git submodule update --init --recursive --quiet" d ;;
       new <- run "git rev-parse HEAD" d ;;
       ret (negb (bool_decide (Py.strip old = Py.strip new))))
      is_CalledProcessError
      (λ _, log_warning (UpdateFailed n) ;; ret false).

Definition patch_pc (path libs : string) : M W unit :=
  f <- get_fs ;;
  if negb (FS.exists_ f path) then ret tt
  else
    try_except
      (c <- read_file path ;;
       write_file path (patch_content libs c) ;;
       logi (Patched (FS.basename path)))
      is_Exception
      (λ _, log_error (PatchFailed path)).

Definition create_pc (name ver desc libs reqs cflags : string) : M W unit :=
  let pc_path := pkgconfig_file (name +:+ ".pc") in
  let lib64_pc :=
    FS.join (FS.join3 (dirs cfg "installed") "lib64" "pkgconfig") (name +:+ ".pc") in
  f <- get_fs ;;
  (if FS.exists_ f lib64_pc then os_remove lib64_pc else ret tt) ;;
  logi (Note "Creating/Overwriting .pc") ;;
  write_file pc_path (pc_text cfg name ver desc libs reqs cflags).

Definition clean_libs : M W unit :=
  logi (Note "Sweeping lib folder for import libraries...") ;;
  for_each ["lib"; "lib64"] (λ lib_dir,
    let p := inst_path lib_dir in
    f <- get_fs ;;
    if negb (FS.exists_ f p) then ret tt
    else
      for_each ["*.dll.a"; "*.dll"; "*.la"] (λ ext,
        f <- get_fs ;;
        for_each (FS.glob p ext f) (λ file,
          try_except (os_remove file ;; logi (Cleaned file)) (λ _, true) (λ _, ret tt)))) ;;
  for_each ["libz.dll.a"; "libstdc++.dll.a"; "libgcc_s.dll.a"; "libz.a"; "libzlibstatic.a"]
    (λ bad,
      let sys_z := FS.join (inst_path "lib") bad in
      f <- get_fs ;;
      if FS.exists_ f sys_z then logi (Cleaned sys_z) ;; os_remove sys_z else ret tt).

Definition remove_pkg (n : string) : M W unit :=
  let ln := default n (lib_map !! n) in
  for_each ["lib"; "lib64"] (λ lib_dir,
    let p := inst_path lib_dir in
    let pk := FS.join p "pkgconfig" in
    f <- get_fs ;;
    if negb (FS.exists_ f p) then ret tt
    else
      for_each (search_patterns n) (λ pat,
        f <- get_fs ;;
        for_each (FS.glob p pat f) (λ file,
          try_except (os_remove file ;; logi (Cleaned file)) (λ _, true) (λ _, ret tt))) ;;
      f <- get_fs ;;
      for_each (FS.glob pk ("*" +:+ ln +:+ "*.pc") f) (λ file,
        try_except (os_remove file ;; logi (Cleaned file)) (λ _, true) (λ _, ret tt)) ;;
      if bool_decide (n = "spirv-cross") then
        f <- get_fs ;;
        for_each (FS.glob pk "spirv-cross-c-shared.pc" f) (λ file,
          try_except (os_remove file ;; logi (Cleaned file)) (λ _, true) (λ _, ret tt))
      else ret tt).

Definition dump_meson_summary (build_dir : string) : M W unit :=
  let log_path := FS.join3 build_dir "meson-logs" "meson-log.txt" in
  f <- get_fs ;;
  if FS.exists_ f log_path then
    logi (Note "--- MESON BUILD SUMMARY ---") ;;
    try_except
      (content <- read_file log_path ;;
       if Py.contains "Build targets in project" content
       then logi (Note "summary")
       else for_each ["opengl"; "d3d11"; "vulkan"; "shaderc"; "lcms"; "glslang";
                      "cuda-hwaccel"; "cuda-interop"] (λ feature, logi (Note feature)))
      (λ _, true) (λ _, ret tt) ;;
    logi (Note "---------------------------")
  else ret tt.

Definition extract_tar (f d : string) : M W unit :=
  logi (Note "Extracting") ;;
  host_call (extractall f d) (OSError f).

(** [for url in urls: try: urlretrieve(url, tar); break / except: pass] *)
Fixpoint download_first (urls : list string) (tar : string) : M W unit :=
  match urls with
  | [] => ret tt
  | url :: rest =>
      fetched <- try_except
        (logi (Note "Downloading") ;;
         emit (EvDownload url) ;;
         host_call (urlretrieve url tar) (DownloadError url) ;;
         ret true)
        (λ _, true) (λ _, ret false) ;;
      if fetched : bool then ret tt else download_first rest tar
  end.

(** Lines 401-449 for one tarball package; the value is [changed]. *)
Definition fetch_tarball (dep_dir : string)
    (entry : string * list string * string * bool) : M W bool :=
  let '(t_name, urls, root_name, needs_configure) := entry in
  let tar := FS.join (dirs cfg "tarballs") t_name in
  f <- get_fs ;;
  (if negb (FS.exists_ f tar) then
     download_first urls tar ;;
     f <- get_fs ;;
     if negb (FS.exists_ f tar)
     then log_error (Note "download failed.") ;; raise (SystemExit 1)
     else ret tt
   else ret tt) ;;
  f <- get_fs ;;
  (if needs_configure && FS.exists_ f dep_dir
      && negb (FS.exists_ f (FS.join dep_dir "configure"))
   then rmd dep_dir else ret tt) ;;
  f <- get_fs ;;
  if negb (FS.exists_ f dep_dir) then
    os_makedirs dep_dir ;;
    extract_tar tar dep_dir ;;
    let root := FS.join dep_dir root_name in
    f <- get_fs ;;
    (if FS.exists_ f root then
       items <- os_listdir root ;;
       for_each items (λ i, shutil_move (FS.join root i) dep_dir i) ;;
       os_rmdir root
     else ret tt) ;;
    ret true
  else ret false.

(** Lines 397-449 *)
Definition acquire (p : package) : M W bool :=
  let n := pkg_n p in
  let dep_dir := FS.join (dirs cfg "repositories") n in
  match pkg_u p with
  | Some u => git_sync u n dep_dir
  | None =>
      match tarballs !! n with
      | Some entry => fetch_tarball dep_dir entry
      | None => ret false
      end
  end.

(** Lines 451-484: the checks that may turn [changed] on. *)
Definition corruption_check (n : string) (changed : bool) : M W bool :=
  f <- get_fs ;;
  changed <-
    (if bool_decide (n = "luajit") && negb (FS.exists_ f (inst_path "lib/libluajit.a"))
     then logi (Note "LuaJIT static lib missing. Forcing rebuild.") ;; ret true
     else ret changed) ;;
  if FS.exists_ f (marker_of cfg n) then
    changed <-
      match default (Some n) (pc_map !! n) with
      | Some pc_name =>
          if negb (FS.exists_ f (pkgconfig_file (pc_name +:+ ".pc"))) then
            if negb (FS.exists_ f (FS.join (inst_path "lib") (lib_name n)))
            then log_warning (ForcingRebuild n) ;; ret true
            else logi (Note "Warning: .pc missing, but library exists. Skipping rebuild.") ;;
                 ret changed
          else ret changed
      | None => ret changed
      end ;;
    ret (changed || match required_output !! n with
                    | Some rel => negb (FS.exists_ f (inst_path rel))
                    | None => false
                    end)
  else ret changed.

Definition cmake_cmds (src : string) : list string :=
  ["cmake -B build -G Ninja {f_env} " +:+ src; "ninja -C build -j{nproc}";
   "ninja -C build install"].

Definition meson_cmds : list string :=
  ["meson setup build . {options} {f_env} {link_args}"; "ninja -C build -j{nproc}";
   "ninja -C build install"].

Definition configure_cmds : list string :=
  ["./configure {options} {f_env}"; "make -j{nproc}"; "make install"].

(** Lines 499-554: the build adapter for one package, run in its working
    copy [build_dir]. *)
Definition dispatch (p : package) (build_dir : string) : M W unit :=
  let n := pkg_n p in
  let t := pkg_t p in
  if bool_decide (n = "libepoxy") then mrun meson_cmds build_dir
  else if bool_decide (n = "shaderc") then
    let tp := FS.join build_dir "third_party" in
    os_makedirs tp ;;
    for_each ["glslang"; "spirv-tools"; "spirv-headers"] (λ sub,
      let src := FS.join (dirs cfg "repositories") sub in
      let dst := FS.join tp sub in
      f <- get_fs ;;
      if FS.exists_ f src then
        (if FS.exists_ f dst then rmd dst else ret tt) ;;
        shutil_copytree src dst ;;
        logi (Note "Injected into shaderc")
      else ret tt) ;;
    mrun (cmake_cmds ".") build_dir
  else if bool_decide (n = "expat") then mrun (cmake_cmds "expat") build_dir
  else if bool_decide (n = "gettext") then
    mrun ["cd gettext-runtime && ./configure {options} {f_env}";
          "cd gettext-runtime && make -j1"; "cd gettext-runtime && make install"] build_dir ;;
    create_pc "libintl" "0.22" "GNU gettext runtime library" "-lintl" "" "-I${includedir}"
  else if bool_decide (n = "xz") then mrun configure_cmds build_dir
  else if bool_decide (n = "bzip2") then
    mrun ["make -j{nproc} {options}"; "make install PREFIX={pre}"] build_dir
  else if bool_decide (n = "zimg") then
    mrun ["./autogen.sh"] build_dir ;;
    mrun configure_cmds build_dir
  else if bool_decide (n = "zlib") then
    clean_libs ;;
    mrun (cmake_cmds ".") build_dir ;;
    let src_z := inst_path "lib/libzlibstatic.a" in
    let dst_z := inst_path "lib/libz.a" in
    f <- get_fs ;;
    (if FS.exists_ f src_z && negb (FS.exists_ f dst_z)
     then shutil_copy src_z dst_z ;; logi (Note "Aliased libzlibstatic.a to libz.a")
     else ret tt) ;;
    create_pc "zlib" "1.3" "zlib compression library" "-lz" "" "-I${includedir}"
  else if bool_decide (n = "libpng") || bool_decide (n = "libjpeg-turbo") then
    mrun (cmake_cmds ".") build_dir
  else if bool_decide (n = "ffnvcodec") then mrun ["make install PREFIX={pre}"] build_dir
  else if bool_decide (n = "fribidi") then
    let mb := FS.join build_dir "meson.build" in
    f <- get_fs ;;
    (if FS.exists_ f mb then
       c <- read_file mb ;;
       write_file mb (Py.replace "subdir('bin')" "#subdir('bin')" c)
     else ret tt) ;;
    mrun meson_cmds build_dir
  else if bool_decide (t = Some autotools) then
    (if bool_decide (n = "libiconv") then mrun ["./gitsub.sh pull"; "./autogen.sh"] build_dir
     else if bool_decide (n = "libass") || bool_decide (n = "fribidi")
          then mrun ["./autogen.sh"] build_dir
          else ret tt) ;;
    mrun configure_cmds build_dir ;;
    if bool_decide (n = "libiconv")
    then create_pc "libiconv" "1.17" "GNU libiconv" "-liconv" "" "-I${includedir}"
    else ret tt
  else if bool_decide (t = Some meson) then
    mrun meson_cmds build_dir ;;
    if bool_decide (n = "libplacebo") then dump_meson_summary build_dir else ret tt
  else if bool_decide (t = Some cmake) then mrun (cmake_cmds ".") build_dir
  else if bool_decide (t = Some luajit) then
    mrun ["make -j{nproc} {options} BUILDMODE=static"] build_dir ;;
    mrun ["make install PREFIX={pre}"] build_dir ;;
    let src_a := FS.join3 build_dir "src" "libluajit.a" in
    let dst_a := inst_path "lib/libluajit.a" in
    f <- get_fs ;;
    if FS.exists_ f src_a then shutil_copy src_a dst_a else ret tt
  else ret tt.

(** [open(marker, 'w').close()] *)
Definition write_marker (n : string) : M W unit :=
  write_file (marker_of cfg n) EmptyString ;;
  emit (EvMarker n).

(** The rebuild branch, lines 489-557. *)
Definition rebuild (p : package) : M W unit :=
  let n := pkg_n p in
  let dep_dir := FS.join (dirs cfg "repositories") n in
  let build_dir := FS.join (dirs cfg "working") n in
  logi (Building n) ;;
  remove_pkg n ;;
  rmd build_dir ;;
  shutil_copytree dep_dir build_dir ;;
  dispatch p build_dir ;;
  clean_libs ;;
  write_marker n.

Definition spirv_cross_libs (f : gmap string FS.node) : list string :=
  let l := ["-lspirv-cross-c"; "-lspirv-cross-glsl"; "-lspirv-cross-hlsl";
            "-lspirv-cross-reflect"; "-lspirv-cross-util"; "-lspirv-cross-core";
            "-lstdc++"] in
  let l := if FS.exists_ f (inst_path "lib/libspirv-cross-msl.a")
           then list_insert_at 3 "-lspirv-cross-msl" l else l in
  if FS.exists_ f (inst_path "lib/libspirv-cross-cpp.a")
  then list_insert_at 4 "-lspirv-cross-cpp" l else l.

(** Lines 560-600: the metadata fix-ups that follow either branch. *)
Definition fixups (n : string) : M W unit :=
  if bool_decide (n = "gettext") then
    create_pc "libintl" "0.22" "GNU gettext runtime library" "-lintl" "" "-I${includedir}"
  else if bool_decide (n = "libiconv") then
    create_pc "libiconv" "1.17" "GNU libiconv" "-liconv" "" "-I${includedir}"
  else if bool_decide (n = "fontconfig") then
    patch_pc (pkgconfig_file "fontconfig.pc") "-lintl -liconv"
  else if bool_decide (n = "freetype") then
    patch_pc (pkgconfig_file "freetype2.pc") "-lbz2 -lpng -lharfbuzz -lintl -liconv"
  else if bool_decide (n = "libass") then
    patch_pc (pkgconfig_file "libass.pc") "-lharfbuzz -lintl -liconv"
  else if bool_decide (n = "shaderc") then
    create_pc "shaderc" "2023.7" "shaderc" "-lshaderc_combined -lstdc++ -lm -lpthread" ""
      "-I${includedir}" ;;
    let src := inst_path "lib/libshaderc_combined.a" in
    f <- get_fs ;;
    if FS.exists_ f src then
      shutil_copy src (inst_path "lib/libshaderc_shared.a") ;;
      shutil_copy src (inst_path "lib/libshaderc.a") ;;
      logi (Note "Created static aliases: libshaderc_shared.a, libshaderc.a")
    else ret tt
  else if bool_decide (n = "spirv-cross") then
    f <- get_fs ;;
    create_pc "spirv-cross-c-shared" "0.67.0" "SPIRV-Cross C Shared"
      (Py.join " " (spirv_cross_libs f)) "" "-I${includedir}/spirv_cross -I${includedir}" ;;
    let src_a := inst_path "lib/libspirv-cross-c.a" in
    f <- get_fs ;;
    if FS.exists_ f src_a then shutil_copy src_a (inst_path "lib/libspirv-cross-c-shared.a")
    else ret tt
  else if bool_decide (n = "libplacebo") then
    let pc_file := pkgconfig_file "libplacebo.pc" in
    patch_pc pc_file link_libs_placebo ;;
    f <- get_fs ;;
    if FS.exists_ f pc_file then
      c <- read_file pc_file ;;
      if Py.contains "shaderc_shared" c
      then write_file pc_file (Py.replace "shaderc_shared" "shaderc_combined" c)
      else ret tt
    else ret tt
  else if bool_decide (n = "harfbuzz") then patch_pc (pkgconfig_file "harfbuzz.pc") "-lstdc++"
  else if bool_decide (n = "dav1d") then patch_pc (pkgconfig_file "dav1d.pc") "-lpthread"
  else if bool_decide (n = "luajit") then
    let src_pc := pkgconfig_file "luajit.pc" in
    patch_pc src_pc "-lm" ;;
    f <- get_fs ;;
    if FS.exists_ f src_pc then
      let lib_src := inst_path "lib/libluajit.a" in
      (if FS.exists_ f lib_src then shutil_copy lib_src (inst_path "lib/libluajit-5.1.a")
       else ret tt) ;;
      for_each ["luajit-5.1.pc"; "lua51.pc"; "lua.pc"] (λ alias,
        let dst := pkgconfig_file alias in
        f <- get_fs ;;
        if negb (FS.exists_ f dst) then shutil_copy src_pc dst else ret tt)
    else ret tt
  else if bool_decide (n = "rubberband") then
    patch_pc (pkgconfig_file "rubberband.pc") "-lstdc++"
  else ret tt.

(** The staleness predicate of line 488, on the tree [f] it is evaluated
    in. *)
Definition stale (n : string) (changed : bool) (f : gmap string FS.node) : bool :=
  clean_mode cfg || negb (FS.exists_ f (marker_of cfg n)) || changed.

(** One iteration of the loop over [deps]; the value is [deps_rebuilt]
    afterwards. *)
Definition dep_step (p : package) (deps_rebuilt : bool) : M W bool :=
  let n := pkg_n p in
  changed <- acquire p ;;
  changed <- corruption_check n changed ;;
  let changed := if deps_rebuilt then true else changed in
  f <- get_fs ;;
  deps_rebuilt <-
    (if stale n changed f
     then rebuild p ;; ret true
     else logi (Skipping n) ;; ret deps_rebuilt) ;;
  fixups n ;;
  ret deps_rebuilt.

Fixpoint dependency_loop (ps : list package) (deps_rebuilt : bool) : M W bool :=
  match ps with
  | [] => ret deps_rebuilt
  | p :: ps' =>
      deps_rebuilt' <- dep_step p deps_rebuilt ;;
      dependency_loop ps' deps_rebuilt'
  end.

(** *** The two top-level projects, lines 602-680 *)

(** [debug_pkg_config()], lines 255-269; the package list is only
    logged. *)
Definition debug_pkg_config : M W unit :=
  logi (Note "--- AVAILABLE PACKAGES (PKG-CONFIG) ---") ;;
  f <- get_fs ;;
  (if FS.exists_ f (FS.join3 (dirs cfg "installed") "lib" "pkgconfig")
   then logi (Note "Found packages")
   else log_error (Note "PKG-CONFIG DIR MISSING")) ;;
  logi (Note "DEBUG: Resolving zlib libs...") ;;
  try_except
    (run "pkg-config --static --libs zlib" EmptyString ;;
     logi (Note "PKG-CONFIG ZLIB"))
    (λ _, true) (λ _, ret tt) ;;
  logi (Note "---------------------------------------").

(** Lines 606-615 *)
Definition integrity_gate : M W unit :=
  f <- get_fs ;;
  let check_pass := FS.exists_ f (pkgconfig_file "libass.pc") in
  check_pass <-
    (if negb (FS.exists_ f (inst_path "include/spirv_cross/spirv_cross_c.h"))
     then log_error (Note "CRITICAL: spirv_cross_c.h not found. Build is likely to fail.") ;;
          ret false
     else ret check_pass) ;;
  if negb check_pass
  then log_error (Note "Integrity checks failed. Aborting.") ;; raise (SystemExit 1)
  else ret tt.

(** Lines 617-619 *)
Definition restore_zlib_alias : M W unit :=
  clean_libs ;;
  f <- get_fs ;;
  if FS.exists_ f (inst_path "lib/libzlibstatic.a")
  then shutil_copy (inst_path "lib/libzlibstatic.a") (inst_path "lib/libz.a") ;;
       logi (Note "Restored libz.a alias for FFmpeg")
  else ret tt.

Definition ffmpeg_libs : list string :=
  ["avcodec"; "avdevice"; "avfilter"; "avformat"; "avutil"; "swresample"; "swscale";
   "postproc"].

(** Lines 622-643 *)
Definition build_ffmpeg (f_changed deps_rebuilt : bool) : M W unit :=
  let f_dir := FS.join (dirs cfg "repositories") "ffmpeg" in
  f <- get_fs ;;
  if clean_mode cfg || negb (FS.exists_ f (marker_of cfg "ffmpeg")) || f_changed
     || deps_rebuilt
  then
    logi (Building "ffmpeg") ;;
    remove_pkg "ffmpeg" ;;
    for_each ffmpeg_libs remove_pkg ;;
    let b_dir := FS.join (dirs cfg "working") "ffmpeg" in
    rmd b_dir ;;
    shutil_copytree f_dir b_dir ;;
    conf_out <- run "./configure {ffmpeg options}" b_dir ;;
    (if negb (bool_decide (conf_out = EmptyString)) then
       logi (Note "--- FFMPEG CONFIG SUMMARY (Partial) ---") ;;
       for_each (last_n 50 (Py.split_nl conf_out)) (λ line,
         if Py.contains "External libraries:" line
            || Py.contains "Hardware accelerators:" line
         then logi (Note line) else ret tt)
     else ret tt) ;;
    run "make -j{nproc}" b_dir ;;
    run "make install" b_dir ;;
    write_marker "ffmpeg"
  else logi (Skipping "ffmpeg").

(** Lines 661-663: files in [bin] other than the player go; directories
    stay. *)
Definition clean_bin : M W unit :=
  let bin := inst_path "bin" in
  items <- os_listdir bin ;;
  for_each items (λ f,
    let fp := FS.join bin f in
    t <- get_fs ;;
    if negb (bool_decide (f ∈ ["mpv.exe"; "mpv.com"])) && FS.isfile t fp
    then os_remove fp else ret tt).

(** [line.strip().split("DLL Name: ")[1]]; [None] where Python raises
    [IndexError]. *)
Definition dll_name (line : string) : option string :=
  match split_at "DLL Name: " (Py.strip line) with
  | None => None
  | Some (_, rest) =>
      match split_at "DLL Name: " rest with
      | Some (name, _) => Some name
      | None => Some rest
      end
  end.

Definition is_bad_dll (d : string) : bool :=
  Py.contains "libstdc++" d || Py.contains "zlib" d || Py.contains "libgcc" d
  || Py.contains "libEGL" d.

(** Lines 665-677; the [IndexError] of a malformed line is caught by the
    handler like every other exception, and is modelled as a [KeyError]. *)
Definition dll_check : M W unit :=
  try_except
    (logi (Note "--- DLL DEPENDENCY CHECK ---") ;;
     out <- subprocess_run
              (FS.join3 (dirs cfg "msys2") "ucrt64" "bin" +:+ "/objdump.exe -p "
                 +:+ FS.join (inst_path "bin") "mpv.exe") ;;
     let lines := filter (λ l, Py.contains "DLL Name:" l = true) (Py.split_nl out) in
     if forallb (λ l, bool_decide (is_Some (dll_name l))) lines then
       let dlls := omap dll_name lines in
       logi (Note "Found DLLs") ;;
       (if existsb is_bad_dll dlls
        then log_error (Note "FAILURE: mpv.exe depends on forbidden DLLs")
        else logi (Note "SUCCESS: mpv.exe has no forbidden DLL dependencies.")) ;;
       logi (Note "----------------------------")
     else raise (KeyError "DLL Name: "))
    is_Exception
    (λ _, log_error (Note "DLL Check Failed")).

(** Lines 648-678 *)
Definition build_mpv (m_changed deps_rebuilt f_changed : bool) : M W unit :=
  let m_dir := FS.join (dirs cfg "repositories") "mpv" in
  f <- get_fs ;;
  if clean_mode cfg || negb (FS.exists_ f (marker_of cfg "mpv")) || m_changed
     || deps_rebuilt || f_changed || force_mpv cfg
  then
    logi (Building "mpv") ;;
    let b_dir := FS.join (dirs cfg "working") "mpv" in
    rmd b_dir ;;
    shutil_copytree m_dir b_dir ;;
    clean_libs ;;
    mrun ["meson setup build . {mpv options}"; "ninja -C build -v -j{nproc}";
          "ninja -C build install"] b_dir ;;
    dump_meson_summary b_dir ;;
    write_marker "mpv" ;;
    clean_bin ;;
    dll_check
  else logi (Skipping "mpv").

(** Lines 394-680: the dependency loop and the two top-level projects. *)
Definition orchestrate : M W unit :=
  deps_rebuilt <- dependency_loop deps false ;;
  f_changed <- git_sync "https://git.ffmpeg.org/ffmpeg.git" "ffmpeg"
                 (FS.join (dirs cfg "repositories") "ffmpeg") ;;
  debug_pkg_config ;;
  integrity_gate ;;
  restore_zlib_alias ;;
  build_ffmpeg f_changed deps_rebuilt ;;
  m_changed <- git_sync "https://github.com/mpv-player/mpv.git" "mpv"
                 (FS.join (dirs cfg "repositories") "mpv") ;;
  build_mpv m_changed deps_rebuilt f_changed ;;
  logi (Note "Complete").

End Loop.

End Legacy.

(** * Reasoning about runs *)

(** ** Events *)

(** An auxiliary event is anything but a branch decision ([Building],
    [Skipping]), an acquisition record or a marker write. *)
Definition is_aux (e : event) : bool :=
  match e with
  | EvLog _ (Building _) | EvLog _ (Skipping _) => false
  | EvLog _ _ => true
  | EvExec _ _ _ => true
  | EvDownload _ => true
  | EvSync _ _ => false
  | EvMarker _ => false
  end.

(** An auxiliary event that is no child process. *)
Definition is_quiet (e : event) : bool :=
  match e with
  | EvExec _ _ _ => false
  | _ => is_aux e
  end.

(** An event that records no branch decision. *)
Definition is_silent (e : event) : bool :=
  match e with
  | EvLog _ (Building _) | EvLog _ (Skipping _) => false
  | _ => true
  end.

(** A child process, if the event is one, exited with status zero. *)
Definition exec_ok (e : event) : bool :=
  match e with
  | EvExec _ _ rc => Z.eqb rc 0
  | _ => true
  end.

(** The branch decisions of a trace, in order: the package and whether it
    was rebuilt. *)
Definition decisions (evs : list event) : list (string * bool) :=
  omap (λ e, match e with
             | EvLog _ (Building n) => Some (n, true)
             | EvLog _ (Skipping n) => Some (n, false)
             | _ => None
             end) evs.

(** The packages and projects a trace rebuilds, in order. *)
Definition rebuilt (evs : list event) : list string :=
  omap (λ d : string * bool, if d.2 then Some d.1 else None) (decisions evs).

(** The events a run added to the trace it started from. *)
Definition new_events {W} (st st' : state W) : list event :=
  drop (length (trace st)) (trace st').

Lemma decisions_app a b : decisions (a ++ b) = decisions a ++ decisions b.
Proof. unfold decisions. apply omap_app. Qed.

Lemma decisions_silent evs : Forall (λ e, is_silent e = true) evs → decisions evs = [].
Proof.
  induction 1 as [|e evs He _ IH]; [done|].
  unfold decisions in *. cbn. rewrite IH.
  destruct e as [l [] | | | |]; done.
Qed.

Lemma decisions_aux evs : Forall (λ e, is_aux e = true) evs → decisions evs = [].
Proof.
  intros Ha. apply decisions_silent. eapply Forall_impl; [done|].
  intros [? []| | | |]; done.
Qed.

Lemma rebuilt_app a b : rebuilt (a ++ b) = rebuilt a ++ rebuilt b.
Proof. unfold rebuilt. by rewrite decisions_app, omap_app. Qed.

Lemma rebuilt_aux evs : Forall (λ e, is_aux e = true) evs → rebuilt evs = [].
Proof. intros Ha. unfold rebuilt. by rewrite decisions_aux. Qed.

Lemma quiet_aux e : is_quiet e = true → is_aux e = true.
Proof. by destruct e. Qed.

Lemma quiet_exec_ok e : is_quiet e = true → exec_ok e = true.
Proof. by destruct e. Qed.

Lemma new_events_app {W} (st st' : state W) evs :
  trace st' = trace st ++ evs → new_events st st' = evs.
Proof. intros E. unfold new_events. by rewrite E, drop_app_length. Qed.

(** ** Trace specifications *)

Section TraceRules.
Context {W : Type} `{Host W}.

(** Every event [m] adds to the trace satisfies [P]. *)
Definition emits {A} (P : event → Prop) (m : M W A) : Prop :=
  ∀ st, ∃ evs, trace (m st).2 = trace st ++ evs ∧ Forall P evs.

Lemma emits_mono {A} (P Q : event → Prop) (m : M W A) :
  (∀ e, P e → Q e) → emits P m → emits Q m.
Proof.
  intros HPQ Hm st. destruct (Hm st) as (evs & ? & ?).
  exists evs. split; [done|]. eapply Forall_impl; eauto.
Qed.

Lemma emits_ret {A} P (a : A) : emits P (ret a : M W A).
Proof. intros st. exists []. by rewrite app_nil_r. Qed.

Lemma emits_raise {A} P e : emits P (raise e : M W A).
Proof. intros st. exists []. by rewrite app_nil_r. Qed.

Lemma emits_get_fs P : emits P (get_fs : M W _).
Proof. intros st. exists []. by rewrite app_nil_r. Qed.

Lemma emits_modify_fs P g : emits P (modify_fs g : M W _).
Proof. intros st. exists []. by rewrite app_nil_r. Qed.

Lemma emits_emit (P : event → Prop) e : P e → emits P (emit e : M W _).
Proof. intros He st. exists [e]. split; [done|]. by constructor. Qed.

Lemma emits_bind {A B} P (m : M W A) (k : A → M W B) :
  emits P m → (∀ a, emits P (k a)) → emits P (bind m k).
Proof.
  intros Hm Hk st. unfold bind.
  destruct (Hm st) as (evs1 & E1 & F1).
  destruct (m st) as [[a|e] st1]; simpl in *.
  - destruct (Hk a st1) as (evs2 & E2 & F2).
    exists (evs1 ++ evs2). rewrite E2, E1, (assoc_L (++)).
    split; [done|]. by apply Forall_app.
  - by exists evs1.
Qed.

Lemma emits_try {A} P (m : M W A) sel h :
  emits P m → (∀ e, emits P (h e)) → emits P (try_except m sel h).
Proof.
  intros Hm Hh st. unfold try_except.
  destruct (Hm st) as (evs1 & E1 & F1).
  destruct (m st) as [[a|e] st1]; simpl in *; [by exists evs1|].
  destruct (sel e); [|by exists evs1].
  destruct (Hh e st1) as (evs2 & E2 & F2).
  exists (evs1 ++ evs2). rewrite E2, E1, (assoc_L (++)).
  split; [done|]. by apply Forall_app.
Qed.

Lemma emits_for_each {A} P (l : list A) (body : A → M W unit) :
  (∀ x, emits P (body x)) → emits P (for_each l body).
Proof.
  intros Hb. induction l as [|x l IH]; simpl.
  - apply emits_ret.
  - apply emits_bind; auto.
Qed.

Lemma emits_run (P : event → Prop) cmd cwd :
  (∀ rc, P (EvExec cmd cwd rc)) → P (EvLog ERROR (Failed cmd)) →
  emits P (run cmd cwd).
Proof.
  intros Hx Hl st. unfold run.
  destruct (spawn cmd cwd (world st) (fs st)) as [[[rc out] w'] f'].
  destruct (Z.eqb rc 0); simpl.
  - exists [EvExec cmd cwd rc]. split; [done|]. constructor; auto.
  - exists [EvExec cmd cwd rc; EvLog ERROR (Failed cmd)].
    rewrite <- (assoc_L (++)). split; [done|]. repeat constructor; auto.
Qed.

Lemma emits_host_call P g e : emits P (host_call g e : M W _).
Proof.
  intros st. unfold host_call.
  destruct (g (world st) (fs st)) as [[w' f']|]; exists []; by rewrite app_nil_r.
Qed.

Lemma emits_host_environment P : emits P (host_environment : M W _).
Proof.
  intros st. unfold host_environment.
  destruct (environment (world st) (fs st)) as [[[b w'] f']|];
    exists []; by rewrite app_nil_r.
Qed.

(** ** Fail-fast specifications

    [m] adds auxiliary events only, and either every child process it ran
    exited with status zero or [m] ends in the [CalledProcessError] of the
    one that did not. *)
Definition failfast {A} (m : M W A) : Prop :=
  ∀ st, ∃ evs, trace (m st).2 = trace st ++ evs ∧
    Forall (λ e, is_aux e = true) evs ∧
    (Forall (λ e, exec_ok e = true) evs ∨
     ∃ rc c, (m st).1 = Raise (CalledProcessError rc c)).

Lemma failfast_quiet {A} (m : M W A) :
  emits (λ e, is_quiet e = true) m → failfast m.
Proof.
  intros Hm st. destruct (Hm st) as (evs & E & F).
  exists evs. split; [done|]. split.
  - eapply Forall_impl; [done|]. apply quiet_aux.
  - left. eapply Forall_impl; [done|]. apply quiet_exec_ok.
Qed.

Lemma failfast_bind {A B} (m : M W A) (k : A → M W B) :
  failfast m → (∀ a, failfast (k a)) → failfast (bind m k).
Proof.
  intros Hm Hk st. unfold bind.
  destruct (Hm st) as (evs1 & E1 & F1 & O1).
  destruct (m st) as [[a|e] st1]; simpl in *.
  - destruct O1 as [O1|(? & ? & ?)]; [|done].
    destruct (Hk a st1) as (evs2 & E2 & F2 & O2).
    exists (evs1 ++ evs2). rewrite E2, E1, (assoc_L (++)).
    split; [done|]. split; [by apply Forall_app|].
    destruct O2 as [O2|O2]; [left; by apply Forall_app|by right].
  - exists evs1. split_and!; [done..|].
    destruct O1 as [?|(rc & c & [= ->])]; [by left|right; eauto].
Qed.

Lemma failfast_run cmd cwd : failfast (run cmd cwd).
Proof.
  intros st. unfold run.
  destruct (spawn cmd cwd (world st) (fs st)) as [[[rc out] w'] f'].
  destruct (Z.eqb rc 0) eqn:Hrc; simpl.
  - exists [EvExec cmd cwd rc]. split; [done|]. split; [by repeat constructor|].
    left. repeat constructor. done.
  - exists [EvExec cmd cwd rc; EvLog ERROR (Failed cmd)].
    rewrite <- (assoc_L (++)). split; [done|]. split; [by repeat constructor|].
    right. eauto.
Qed.

Lemma failfast_for_each {A} (l : list A) (body : A → M W unit) :
  (∀ x, failfast (body x)) → failfast (for_each l body).
Proof.
  intros Hb. induction l as [|x l IH]; simpl.
  - apply failfast_quiet, emits_ret.
  - apply failfast_bind; auto.
Qed.

Lemma failfast_mrun cs cwd : failfast (mrun cs cwd).
Proof.
  apply failfast_for_each. intros c. apply failfast_bind; [apply failfast_run|].
  intros _. apply failfast_quiet, emits_ret.
Qed.

(** ** Frame specifications

    [m] takes the directory tree along the relation [R]. *)
Definition frames {A} (R : relation (gmap string FS.node)) (m : M W A) : Prop :=
  ∀ st, R (fs st) (fs (m st).2).

Section Frames.
Context (R : relation (gmap string FS.node)) `{!PreOrder R}.

Lemma frames_ret {A} (a : A) : frames R (ret a : M W A).
Proof. intros st. done. Qed.

Lemma frames_raise {A} e : frames R (raise e : M W A).
Proof. intros st. done. Qed.

Lemma frames_get_fs : frames R (get_fs : M W _).
Proof. intros st. done. Qed.

Lemma frames_emit e : frames R (emit e : M W _).
Proof. intros st. done. Qed.

Lemma frames_modify_fs g : (∀ f, R f (g f)) → frames R (modify_fs g : M W _).
Proof. intros Hg st. apply Hg. Qed.

Lemma frames_bind {A B} (m : M W A) (k : A → M W B) :
  frames R m → (∀ a, frames R (k a)) → frames R (bind m k).
Proof.
  intros Hm Hk st. unfold bind. specialize (Hm st).
  destruct (m st) as [[a|e] st1]; simpl in *; [|done].
  etrans; [done|]. apply Hk.
Qed.

Lemma frames_try {A} (m : M W A) sel h :
  frames R m → (∀ e, frames R (h e)) → frames R (try_except m sel h).
Proof.
  intros Hm Hh st. unfold try_except. specialize (Hm st).
  destruct (m st) as [[a|e] st1]; simpl in *; [done|].
  destruct (sel e); [|done]. etrans; [done|]. apply Hh.
Qed.

Lemma frames_for_each {A} (l : list A) (body : A → M W unit) :
  (∀ x, frames R (body x)) → frames R (for_each l body).
Proof.
  intros Hb. induction l as [|x l IH]; simpl.
  - apply frames_ret.
  - apply frames_bind; auto.
Qed.

Lemma frames_run cmd cwd :
  (∀ w f, R f (spawn cmd cwd w f).2) → frames R (run cmd cwd).
Proof.
  intros Hs st. unfold run. specialize (Hs (world st) (fs st)).
  destruct (spawn cmd cwd (world st) (fs st)) as [[[rc out] w'] f'].
  by destruct (Z.eqb rc 0).
Qed.

Lemma frames_host_call g e :
  (∀ w f w' f', g w f = Some (w', f') → R f f') → frames R (host_call g e : M W _).
Proof.
  intros Hg st. unfold host_call.
  destruct (g (world st) (fs st)) as [[w' f']|] eqn:E; simpl; [|done].
  eapply Hg, E.
Qed.

End Frames.

End TraceRules.

(** ** Paths *)

Lemma string_app_cons (x : ascii) (a b : string) :
  String x a +:+ b = String x (a +:+ b).
Proof. reflexivity. Qed.

Lemma string_app_assoc (a b c : string) : (a +:+ b) +:+ c = a +:+ (b +:+ c).
Proof. induction a as [|x a IH]; [done|]. by rewrite !string_app_cons, IH. Qed.

Lemma string_prefix_spec (u p : string) :
  String.prefix u p = true ↔ ∃ r, p = u +:+ r.
Proof.
  revert p. induction u as [|a u IH]; intros p.
  - split; [intros _; by exists p|intros _; by destruct p].
  - destruct p as [|b p]; cbn.
    + split; [done|]. by intros (r & ?).
    + destruct (ascii_dec a b) as [->|Hne].
      * rewrite IH. split; intros (r & Hr); exists r; [by rewrite Hr|].
        by injection Hr.
      * split; [done|]. intros (r & Hr). injection Hr as ??. done.
Qed.



Lemma inside_spec (x p : string) :
  FS.inside x p = true ↔ p = x ∨ ∃ r, p = x +:+ "/" +:+ r.
Proof.
  unfold FS.inside, FS.under. rewrite orb_true_iff, bool_decide_eq_true, string_prefix_spec.
  split; (intros [?|(r & Hr)]; [by left|right; exists r]).
  - by rewrite Hr, string_app_assoc.
  - by rewrite Hr, <- string_app_assoc.
Qed.

Lemma under_spec (d p : string) :
  FS.under d p = true ↔ ∃ r, p = d +:+ "/" +:+ r.
Proof.
  unfold FS.under. rewrite string_prefix_spec.
  split; intros (r & Hr); exists r.
  - by rewrite Hr, string_app_assoc.
  - by rewrite Hr, <- string_app_assoc.
Qed.

Lemma under_join (d x : string) : FS.under d (FS.join d x) = true.
Proof. apply under_spec. by exists x. Qed.

Lemma under_inside (d x p : string) :
  FS.under d x = true → FS.inside x p = true → FS.under d p = true.
Proof.
  intros (r & ->)%under_spec [->|(r' & ->)]%inside_spec; apply under_spec.
  - by exists r.
  - exists (r +:+ "/" +:+ r'). by rewrite !string_app_assoc.
Qed.

Lemma under_under (d x p : string) :
  FS.under d x = true → FS.under x p = true → FS.under d p = true.
Proof.
  intros Hx Hp. eapply under_inside; [done|].
  unfold FS.inside. by rewrite Hp, orb_true_r.
Qed.

Lemma inside_refl (x : string) : FS.inside x x = true.
Proof. unfold FS.inside. by rewrite bool_decide_eq_true_2. Qed.

(** The source and download directories do not reach into the install
    prefix. *)
Lemma repositories_apart cfg p :
  FS.under (dirs cfg "repositories") p = true →
  FS.under (dirs cfg "installed") p = false.
Proof.
  intros (r1 & Hr1)%under_spec. destruct (FS.under _ p) eqn:Hu; [|done].
  apply under_spec in Hu as (r2 & Hr2). exfalso. subst p.
  unfold dirs, FS.join in Hr2. rewrite !string_app_assoc in Hr2.
  apply (inj (String.app _)) in Hr2. cbv [String.append] in Hr2. done.
Qed.

Lemma working_apart cfg p :
  FS.under (dirs cfg "working") p = true →
  FS.under (dirs cfg "installed") p = false.
Proof.
  intros (r1 & Hr1)%under_spec. destruct (FS.under _ p) eqn:Hu; [|done].
  apply under_spec in Hu as (r2 & Hr2). exfalso. subst p.
  unfold dirs, FS.join in Hr2. rewrite !string_app_assoc in Hr2.
  apply (inj (String.app _)) in Hr2. cbv [String.append] in Hr2. done.
Qed.

(** ** Directory trees *)

(** [f'] has the entries of [f] everywhere below [d]. *)
Definition agree_below (d : string) : relation (gmap string FS.node) :=
  λ f f', ∀ p, FS.under d p = true → f' !! p = f !! p.

#[global] Instance agree_below_preorder d : PreOrder (agree_below d).
Proof.
  split.
  - by intros f p _.
  - intros f g h Hfg Hgh p Hp. by rewrite Hgh, Hfg.
Qed.

(** Whatever exists in [f] exists in [f']. *)
Definition keeps : relation (gmap string FS.node) :=
  λ f f', ∀ p, is_Some (f !! p) → is_Some (f' !! p).

#[global] Instance keeps_preorder : PreOrder keeps.
Proof.
  split.
  - by intros f p.
  - intros f g h Hfg Hgh p Hp. auto.
Qed.

Lemma rmtree_lookup_outside x f p :
  FS.inside x p = false → FS.rmtree x f !! p = f !! p.
Proof.
  intros Hp. unfold FS.rmtree. destruct (f !! p) as [v|] eqn:Hf.
  - by apply map_lookup_filter_Some_2.
  - apply map_lookup_filter_None. by left.
Qed.



Lemma reroot_inside src dst p q :
  FS.reroot src dst p = Some q → FS.inside dst q = true.
Proof.
  unfold FS.reroot. case_bool_decide.
  - intros [= <-]. apply inside_refl.
  - destruct (FS.strip_prefix _ p) as [r|]; [|done]. intros [= <-].
    apply inside_spec. right. by exists r.
Qed.

Lemma copytree_lookup_outside src dst f p :
  FS.inside dst p = false → FS.copytree src dst f !! p = f !! p.
Proof.
  intros Hp. unfold FS.copytree.
  induction (map_to_list f) as [|[k v] l IH]; [done|]. simpl.
  destruct (FS.reroot src dst k) as [q|] eqn:Hq; [|done].
  rewrite lookup_insert_ne; [done|].
  intros ->. apply reroot_inside in Hq. congruence.
Qed.

Lemma copytree_keeps src dst f : keeps f (FS.copytree src dst f).
Proof.
  intros p Hp. unfold FS.copytree.
  induction (map_to_list f) as [|[k v] l IH]; [done|]. simpl.
  destruct (FS.reroot src dst k) as [q|]; [|done].
  rewrite lookup_insert. case_decide; [done|by destruct (decide (q = p))].
Qed.

Lemma agree_rmtree d x f :
  (∀ p, FS.inside x p = true → FS.under d p = false) →
  agree_below d f (FS.rmtree x f).
Proof.
  intros Hx p Hp. apply rmtree_lookup_outside.
  destruct (FS.inside x p) eqn:Hi; [|done]. apply Hx in Hi. congruence.
Qed.

Lemma agree_copytree d src dst f :
  (∀ p, FS.inside dst p = true → FS.under d p = false) →
  agree_below d f (FS.copytree src dst f).
Proof.
  intros Hx p Hp. apply copytree_lookup_outside.
  destruct (FS.inside dst p) eqn:Hi; [|done]. apply Hx in Hi. congruence.
Qed.

Lemma agree_remove d x f :
  FS.under d x = false → agree_below d f (FS.remove x f).
Proof.
  intros Hx p Hp. unfold FS.remove. apply lookup_delete_ne. congruence.
Qed.

Lemma agree_write d x c f :
  FS.under d x = false → agree_below d f (FS.write x c f).
Proof.
  intros Hx p Hp. unfold FS.write. apply lookup_insert_ne. congruence.
Qed.

Lemma agree_makedirs d x f :
  FS.under d x = false → agree_below d f (FS.makedirs x f).
Proof.
  intros Hx p Hp. unfold FS.makedirs. destruct (f !! x); [done|].
  apply lookup_insert_ne. congruence.
Qed.

Lemma keeps_write x c f : keeps f (FS.write x c f).
Proof.
  intros p Hp. unfold FS.write. rewrite lookup_insert. by case_decide.
Qed.

(** ** The events of each part of the canonical orchestrator *)

Create HintDb emits.

Ltac emits_leaf :=
  first
    [ apply emits_ret | apply emits_raise | apply emits_get_fs | apply emits_modify_fs
    | apply emits_host_call | apply emits_host_environment
    | apply emits_emit; first [reflexivity | exact I]
    | apply emits_run; [intros ?|]; first [reflexivity | exact I]
    | solve [auto with emits]
    | solve [eapply emits_mono; [|solve [auto with emits]];
             intros [? []| | | |]; done] ].

Ltac emits_tac :=
  unfold logi, log_warning, log_error, when;
  repeat (lazy beta zeta;
          first
            [ emits_leaf
            | apply emits_bind; [|intros ?]
            | apply emits_try; [|intros ?]
            | apply emits_for_each; intros ?
            | match goal with
              | |- emits _ (if ?b then _ else _) => destruct b
              | |- emits _ (match ?x with _ => _ end) => destruct x
              end ]).

Section Alphabets.
Context {W : Type} `{Host W}.
Variable cfg : config.

Abbreviation quiet := (λ e, is_quiet e = true).
Abbreviation aux := (λ e, is_aux e = true).

Lemma emits_rmd d : emits (W:=W) quiet (rmd d).
Proof. unfold rmd. emits_tac. Qed.

Lemma emits_os_remove p : emits (W:=W) quiet (os_remove p).
Proof. unfold os_remove. emits_tac. Qed.

Lemma emits_shutil_rmtree p : emits (W:=W) quiet (shutil_rmtree p).
Proof. unfold shutil_rmtree. emits_tac. Qed.

Lemma emits_os_rmdir p : emits (W:=W) quiet (os_rmdir p).
Proof. unfold os_rmdir. emits_tac. Qed.

Lemma emits_shutil_copytree a b : emits (W:=W) quiet (shutil_copytree a b).
Proof. unfold shutil_copytree. emits_tac. Qed.

Lemma emits_shutil_move a b c : emits (W:=W) quiet (shutil_move a b c).
Proof. unfold shutil_move. emits_tac. Qed.

Lemma emits_shutil_copy a b : emits (W:=W) quiet (shutil_copy a b).
Proof. unfold shutil_copy. emits_tac. Qed.

Lemma emits_read_file p : emits (W:=W) quiet (read_file p).
Proof. unfold read_file. emits_tac. Qed.

Lemma emits_write_file p c : emits (W:=W) quiet (write_file p c).
Proof. unfold write_file. emits_tac. Qed.

Lemma emits_os_makedirs p : emits (W:=W) quiet (os_makedirs p).
Proof. unfold os_makedirs. emits_tac. Qed.

Lemma emits_os_listdir p : emits (W:=W) quiet (os_listdir p).
Proof. unfold os_listdir. emits_tac. Qed.

Hint Resolve emits_rmd emits_os_remove emits_shutil_rmtree emits_os_rmdir
  emits_shutil_copytree emits_shutil_move emits_shutil_copy emits_read_file
  emits_write_file emits_os_makedirs emits_os_listdir : emits.

Lemma emits_mrun cs cwd : emits (W:=W) aux (mrun cs cwd).
Proof. unfold mrun. emits_tac. Qed.

Lemma emits_git_sync u n d : emits (W:=W) aux (V2.git_sync cfg u n d).
Proof. unfold V2.git_sync. emits_tac. Qed.

Lemma emits_patch_pc path libs : emits (W:=W) quiet (V2.patch_pc cfg path libs).
Proof. unfold V2.patch_pc. emits_tac. Qed.

Lemma emits_remove_pkg n : emits (W:=W) quiet (V2.remove_pkg cfg n).
Proof. unfold V2.remove_pkg. emits_tac. Qed.

Lemma emits_download_attempts k url tar : emits (W:=W) quiet (V2.download_attempts k url tar).
Proof. induction k; simpl; emits_tac. Qed.

Hint Resolve emits_mrun emits_git_sync emits_patch_pc emits_remove_pkg
  emits_download_attempts : emits.

Lemma emits_download_with_retry url tar : emits (W:=W) quiet (V2.download_with_retry url tar).
Proof. unfold V2.download_with_retry. emits_tac. Qed.

Lemma emits_extract_tar f d : emits (W:=W) quiet (V2.extract_tar f d).
Proof. unfold V2.extract_tar. emits_tac. Qed.

Lemma emits_flatten_into root dest : emits (W:=W) quiet (V2.flatten_into root dest).
Proof. unfold V2.flatten_into. emits_tac. Qed.

Hint Resolve emits_download_with_retry emits_extract_tar emits_flatten_into : emits.

Lemma emits_acquire p : emits (W:=W) aux (V2.acquire cfg p).
Proof. unfold V2.acquire. emits_tac. Qed.

Lemma emits_integrity_check n : emits (W:=W) quiet (V2.integrity_check cfg n).
Proof. unfold V2.integrity_check. emits_tac. Qed.

Lemma emits_prepare p a b : emits (W:=W) quiet (V2.prepare cfg p a b).
Proof. unfold V2.prepare. emits_tac. Qed.

Lemma emits_dispatch p b : emits (W:=W) aux (V2.dispatch cfg p b).
Proof. unfold V2.dispatch. emits_tac. Qed.

Lemma emits_post_marker n : emits (W:=W) quiet (V2.post_marker cfg n).
Proof. unfold V2.post_marker. emits_tac. Qed.

Lemma emits_strip_binaries d : emits (W:=W) aux (V2.strip_binaries d).
Proof. unfold V2.strip_binaries. emits_tac. Qed.

Lemma emits_clean_bin d : emits (W:=W) quiet (V2.clean_bin d).
Proof. unfold V2.clean_bin. emits_tac. Qed.

End Alphabets.

(** ** Acquisition leaves the install prefix alone *)

(** What the properties about unchanged sources ask of the host: [git],
    downloads and archive extraction do not touch the install prefix. *)
Definition acquisition_frame {W} `{Host W} (cfg : config) : Prop :=
  (∀ cmd cwd w f, Py.startswith "git " cmd = true →
     agree_below (dirs cfg "installed") f (spawn cmd cwd w f).2) ∧
  (∀ url tar w f w' f', urlretrieve url tar w f = Some (w', f') →
     agree_below (dirs cfg "installed") f f') ∧
  (∀ a b w f w' f', extractall a b w f = Some (w', f') →
     agree_below (dirs cfg "installed") f f').

Create HintDb frames.

Ltac frames_leaf :=
  first
    [ apply frames_ret; apply _ | apply frames_raise; apply _
    | apply frames_get_fs; apply _ | apply frames_emit; apply _
    | solve [auto with frames] ].

Ltac frames_tac :=
  unfold logi, log_warning, log_error, when;
  repeat (lazy beta zeta;
          first
            [ frames_leaf
            | apply frames_bind; [apply _| |intros ?]
            | apply frames_try; [apply _| |intros ?]
            | apply frames_for_each; [apply _|intros ?]
            | match goal with
              | |- frames _ (if ?b then _ else _) => destruct b
              | |- frames _ (match ?x with _ => _ end) => destruct x
              end ]).

Section AcquisitionFrame.
Context {W : Type} `{Host W}.
Variable cfg : config.
Hypothesis host_ok : acquisition_frame cfg.

Abbreviation repos := (dirs cfg "repositories").
Abbreviation keep := (agree_below (dirs cfg "installed")).

Lemma apart_repos x p :
  FS.under repos x = true → FS.inside x p = true →
  FS.under (dirs cfg "installed") p = false.
Proof. intros Hx Hp. apply repositories_apart. by eapply under_inside. Qed.

Ltac repos_path :=
  first
    [ assumption
    | apply under_join
    | eapply under_under; [|apply under_join]; repos_path ].

Ltac frames_fs :=
  apply frames_modify_fs; intros ?;
  first
    [ apply agree_rmtree; intros ?; apply apart_repos; repos_path
    | apply agree_remove; apply repositories_apart; repos_path
    | etrans; [|apply agree_rmtree; intros ?; apply apart_repos; repos_path];
      apply agree_copytree; intros ?; apply apart_repos; repos_path ].

Lemma frames_git_run cmd cwd :
  Py.startswith "git " cmd = true → frames (W:=W) keep (run cmd cwd).
Proof.
  intros Hc. apply frames_run. intros w f.
  destruct host_ok as (Hg & _). by apply Hg.
Qed.

Lemma frames_git_sync u n d :
  FS.under repos d = true → frames (W:=W) keep (V2.git_sync cfg u n d).
Proof.
  intros Hd. unfold V2.git_sync. frames_tac.
  all: first [ frames_fs
             | apply frames_git_run; unfold V2.git_clone_cmd;
               try match goal with |- context [if ?b then _ else _] => destruct b end;
               reflexivity ].
Qed.

Lemma frames_download_attempts k url tar :
  frames (W:=W) keep (V2.download_attempts k url tar).
Proof.
  induction k; simpl; frames_tac.
  apply frames_host_call; [apply _|]. destruct host_ok as (_ & Hu & _). apply Hu.
Qed.

Lemma frames_acquire p : frames (W:=W) keep (V2.acquire cfg p).
Proof.
  pose proof (under_join repos (V2.pkg_n p)) as Hd.
  unfold V2.acquire. destruct (V2.pkg_u p) as [u|]; [by apply frames_git_sync|].
  frames_tac.
  all: first [ frames_fs
             | apply frames_download_attempts
             | apply frames_host_call; [apply _|];
               destruct host_ok as (_ & Hu & Hx); first [apply Hu | apply Hx] ].
Qed.

End AcquisitionFrame.

#[global] Hint Resolve emits_rmd emits_os_remove emits_shutil_rmtree emits_os_rmdir
  emits_shutil_copytree emits_shutil_move emits_shutil_copy emits_read_file
  emits_write_file emits_os_makedirs emits_os_listdir emits_mrun emits_git_sync
  emits_patch_pc emits_remove_pkg emits_download_attempts emits_download_with_retry
  emits_extract_tar emits_flatten_into emits_acquire emits_integrity_check
  emits_prepare emits_dispatch emits_post_marker emits_strip_binaries
  emits_clean_bin : emits.

Ltac failfast_tac :=
  unfold logi, log_warning, log_error, when;
  repeat (lazy beta zeta;
          first
            [ apply failfast_mrun
            | apply failfast_run
            | apply failfast_quiet; solve [auto with emits | emits_tac]
            | apply failfast_bind; [|intros ?]
            | apply failfast_for_each; intros ?
            | match goal with
              | |- failfast (if ?b then _ else _) => destruct b
              | |- failfast (match ?x with _ => _ end) => destruct x
              end ]).

(** ** The rebuild branch of the canonical variant *)

Section Rebuild.
Context {W : Type} `{Host W}.
Variable cfg : config.

Lemma failfast_dispatch p b : failfast (W:=W) (V2.dispatch cfg p b).
Proof. unfold V2.dispatch. failfast_tac. Qed.

Lemma failfast_build_steps p : failfast (W:=W) (V2.build_steps cfg p).
Proof.
  unfold V2.build_steps. lazy zeta.
  apply failfast_bind; [apply failfast_quiet; auto with emits|intros _].
  apply failfast_bind; [apply failfast_dispatch|intros _].
  apply failfast_quiet. emits_tac.
Qed.

Lemma frames_post_marker n : frames (W:=W) keeps (V2.post_marker cfg n).
Proof.
  unfold V2.post_marker. frames_tac.
  all: apply frames_modify_fs; intros ?; apply keeps_write.
Qed.

Lemma decisions_marked n evs1 evs2 :
  Forall (λ e, is_aux e = true) evs1 → Forall (λ e, is_quiet e = true) evs2 →
  decisions (evs1 ++ EvMarker n :: evs2) = [].
Proof.
  intros H1 H2. rewrite decisions_app, (decisions_aux evs1) by done.
  change (EvMarker n :: evs2) with ([EvMarker n] ++ evs2).
  rewrite decisions_app, (decisions_aux evs2); [done|].
  eapply Forall_impl; [done|]. apply quiet_aux.
Qed.

Lemma bind_inv {A B} (m : M W A) (k : A → M W B) st r st' :
  bind m k st = (r, st') →
  (∃ a st1, m st = (Ok a, st1) ∧ k a st1 = (r, st')) ∨
  (∃ e, m st = (Raise e, st') ∧ r = Raise e).
Proof.
  unfold bind. destruct (m st) as [[a|e] st1]; [left; eauto|].
  intros [= <- <-]. right; eauto.
Qed.

(** Where a rebuild can end: before the marker, with every child process
    so far successful or with the error of the one that failed; or past the
    marker, which then was written after successful child processes only. *)
Lemma rebuild_spec p st r st' :
  let n := V2.pkg_n p in
  V2.rebuild cfg p st = (r, st') →
  ∃ evs, trace st' = trace st ++ EvLog INFO (Building n) :: evs ∧
    (((∃ e, r = Raise e) ∧
      Forall (λ e, is_aux e = true) evs ∧
      (Forall (λ e, exec_ok e = true) evs ∨
       ∃ rc c, r = Raise (CalledProcessError rc c)))
     ∨
     (∃ evs1 evs2, evs = evs1 ++ EvMarker n :: evs2 ∧
        Forall (λ e, is_aux e = true) evs1 ∧
        Forall (λ e, exec_ok e = true) evs1 ∧
        Forall (λ e, is_quiet e = true) evs2 ∧
        (r = Ok tt → FS.exists_ (fs st') (marker_of cfg n) = true))).
Proof.
  intros n. unfold V2.rebuild. lazy zeta. fold n.
  intros [([] & st0 & [= <-] & Hrun)|(e & [=] & _)]%bind_inv.
  destruct (failfast_build_steps p
              (State (fs st) (world st) (trace st ++ [EvLog INFO (Building n)])))
    as (evs1 & E1 & F1 & O1).
  apply bind_inv in Hrun as [([] & st1 & Hb & Hrun)|(e & Hb & Hr)];
    rewrite Hb in E1, O1; simpl in E1, O1; rewrite <- (assoc_L (++)) in E1.
  2:{ subst r. exists evs1. split; [done|]. left. split_and!; [by eexists|done|].
      destruct O1 as [?|(rc & c & [= ->])]; [by left|right; eauto]. }
  destruct O1 as [O1|(? & ? & ?)]; [|done].
  apply bind_inv in Hrun as [([] & st2 & Hw & Hrun)|(e & Hw & Hr)].
  - destruct (emits_post_marker (W:=W) cfg n st2) as (evs2 & E2 & F2).
    pose proof (frames_post_marker n st2) as K2.
    rewrite Hrun in E2, K2. simpl in E2, K2.
    unfold V2.write_marker, write_file, bind, get_fs, modify_fs, emit, raise in Hw.
    simpl in Hw.
    assert (st2 = State (FS.write (marker_of cfg n) EmptyString (fs st1)) (world st1)
                    (trace st1 ++ [EvMarker n])) as ->.
    { destruct (fs st1 !! marker_of cfg n) as [[|]|]; by simplify_eq. }
    simpl in E2, K2.
    exists (evs1 ++ EvMarker n :: evs2). split.
    { rewrite E2, E1. by rewrite <- !(assoc_L (++)). }
    right. exists evs1, evs2. split_and!; [done..|].
    intros _. unfold FS.exists_.
    destruct (K2 (marker_of cfg n)) as [v ->]; [|done].
    unfold FS.write. rewrite lookup_insert_eq. by eexists.
  - unfold V2.write_marker, write_file, bind, get_fs, modify_fs, emit, raise in Hw.
    simpl in Hw.
    assert (st' = st1) as ->.
    { destruct (fs st1 !! marker_of cfg n) as [[|]|]; by simplify_eq. }
    subst r. exists evs1. split; [done|]. left. split_and!; [by eexists|done|by left].
Qed.

End Rebuild.

(** ** One iteration of the dependency loop *)

Section Step.
Context {W : Type} `{Host W}.
Variable cfg : config.

Lemma decide_and_build_inv p sc upd (st : state W) r st' :
  let n := V2.pkg_n p in
  V2.decide_and_build cfg p sc upd st = (r, st') →
  ∃ ri st1, V2.integrity_check cfg n st = (ri, st1) ∧
    match ri with
    | Raise e => r = Raise e ∧ st' = st1
    | Ok _ =>
        if V2.stale cfg p sc upd (fs st1) then
          ∃ rr, V2.rebuild cfg p st1 = (rr, st') ∧
                r = match rr with Ok _ => Ok ({[n]} ∪ upd) | Raise e => Raise e end
        else
          r = Ok upd ∧
          st' = State (fs st1) (world st1) (trace st1 ++ [EvLog INFO (Skipping n)])
    end.
Proof.
  intros n. unfold V2.decide_and_build. lazy zeta. fold n.
  intros [([] & st1 & Hi & Hrun)|(e & Hi & ->)]%bind_inv.
  2:{ by exists (Raise e), st'. }
  exists (Ok tt), st1. split; [done|].
  apply bind_inv in Hrun as [(f & st2 & [= <- <-] & Hrun)|(e & [=] & _)].
  destruct (V2.stale cfg p sc upd (fs st1)).
  - apply bind_inv in Hrun as [([] & st3 & Hr & [= <- <-])|(e & Hr & ->)];
      eexists; split; done.
  - unfold logi, emit, bind, ret in Hrun. by simplify_eq.
Qed.

Lemma dep_step_inv p upd (st : state W) r st' :
  let n := V2.pkg_n p in
  V2.dep_step cfg p upd st = (r, st') →
  ∃ ra st1, V2.acquire cfg p st = (ra, st1) ∧
    match ra with
    | Raise e => r = Raise e ∧ st' = st1
    | Ok sc =>
        V2.decide_and_build cfg p sc upd
          (State (fs st1) (world st1) (trace st1 ++ [EvSync n sc])) = (r, st')
    end.
Proof.
  intros n. unfold V2.dep_step.
  intros [(sc & st1 & Ha & Hrun)|(e & Ha & ->)]%bind_inv.
  2:{ by exists (Raise e), st'. }
  exists (Ok sc), st1. split; [done|].
  by apply bind_inv in Hrun as [([] & st2 & [= <-] & Hrun)|(e & [=] & _)].
Qed.

(** The integrity check either leaves the state alone, or deletes the
    marker of a package whose output file is gone, or fails on a marker
    that is no regular file. *)
Lemma integrity_check_inv n (st : state W) r st' :
  V2.integrity_check cfg n st = (r, st') →
  (r = Ok tt ∧ st' = st ∧
   (∀ path, V2.check_path cfg n = Some path →
      FS.exists_ (fs st) path = true ∨ FS.exists_ (fs st) (marker_of cfg n) = false))
  ∨ (∃ path, V2.check_path cfg n = Some path ∧ FS.exists_ (fs st) path = false ∧
       FS.isfile (fs st) (marker_of cfg n) = true ∧ r = Ok tt ∧
       st' = State (FS.remove (marker_of cfg n) (fs st)) (world st)
               (trace st ++ [EvLog INFO (ForcingRebuild n)]))
  ∨ (∃ path e, V2.check_path cfg n = Some path ∧ FS.exists_ (fs st) path = false ∧
       fs st !! marker_of cfg n = Some FS.Dir ∧ r = Raise e ∧ st' = st).
Proof.
  unfold V2.integrity_check. destruct (V2.check_path cfg n) as [path|].
  2:{ intros [= <- <-]. left. by split_and!. }
  unfold bind at 1, get_fs at 1. unfold FS.exists_, FS.isfile.
  destruct (fs st !! path) as [v|] eqn:Hp; simpl.
  { intros [= <- <-]. left. split_and!; [done..|]. intros ? [= <-]. left.
    unfold FS.exists_. by rewrite Hp. }
  unfold os_remove, bind, get_fs, modify_fs, logi, emit, raise, ret.
  destruct (fs st !! marker_of cfg n) as [[c|]|] eqn:Hm; simpl; rewrite ?Hm;
    intros [= <- <-].
  - right; left. exists path. by rewrite Hp.
  - right; right. exists path. eexists. by rewrite Hp.
  - left. split_and!; [done..|]. intros ? [= <-]. by right.
Qed.

(** What one iteration contributes to the decisions of a run. *)
Inductive step_shape (p : V2.package) (upd : gset string)
    : result (gset string) → list (string * bool) → Prop :=
| shape_abort e : step_shape p upd (Raise e) []
| shape_failed e : step_shape p upd (Raise e) [(V2.pkg_n p, true)]
| shape_rebuilt : step_shape p upd (Ok ({[V2.pkg_n p]} ∪ upd)) [(V2.pkg_n p, true)]
| shape_skipped :
    clean_mode cfg = false → V2.dep_changed p upd = false →
    step_shape p upd (Ok upd) [(V2.pkg_n p, false)].

Lemma rebuild_decisions p (st : state W) r st' :
  V2.rebuild cfg p st = (r, st') →
  ∃ evs, trace st' = trace st ++ evs ∧ decisions evs = [(V2.pkg_n p, true)].
Proof.
  intros (evs & E & Hs)%rebuild_spec. eexists. split; [done|].
  change (?x :: evs) with ([x] ++ evs). rewrite decisions_app.
  destruct Hs as [(_ & Fa & _)|(evs1 & evs2 & -> & F1 & _ & F2 & _)].
  - by rewrite (decisions_aux evs).
  - by rewrite decisions_marked.
Qed.

Lemma decide_and_build_decisions p sc upd (st : state W) r st' :
  V2.decide_and_build cfg p sc upd st = (r, st') →
  ∃ evs, trace st' = trace st ++ evs ∧ step_shape p upd r (decisions evs).
Proof.
  intros (ri & st1 & Hi & Hrest)%decide_and_build_inv.
  destruct (emits_integrity_check cfg (V2.pkg_n p) st) as (evs0 & E0 & F0).
  rewrite Hi in E0. simpl in E0.
  assert (decisions evs0 = []) as D0.
  { apply decisions_aux. eapply Forall_impl; [done|]. apply quiet_aux. }
  destruct ri as [[]|e].
  - destruct (V2.stale cfg p sc upd (fs st1)) eqn:Hst.
    + destruct Hrest as (rr & Hr & ->).
      apply rebuild_decisions in Hr as (evs1 & E1 & D1).
      exists (evs0 ++ evs1). rewrite E1, E0, (assoc_L (++)). split; [done|].
      rewrite decisions_app, D0, D1. simpl.
      destruct rr as [[]|e]; constructor.
    + destruct Hrest as (-> & ->). simpl.
      exists (evs0 ++ [EvLog INFO (Skipping (V2.pkg_n p))]).
      rewrite E0, (assoc_L (++)). split; [done|].
      rewrite decisions_app, D0. simpl.
      unfold V2.stale in Hst.
      apply orb_false_iff in Hst as [Hst ?].
      apply orb_false_iff in Hst as [Hst ?].
      apply orb_false_iff in Hst as [? ?].
      by constructor.
  - destruct Hrest as (-> & ->). exists evs0. split; [done|].
    rewrite D0. constructor.
Qed.

Lemma dep_step_decisions p upd (st : state W) r st' :
  V2.dep_step cfg p upd st = (r, st') →
  ∃ evs, trace st' = trace st ++ evs ∧ step_shape p upd r (decisions evs).
Proof.
  intros (ra & st1 & Ha & Hrest)%dep_step_inv.
  destruct (emits_acquire cfg p st) as (evs0 & E0 & F0).
  rewrite Ha in E0. simpl in E0.
  assert (decisions evs0 = []) as D0 by by apply decisions_aux.
  destruct ra as [sc|e].
  - apply decide_and_build_decisions in Hrest as (evs1 & E1 & S1). simpl in E1.
    exists (evs0 ++ EvSync (V2.pkg_n p) sc :: evs1).
    rewrite E1, E0, <- !(assoc_L (++)). split; [done|].
    change (?x :: evs1) with ([x] ++ evs1). by rewrite !decisions_app, D0.
  - destruct Hrest as (-> & ->). exists evs0. split; [done|].
    rewrite D0. constructor.
Qed.

(** What a run of the loop contributes. *)
Inductive loop_shape : list V2.package → gset string
    → result (gset string) → list (string * bool) → Prop :=
| loop_done upd : loop_shape [] upd (Ok upd) []
| loop_abort p ps upd e ds :
    step_shape p upd (Raise e) ds → loop_shape (p :: ps) upd (Raise e) ds
| loop_next p ps upd upd' r ds1 ds2 :
    step_shape p upd (Ok upd') ds1 → loop_shape ps upd' r ds2 →
    loop_shape (p :: ps) upd r (ds1 ++ ds2).

Lemma dependency_loop_decisions ps upd (st : state W) r st' :
  V2.dependency_loop cfg ps upd st = (r, st') →
  ∃ evs, trace st' = trace st ++ evs ∧ loop_shape ps upd r (decisions evs).
Proof.
  revert upd st. induction ps as [|p ps IH]; intros upd st; simpl.
  - intros [= <- <-]. exists []. rewrite app_nil_r. split; [done|]. constructor.
  - intros [(upd' & st1 & Hs & Hrun)|(e & Hs & ->)]%bind_inv.
    + apply dep_step_decisions in Hs as (evs1 & E1 & S1).
      apply IH in Hrun as (evs2 & E2 & S2).
      exists (evs1 ++ evs2). rewrite E2, E1, (assoc_L (++)). split; [done|].
      rewrite decisions_app. by econstructor.
    + apply dep_step_decisions in Hs as (evs1 & E1 & S1).
      exists evs1. split; [done|]. by constructor.
Qed.

End Step.

(** ** Decision sequences *)

Section Shapes.
Variable cfg : config.

Definition names (ps : list V2.package) : list string := V2.pkg_n <$> ps.

(** Every dependency of a package is declared before it; [seen] holds the
    names declared so far. *)
Fixpoint well_ordered (seen : list string) (ps : list V2.package) : bool :=
  match ps with
  | [] => true
  | p :: ps' =>
      forallb (λ d, bool_decide (d ∈ seen)) (V2.depends_on p)
      && well_ordered (V2.pkg_n p :: seen) ps'
  end.

Lemma step_shape_ok p upd upd' ds :
  step_shape cfg p upd (Ok upd') ds →
  upd ⊆ upd' ∧
  ((ds = [(V2.pkg_n p, true)] ∧ upd' = {[V2.pkg_n p]} ∪ upd) ∨
   (ds = [(V2.pkg_n p, false)] ∧ upd' = upd ∧ clean_mode cfg = false ∧
    V2.dep_changed p upd = false)).
Proof.
  inversion 1; subst.
  - split; [apply union_subseteq_r|by left].
  - split; [done|by right].
Qed.

Lemma step_shape_raise p upd e ds :
  step_shape cfg p upd (Raise e) ds → ds = [] ∨ ds = [(V2.pkg_n p, true)].
Proof. inversion 1; auto. Qed.

Lemma loop_shape_names ps upd r ds :
  loop_shape cfg ps upd r ds →
  (ds.*1 `prefix_of` names ps) ∧ (∀ upd', r = Ok upd' → ds.*1 = names ps).
Proof.
  induction 1 as [upd|p ps upd e ds Hs|p ps upd upd' r ds1 ds2 Hs Hl [IH1 IH2]].
  - split; [done|]. done.
  - split; [|done]. apply step_shape_raise in Hs as [->| ->].
    + apply prefix_nil.
    + simpl. by apply prefix_cons, prefix_nil.
  - apply step_shape_ok in Hs as [_ [[-> _]|[-> _]]]; simpl.
    all: split; [by apply prefix_cons|intros ? ->; f_equal; eauto].
Qed.

Lemma loop_shape_elem ps upd r ds n b :
  loop_shape cfg ps upd r ds → (n, b) ∈ ds → n ∈ names ps.
Proof.
  intros [Hp _]%loop_shape_names Hin.
  eapply elem_of_prefix; [|done]. apply list_elem_of_fmap. by exists (n, b).
Qed.

(** The decisions of a package list that is rebuilt in full. *)
Definition builds (ns : list string) : list (string * bool) := (λ n, (n, true)) <$> ns.


Lemma dep_changed_elem p upd d :
  d ∈ V2.depends_on p → d ∈ upd → V2.dep_changed p upd = true.
Proof.
  intros Hd Hu. unfold V2.dep_changed. apply existsb_exists.
  exists d. split; [by apply list_elem_of_In|by apply bool_decide_eq_true].
Qed.

(** Propagation: once a dependency of [P] has been rebuilt, [P] is not
    skipped, and it is rebuilt if the loop runs to its end. *)
Lemma loop_shape_propagate ps seen upd r ds :
  loop_shape cfg ps upd r ds →
  well_ordered seen ps = true → NoDup (seen ++ names ps) →
  ∀ P Q, P ∈ ps → Q ∈ V2.depends_on P → Q ∈ upd ∨ (Q, true) ∈ ds →
    ((V2.pkg_n P, false) ∉ ds) ∧ (∀ upd', r = Ok upd' → (V2.pkg_n P, true) ∈ ds).
Proof.
  intros Hl. revert seen.
  induction Hl as [upd|p ps upd e ds Hs|p ps upd upd' r ds1 ds2 Hs Hl IH];
    intros seen Hwo Hnd P Q HP HQ Hup.
  - by apply elem_of_nil in HP.
  - split; [|done]. apply step_shape_raise in Hs as [->| ->].
    + apply not_elem_of_nil.
    + intros [=]%list_elem_of_singleton.
  - simpl in Hwo. apply andb_true_iff in Hwo as [Hdeps Hwo].
    assert ((V2.pkg_n p ∉ names ps) ∧ NoDup ((V2.pkg_n p :: seen) ++ names ps)) as [Hp Hnd'].
    { simpl in Hnd. rewrite <- Permutation_middle in Hnd.
      apply NoDup_cons in Hnd as [Hnotin Hnd]. split; [|by constructor].
      intros ?. apply Hnotin, elem_of_app. by right. }
    assert (∀ b, (V2.pkg_n p, b) ∉ ds2) as Hp2.
    { intros b Hin. apply Hp. eapply loop_shape_elem; eauto. }
    destruct (step_shape_ok _ _ _ _ Hs) as [Hsub Hcase].
    apply elem_of_cons in HP as [->|HP].
    + (* the head: its dependencies were declared earlier *)
      assert (Q ∈ seen) as Hseen.
      { rewrite forallb_forall in Hdeps.
        eapply bool_decide_eq_true, Hdeps, list_elem_of_In, HQ. }
      assert (Q ∈ upd) as Hin.
      { destruct Hup as [?|Hin]; [done|]. exfalso.
        assert (Q ∈ names (p :: ps)) as HQn.
        { eapply loop_shape_elem; [|done]. by econstructor. }
        eapply NoDup_app in Hnd as (_ & Hdisj & _). by eapply Hdisj. }
      pose proof (dep_changed_elem _ _ _ HQ Hin) as Hdc.
      destruct Hcase as [[-> ->]|[-> (_ & _ & ?)]]; [|congruence].
      split.
      * intros [[=]%list_elem_of_singleton|?]%elem_of_app. by eapply Hp2.
      * intros _ _. apply elem_of_app. left. by apply list_elem_of_singleton.
    + (* a later package *)
      assert (V2.pkg_n P ≠ V2.pkg_n p) as Hne.
      { intros Heq. apply Hp. rewrite <- Heq. apply list_elem_of_fmap. eauto. }
      destruct (IH (V2.pkg_n p :: seen) Hwo Hnd' P Q HP HQ) as [IH1 IH2].
      { destruct Hup as [?|[Hin|?]%elem_of_app]; [left; by apply Hsub| |by right].
        left. destruct Hcase as [[-> ->]|[-> _]].
        - apply list_elem_of_singleton in Hin as [= ->].
          apply elem_of_union. left. by apply elem_of_singleton.
        - by apply list_elem_of_singleton in Hin. }
      split.
      * intros [Hin|?]%elem_of_app; [|done].
        destruct Hcase as [[-> _]|[-> _]];
          apply list_elem_of_singleton in Hin as [= ? ]; done.
      * intros upd'' ->. apply elem_of_app. right. eauto.
Qed.

End Shapes.

(** ** The top-level projects and the whole run *)

Section TopLevel.
Context {W : Type} `{Host W}.
Variable cfg : config.

Lemma emits_write_marker n : emits (W:=W) (λ e, is_silent e = true) (V2.write_marker cfg n).
Proof. unfold V2.write_marker. emits_tac. Qed.

(** What a top-level project contributes to the decisions of a run; it
    logs nothing when it is skipped. *)
Inductive top_shape (n : string) (forced : bool)
    : result unit → list (string * bool) → Prop :=
| top_abort e : top_shape n forced (Raise e) []
| top_failed e : top_shape n forced (Raise e) [(n, true)]
| top_built : top_shape n forced (Ok tt) [(n, true)]
| top_skipped : forced = false → top_shape n forced (Ok tt) [].

Lemma build_ffmpeg_decisions upd (st : state W) r st' :
  V2.build_ffmpeg cfg upd st = (r, st') →
  ∃ evs, trace st' = trace st ++ evs ∧
    top_shape "ffmpeg" (clean_mode cfg || negb (bool_decide (upd = ∅))) r (decisions evs).
Proof.
  unfold V2.build_ffmpeg. lazy zeta.
  intros [(ch & st1 & Hg & Hrun)|(e & Hg & ->)]%bind_inv.
  all: destruct (emits_git_sync cfg "https://git.ffmpeg.org/ffmpeg.git" "ffmpeg"
                   (FS.join (dirs cfg "repositories") "ffmpeg") st) as (evs0 & E0 & F0).
  all: rewrite Hg in E0; simpl in E0.
  all: pose proof (decisions_aux _ F0) as D0.
  2:{ exists evs0. split; [done|]. rewrite D0. constructor. }
  apply bind_inv in Hrun as [([] & st2 & [= <-] & Hrun)|(e & [=] & _)].
  apply bind_inv in Hrun as [(f & st3 & [= <- <-] & Hrun)|(e & [=] & _)].
  simpl in Hrun.
  destruct (clean_mode cfg || negb (FS.exists_ (fs st1) (marker_of cfg "ffmpeg")) || ch
            || negb (bool_decide (upd = ∅))) eqn:Hc.
  - apply bind_inv in Hrun as [([] & st4 & [= <-] & Hrun)|(e & [=] & _)].
    match type of Hrun with ?m ?s = _ =>
      assert (emits (λ e, is_silent e = true) m) as Hem by emits_tac;
      destruct (Hem s) as (evs1 & E1 & F1) end.
    rewrite Hrun in E1. simpl in E1.
    exists (evs0 ++ [EvSync "ffmpeg" ch] ++ [EvLog INFO (Building "ffmpeg")] ++ evs1).
    split; [by rewrite E1, E0, <- !(assoc_L (++))|].
    rewrite !decisions_app, D0, (decisions_silent evs1) by done. simpl.
    destruct r as [[]|e]; constructor.
  - injection Hrun as <- <-.
    exists (evs0 ++ [EvSync "ffmpeg" ch]). simpl.
    split; [by rewrite E0, <- !(assoc_L (++))|].
    rewrite !decisions_app, D0. simpl. constructor.
    apply orb_false_iff in Hc as [Hc ->].
    apply orb_false_iff in Hc as [Hc _].
    apply orb_false_iff in Hc as [-> _]. done.
Qed.

Lemma build_mpv_decisions upd (st : state W) r st' :
  V2.build_mpv cfg upd st = (r, st') →
  ∃ evs, trace st' = trace st ++ evs ∧
    top_shape "mpv" (clean_mode cfg || negb (bool_decide (upd = ∅)) || force_mpv cfg)
      r (decisions evs).
Proof.
  unfold V2.build_mpv. lazy zeta.
  intros [(ch & st1 & Hg & Hrun)|(e & Hg & ->)]%bind_inv.
  all: destruct (emits_git_sync cfg "https://github.com/mpv-player/mpv.git" "mpv"
                   (FS.join (dirs cfg "repositories") "mpv") st) as (evs0 & E0 & F0).
  all: rewrite Hg in E0; simpl in E0.
  all: pose proof (decisions_aux _ F0) as D0.
  2:{ exists evs0. split; [done|]. rewrite D0. constructor. }
  apply bind_inv in Hrun as [([] & st2 & [= <-] & Hrun)|(e & [=] & _)].
  apply bind_inv in Hrun as [(f & st3 & [= <- <-] & Hrun)|(e & [=] & _)].
  simpl in Hrun.
  destruct (clean_mode cfg || negb (FS.exists_ (fs st1) (marker_of cfg "mpv")) || ch
            || negb (bool_decide (upd = ∅)) || force_mpv cfg) eqn:Hc.
  - apply bind_inv in Hrun as [([] & st4 & Hsdl & Hrun)|(e & Hsdl & ->)].
    all: match type of Hsdl with ?m ?s = _ =>
      assert (emits (λ e, is_silent e = true) m) as Hes by emits_tac;
      destruct (Hes s) as (evs1 & E1 & F1) end.
    all: rewrite Hsdl in E1; simpl in E1.
    2:{ exists (evs0 ++ [EvSync "mpv" ch] ++ evs1).
        split; [by rewrite E1, E0, <- !(assoc_L (++))|].
        rewrite !decisions_app, D0, (decisions_silent evs1) by done. constructor. }
    apply bind_inv in Hrun as [([] & st5 & Hl & Hrun)|(e & [=] & _)].
    unfold logi, emit in Hl. injection Hl as <-.
    match type of Hrun with ?m ?s = _ =>
      assert (emits (λ e, is_silent e = true) m) as Hem by emits_tac;
      destruct (Hem s) as (evs2 & E2 & F2) end.
    rewrite Hrun in E2. simpl in E2.
    exists (evs0 ++ [EvSync "mpv" ch] ++ evs1 ++ [EvLog INFO (Building "mpv")] ++ evs2).
    split; [by rewrite E2, E1, E0, <- !(assoc_L (++))|].
    rewrite !decisions_app, D0, (decisions_silent evs1), (decisions_silent evs2) by done.
    simpl. destruct r as [[]|e]; constructor.
  - injection Hrun as <- <-.
    exists (evs0 ++ [EvSync "mpv" ch]). simpl.
    split; [by rewrite E0, <- !(assoc_L (++))|].
    rewrite !decisions_app, D0. simpl. constructor.
    apply orb_false_iff in Hc as [Hc ->].
    apply orb_false_iff in Hc as [Hc ->].
    apply orb_false_iff in Hc as [Hc _].
    apply orb_false_iff in Hc as [-> _]. done.
Qed.

(** The names of everything the orchestrator builds, in order. *)
Definition all_names : list string := names V2.deps ++ ["ffmpeg"; "mpv"].



End TopLevel.

(** ** Runs over an intact install prefix *)

(** A package is settled in a tree when its marker is there and the output
    file its integrity check looks for, if it has one, is there too. *)
Definition settled (cfg : config) (f : gmap string FS.node) (n : string) : Prop :=
  FS.exists_ f (marker_of cfg n) = true ∧
  ∀ path, V2.check_path cfg n = Some path → FS.exists_ f path = true.

(** The decisions of a package list that is skipped in full. *)
Definition skips (ns : list string) : list (string * bool) := (λ n, (n, false)) <$> ns.

Lemma under_marker cfg n : FS.under (dirs cfg "installed") (marker_of cfg n) = true.
Proof. apply under_join. Qed.

Lemma under_check_path cfg n path :
  V2.check_path cfg n = Some path → FS.under (dirs cfg "installed") path = true.
Proof.
  unfold V2.check_path. destruct (V2.check_info n) as [[a b]|]; [|done].
  intros [= <-]. unfold FS.join3. eapply under_under; apply under_join.
Qed.

Lemma agree_exists d f f' p :
  agree_below d f f' → FS.under d p = true → FS.exists_ f' p = FS.exists_ f p.
Proof. intros Ha Hp. unfold FS.exists_. by rewrite (Ha p Hp). Qed.

Lemma agree_isfile d f f' p :
  agree_below d f f' → FS.under d p = true → FS.isfile f' p = FS.isfile f p.
Proof. intros Ha Hp. unfold FS.isfile. by rewrite (Ha p Hp). Qed.

Lemma settled_agree cfg f f' n :
  agree_below (dirs cfg "installed") f f' → settled cfg f n → settled cfg f' n.
Proof.
  intros Ha [Hm Hc]. split.
  - by rewrite (agree_exists _ _ _ _ Ha (under_marker cfg n)).
  - intros path Hp. rewrite (agree_exists _ _ _ _ Ha (under_check_path _ _ _ Hp)). auto.
Qed.

Lemma dep_changed_empty p : V2.dep_changed p ∅ = false.
Proof.
  unfold V2.dep_changed. induction (V2.depends_on p) as [|d l IH]; [done|].
  simpl. by rewrite IH, bool_decide_eq_false_2.
Qed.

Section Settled.
Context {W : Type} `{Host W}.
Variable cfg : config.
Hypothesis host_ok : acquisition_frame cfg.
Hypothesis no_clean : clean_mode cfg = false.

Abbreviation inst := (dirs cfg "installed").

(** A settled package whose sources did not change and none of whose
    dependencies was rebuilt is skipped, and the install prefix stays as it
    is. *)
Lemma dep_step_settled p upd (st : state W) r st' :
  let n := V2.pkg_n p in
  V2.dep_changed p upd = false → settled cfg (fs st) n →
  V2.dep_step cfg p upd st = (r, st') →
  ∃ evs, trace st' = trace st ++ evs ∧
    (EvSync n true ∈ evs ∨
     (agree_below inst (fs st) (fs st') ∧
      (((∃ e, r = Raise e) ∧ decisions evs = []) ∨
       (r = Ok upd ∧ decisions evs = [(n, false)])))).
Proof.
  intros n Hdc Hs (ra & st1 & Ha & Hrest)%dep_step_inv. fold n in Hrest.
  destruct (emits_acquire cfg p st) as (evs0 & E0 & F0).
  pose proof (frames_acquire cfg host_ok p st) as K0.
  rewrite Ha in E0, K0. simpl in E0, K0.
  pose proof (decisions_aux _ F0) as D0.
  destruct ra as [sc|e].
  2:{ destruct Hrest as (-> & ->). exists evs0. split; [done|]. right.
      split; [done|]. left. split; [by eexists|done]. }
  destruct sc.
  { apply decide_and_build_decisions in Hrest as (evs1 & E1 & _). simpl in E1.
    exists (evs0 ++ [EvSync n true] ++ evs1).
    split; [by rewrite E1, E0, <- !(assoc_L (++))|]. left.
    apply elem_of_app. right. apply elem_of_app. left. by apply list_elem_of_singleton. }
  apply decide_and_build_inv in Hrest as (ri & st2 & Hi & Hrest). fold n in Hi, Hrest.
  pose proof (settled_agree _ _ _ _ K0 Hs) as [Hm Hc].
  apply integrity_check_inv in Hi as
    [(-> & -> & _)|[(path & Hp & Hx & _)|(path & e & Hp & Hx & _)]]; simpl in *.
  2,3: by rewrite (Hc _ Hp) in Hx.
  unfold V2.stale in Hrest. fold n in Hrest. simpl in Hrest.
  rewrite no_clean, Hm, Hdc in Hrest. simpl in Hrest. destruct Hrest as (-> & ->).
  exists (evs0 ++ [EvSync n false] ++ [EvLog INFO (Skipping n)]). simpl.
  split; [by rewrite E0, <- !(assoc_L (++))|]. right.
  split; [done|]. right. split; [done|].
  by rewrite !decisions_app, D0.
Qed.

Lemma dependency_loop_settled ps upd (st : state W) r st' :
  (∀ p, p ∈ ps → V2.dep_changed p upd = false ∧ settled cfg (fs st) (V2.pkg_n p)) →
  V2.dependency_loop cfg ps upd st = (r, st') →
  ∃ evs, trace st' = trace st ++ evs ∧
    ((∃ p, p ∈ ps ∧ EvSync (V2.pkg_n p) true ∈ evs) ∨
     (agree_below inst (fs st) (fs st') ∧
      (decisions evs `prefix_of` skips (names ps)) ∧
      (∀ upd', r = Ok upd' → upd' = upd ∧ decisions evs = skips (names ps)))).
Proof.
  revert st. induction ps as [|p ps IH]; intros st Hall; simpl.
  - intros [= <- <-]. exists []. rewrite app_nil_r. split; [done|]. right.
    split_and!; [done|done|]. by intros ? [= <-].
  - destruct (Hall p) as [Hdc Hs]; [by left|].
    intros [(upd' & st1 & Hstep & Hrun)|(e & Hstep & ->)]%bind_inv.
    all: apply dep_step_settled in Hstep as (evs1 & E1 & Hcase); [|done..].
    all: destruct Hcase as [Hch|(K1 & Hcase)].
    + apply dependency_loop_decisions in Hrun as (evs2 & E2 & _).
      exists (evs1 ++ evs2). split; [by rewrite E2, E1, (assoc_L (++))|]. left.
      exists p. split; [by left|]. apply elem_of_app. by left.
    + destruct Hcase as [((e & [=]) & _)|([= ->] & D1)].
      apply IH in Hrun as (evs2 & E2 & Hcase2).
      2:{ intros q Hq. destruct (Hall q) as [? ?]; [by right|].
          split; [done|]. by eapply settled_agree. }
      exists (evs1 ++ evs2). split; [by rewrite E2, E1, (assoc_L (++))|].
      destruct Hcase2 as [(q & Hq & Hin)|(K2 & P2 & Q2)].
      * left. exists q. split; [by right|]. apply elem_of_app. by right.
      * right. split; [by etrans|]. rewrite decisions_app, D1. simpl.
        split; [by apply prefix_cons|]. intros upd'' Hr.
        destruct (Q2 _ Hr) as [-> ->]. done.
    + exists evs1. split; [done|]. left. exists p. split; [by left|done].
    + exists evs1. split; [done|]. right. split; [done|].
      destruct Hcase as [(_ & ->)|([=] & _)]. split; [apply prefix_nil|done].
Qed.

End Settled.

Section SettledRun.
Context {W : Type} `{Host W}.
Variable cfg : config.
Hypothesis host_ok : acquisition_frame cfg.
Hypothesis no_clean : clean_mode cfg = false.

(** A top-level project whose marker is there, whose sources did not
    change and before which nothing was rebuilt is not built. *)
Lemma build_ffmpeg_settled (st : state W) r st' :
  FS.exists_ (fs st) (marker_of cfg "ffmpeg") = true →
  V2.build_ffmpeg cfg ∅ st = (r, st') →
  ∃ evs, trace st' = trace st ++ evs ∧
    (EvSync "ffmpeg" true ∈ evs ∨
     (agree_below (dirs cfg "installed") (fs st) (fs st') ∧ decisions evs = [])).
Proof.
  intros Hm. unfold V2.build_ffmpeg. lazy zeta.
  set (d := FS.join (dirs cfg "repositories") "ffmpeg").
  intros [(ch & st1 & Hg & Hrun)|(e & Hg & ->)]%bind_inv.
  all: destruct (emits_git_sync cfg "https://git.ffmpeg.org/ffmpeg.git" "ffmpeg" d st)
         as (evs0 & E0 & F0).
  all: pose proof (frames_git_sync cfg host_ok "https://git.ffmpeg.org/ffmpeg.git"
                     "ffmpeg" d (under_join _ _) st) as K0.
  all: rewrite Hg in E0, K0; simpl in E0, K0.
  all: pose proof (decisions_aux _ F0) as D0.
  2:{ exists evs0. split; [done|]. by right. }
  apply bind_inv in Hrun as [([] & st2 & [= <-] & Hrun)|(e & [=] & _)].
  apply bind_inv in Hrun as [(f & st3 & [= <- <-] & Hrun)|(e & [=] & _)].
  simpl in Hrun.
  destruct ch.
  { match type of Hrun with ?m ?s = _ =>
      assert (emits (λ _, True) m) as Hem by emits_tac;
      destruct (Hem s) as (evs1 & E1 & _) end.
    rewrite Hrun in E1. simpl in E1.
    exists (evs0 ++ [EvSync "ffmpeg" true] ++ evs1).
    split; [by rewrite E1, E0, <- !(assoc_L (++))|]. left.
    apply elem_of_app. right. apply elem_of_app. left. by apply list_elem_of_singleton. }
  rewrite no_clean, (agree_exists _ _ _ _ K0 (under_marker cfg "ffmpeg")), Hm in Hrun.
  rewrite bool_decide_eq_true_2 in Hrun by done. simpl in Hrun.
  injection Hrun as <- <-. exists (evs0 ++ [EvSync "ffmpeg" false]). simpl.
  split; [by rewrite E0, <- !(assoc_L (++))|]. right. split; [done|].
  by rewrite decisions_app, D0.
Qed.


Lemma build_mpv_settled (st : state W) r st' :
  force_mpv cfg = false →
  FS.exists_ (fs st) (marker_of cfg "mpv") = true →
  V2.build_mpv cfg ∅ st = (r, st') →
  ∃ evs, trace st' = trace st ++ evs ∧
    (EvSync "mpv" true ∈ evs ∨
     (agree_below (dirs cfg "installed") (fs st) (fs st') ∧ decisions evs = [])).
Proof.
  intros Hforce Hm. unfold V2.build_mpv. lazy zeta.
  set (d := FS.join (dirs cfg "repositories") "mpv").
  intros [(ch & st1 & Hg & Hrun)|(e & Hg & ->)]%bind_inv.
  all: destruct (emits_git_sync cfg "https://github.com/mpv-player/mpv.git" "mpv" d st)
         as (evs0 & E0 & F0).
  all: pose proof (frames_git_sync cfg host_ok "https://github.com/mpv-player/mpv.git"
                     "mpv" d (under_join _ _) st) as K0.
  all: rewrite Hg in E0, K0; simpl in E0, K0.
  all: pose proof (decisions_aux _ F0) as D0.
  2:{ exists evs0. split; [done|]. by right. }
  apply bind_inv in Hrun as [([] & st2 & [= <-] & Hrun)|(e & [=] & _)].
  apply bind_inv in Hrun as [(f & st3 & [= <- <-] & Hrun)|(e & [=] & _)].
  simpl in Hrun.
  destruct ch.
  { match type of Hrun with ?m ?s = _ =>
      assert (emits (λ _, True) m) as Hem by emits_tac;
      destruct (Hem s) as (evs1 & E1 & _) end.
    rewrite Hrun in E1. simpl in E1.
    exists (evs0 ++ [EvSync "mpv" true] ++ evs1).
    split; [by rewrite E1, E0, <- !(assoc_L (++))|]. left.
    apply elem_of_app. right. apply elem_of_app. left. by apply list_elem_of_singleton. }
  rewrite no_clean, Hforce, (agree_exists _ _ _ _ K0 (under_marker cfg "mpv")), Hm in Hrun.
  rewrite bool_decide_eq_true_2 in Hrun by done. simpl in Hrun.
  injection Hrun as <- <-. exists (evs0 ++ [EvSync "mpv" false]). simpl.
  split; [by rewrite E0, <- !(assoc_L (++))|]. right. split; [done|].
  by rewrite decisions_app, D0.
Qed.

(** The orchestrator over a settled prefix whose sources did not change:
    every package is skipped, neither project is built, and the install
    prefix is left as it was. *)
Lemma orchestrate_settled (st : state W) r st' :
  force_mpv cfg = false →
  (∀ p, p ∈ V2.deps → settled cfg (fs st) (V2.pkg_n p)) →
  FS.exists_ (fs st) (marker_of cfg "ffmpeg") = true →
  FS.exists_ (fs st) (marker_of cfg "mpv") = true →
  V2.orchestrate cfg st = (r, st') →
  ∃ evs, trace st' = trace st ++ evs ∧
    ((∃ n, EvSync n true ∈ evs) ∨
     (agree_below (dirs cfg "installed") (fs st) (fs st') ∧
      (decisions evs `prefix_of` skips (names V2.deps)) ∧
      (r = Ok tt → decisions evs = skips (names V2.deps)))).
Proof.
  intros Hforce Hall Hf Hm. unfold V2.orchestrate.
  intros [(upd & st1 & Hl & Hrun)|(e & Hl & ->)]%bind_inv.
  all: apply dependency_loop_settled in Hl as (evs1 & E1 & Hcase); [|done..| ].
  2,4: intros p Hp; split; [apply dep_changed_empty|by apply Hall].
  all: destruct Hcase as [(p & _ & Hin)|(K1 & P1 & Q1)].
  - apply bind_inv in Hrun as [([] & st2 & Hb & Hrun)|(e & Hb & ->)].
    all: apply build_ffmpeg_decisions in Hb as (evs2 & E2 & _).
    1: apply build_mpv_decisions in Hrun as (evs3 & E3 & _).
    1: exists (evs1 ++ evs2 ++ evs3); split;
         [by rewrite E3, E2, E1, <- !(assoc_L (++))|].
    2: exists (evs1 ++ evs2); split; [by rewrite E2, E1, <- !(assoc_L (++))|].
    all: left; eexists; apply elem_of_app; left; done.
  - destruct (Q1 _ eq_refl) as [-> D1].
    apply bind_inv in Hrun as [([] & st2 & Hb & Hrun)|(e & Hb & ->)].
    all: apply build_ffmpeg_settled in Hb as (evs2 & E2 & Hc2);
      [|by rewrite (agree_exists _ _ _ _ K1 (under_marker cfg "ffmpeg"))].
    all: destruct Hc2 as [Hin|(K2 & D2)].
    + apply build_mpv_decisions in Hrun as (evs3 & E3 & _).
      exists (evs1 ++ evs2 ++ evs3). split; [by rewrite E3, E2, E1, <- !(assoc_L (++))|].
      left. eexists. apply elem_of_app. right. apply elem_of_app. left. done.
    + apply build_mpv_settled in Hrun as (evs3 & E3 & Hc3); [|done|].
      2:{ rewrite (agree_exists _ _ _ _ K2 (under_marker cfg "mpv")).
          by rewrite (agree_exists _ _ _ _ K1 (under_marker cfg "mpv")). }
      exists (evs1 ++ evs2 ++ evs3). split; [by rewrite E3, E2, E1, <- !(assoc_L (++))|].
      destruct Hc3 as [Hin|(K3 & D3)].
      * left. eexists. apply elem_of_app. right. apply elem_of_app. right. done.
      * right. split; [by etrans; [|etrans]|].
        rewrite !decisions_app, D1, D2, D3, !app_nil_r. done.
    + exists (evs1 ++ evs2). split; [by rewrite E2, E1, <- !(assoc_L (++))|].
      left. eexists. apply elem_of_app. right. done.
    + exists (evs1 ++ evs2). split; [by rewrite E2, E1, <- !(assoc_L (++))|].
      right. split; [by etrans|]. rewrite !decisions_app, D1, D2, !app_nil_r. done.
  - exists evs1. split; [done|]. left. by eexists.
  - exists evs1. split; [done|]. right. done.
Qed.

End SettledRun.

(** ** A package whose output file is gone *)

Section Missing.
Context {W : Type} `{Host W}.
Variable cfg : config.
Hypothesis host_ok : acquisition_frame cfg.

Lemma dependency_loop_app l1 l2 upd (st : state W) r st' :
  V2.dependency_loop cfg (l1 ++ l2) upd st = (r, st') →
  (∃ e, V2.dependency_loop cfg l1 upd st = (Raise e, st') ∧ r = Raise e) ∨
  (∃ u st1, V2.dependency_loop cfg l1 upd st = (Ok u, st1) ∧
            V2.dependency_loop cfg l2 u st1 = (r, st')).
Proof.
  revert upd st. induction l1 as [|p l1 IH]; intros upd st; simpl.
  - intros Hrun. right. by exists upd, st.
  - unfold bind at 1. intros Hrun.
    destruct (V2.dep_step cfg p upd st) as [[u|e] st1] eqn:Hs.
    + apply IH in Hrun as [(e & Hl & ->)|(u' & st2 & Hl & Hrun)].
      * left. exists e. unfold bind. by rewrite Hs.
      * right. exists u', st2. unfold bind. by rewrite Hs.
    + injection Hrun as <- <-. left. exists e. unfold bind. by rewrite Hs.
Qed.

(** With its output file gone and its marker a regular file, a package
    that is reached is rebuilt. *)
Lemma dep_step_missing p upd (st : state W) r st' path :
  let n := V2.pkg_n p in
  V2.check_path cfg n = Some path →
  FS.exists_ (fs st) path = false →
  FS.isfile (fs st) (marker_of cfg n) = true →
  V2.dep_step cfg p upd st = (r, st') →
  ∃ evs, trace st' = trace st ++ evs ∧
    (((∃ e, r = Raise e) ∧ decisions evs = []) ∨ decisions evs = [(n, true)]).
Proof.
  intros n Hp Hx Hm (ra & st1 & Ha & Hrest)%dep_step_inv. fold n in Hrest.
  destruct (emits_acquire cfg p st) as (evs0 & E0 & F0).
  pose proof (frames_acquire cfg host_ok p st) as K0.
  rewrite Ha in E0, K0. simpl in E0, K0.
  pose proof (decisions_aux _ F0) as D0.
  destruct ra as [sc|e].
  2:{ destruct Hrest as (-> & ->). exists evs0. split; [done|]. left.
      split; [by eexists|done]. }
  rewrite <- (agree_exists _ _ _ _ K0 (under_check_path _ _ _ Hp)) in Hx.
  rewrite <- (agree_isfile _ _ _ _ K0 (under_marker cfg n)) in Hm.
  apply decide_and_build_inv in Hrest as (ri & st2 & Hi & Hrest). fold n in Hi, Hrest.
  apply integrity_check_inv in Hi as
    [(-> & -> & Hno)|[(path' & Hp' & _ & _ & -> & ->)|(path' & e & _ & _ & Hd & _)]];
    simpl in *.
  - exfalso. destruct (Hno _ Hp) as [Hy|Hy]; [congruence|].
    unfold FS.isfile in Hm. unfold FS.exists_ in Hy.
    by destruct (fs st1 !! marker_of cfg n) as [[]|].
  - unfold V2.stale in Hrest. fold n in Hrest. simpl in Hrest.
    replace (FS.exists_ (FS.remove (marker_of cfg n) (fs st1)) (marker_of cfg n))
      with false in Hrest
      by (unfold FS.exists_, FS.remove; by rewrite lookup_delete_eq).
    rewrite orb_true_r in Hrest. simpl in Hrest.
    destruct Hrest as (rr & Hr & ->).
    apply rebuild_decisions in Hr as (evs1 & E1 & D1). simpl in E1.
    exists (evs0 ++ [EvSync n sc] ++ [EvLog INFO (ForcingRebuild n)] ++ evs1).
    split; [by rewrite E1, E0, <- !(assoc_L (++))|]. right.
    by rewrite !decisions_app, D0, D1.
  - unfold FS.isfile in Hm. by rewrite Hd in Hm.
Qed.

End Missing.

(** ** The skip branch *)

Section Skip.
Context {W : Type} `{Host W}.
Variable cfg : config.

(** A package that is skipped went through the integrity check and the
    staleness predicate without any effect but its log line. *)
Lemma decide_and_build_skipped p sc upd (st : state W) r st' evs :
  let n := V2.pkg_n p in
  V2.decide_and_build cfg p sc upd st = (r, st') →
  trace st' = trace st ++ evs →
  (n, false) ∈ decisions evs →
  r = Ok upd ∧ fs st' = fs st ∧ world st' = world st ∧
  evs = [EvLog INFO (Skipping n)].
Proof.
  intros n Hrun E Hin.
  pose proof Hrun as (ri & st1 & Hi & Hrest)%decide_and_build_inv. fold n in Hi, Hrest.
  assert (∀ evs', trace st' = trace st ++ evs' → evs' = evs) as Huniq.
  { intros evs' E'. rewrite E in E'. by apply app_inv_head in E'. }
  destruct (emits_integrity_check cfg n st) as (evs0 & E0 & F0).
  rewrite Hi in E0. simpl in E0.
  assert (decisions evs0 = []) as D0.
  { apply decisions_aux. eapply Forall_impl; [done|]. apply quiet_aux. }
  destruct ri as [[]|e].
  2:{ destruct Hrest as (-> & ->). rewrite <- (Huniq _ E0), D0 in Hin.
      by apply elem_of_nil in Hin. }
  destruct (V2.stale cfg p sc upd (fs st1)) eqn:Hst.
  { destruct Hrest as (rr & Hr & ->).
    apply rebuild_decisions in Hr as (evs1 & E1 & D1).
    rewrite E0, <- (assoc_L (++)) in E1.
    rewrite <- (Huniq _ E1), decisions_app, D0, D1 in Hin.
    by apply list_elem_of_singleton in Hin. }
  destruct Hrest as (-> & ->). simpl in *.
  apply integrity_check_inv in Hi as
    [(_ & -> & _)|[(path & _ & _ & _ & _ & ->)|(path & e & _ & _ & _ & [=] & _)]].
  - split_and!; [done..|]. symmetry. by apply Huniq.
  - exfalso. unfold V2.stale in Hst. simpl in Hst. fold n in Hst.
    replace (FS.exists_ (FS.remove (marker_of cfg n) (fs st)) (marker_of cfg n))
      with false in Hst
      by (unfold FS.exists_, FS.remove; by rewrite lookup_delete_eq).
    by rewrite orb_true_r in Hst.
Qed.

End Skip.

(** ** Updates switched off *)

Section SkipUpdates.
Context {W : Type} `{Host W}.
Variable cfg : config.
Hypothesis skip : skip_updates cfg = true.


End SkipUpdates.

(** ** Patching a metadata file that is not there *)

Lemma patch_pc_missing {W} `{Host W} cfg path libs (st : state W) :
  FS.exists_ (fs st) path = false → V2.patch_pc cfg path libs st = (Ok tt, st).
Proof. intros Hx. unfold V2.patch_pc, bind, get_fs, ret. simpl. by rewrite Hx. Qed.

(** ** Directory listings *)





(** ** The final clean-up of [bin] *)

Section CleanBin.
Context {W : Type} `{Host W}.
Variable bin : string.






End CleanBin.

(** ** The start-up wipe and the whole script *)






Section Script.
Context {W : Type} `{Host W}.
Variable cfg : config.










End Script.

(** ** Metadata patching *)



Lemma replace_absent old new s :
  Py.contains old s = false → Py.replace old new s = s.
Proof.
  destruct old as [|a old].
  { intros Hc. exfalso. destruct s; by simpl in Hc. }
  unfold Py.replace. induction s as [|c s IH]; [done|].
  intros Hc. cbn [Py.contains] in Hc. apply orb_false_iff in Hc as [Hp Hc].
  cbn [Py.replace_go]. rewrite Hp. f_equal. by apply IH.
Qed.






(** ** The legacy loop *)

Lemma emits_inv {W} `{Host W} {A} (P : event → Prop) (m : M W A) st r st' :
  emits P m → m st = (r, st') → ∃ evs, trace st' = trace st ++ evs ∧ Forall P evs.
Proof. intros Hm Hrun. destruct (Hm st) as (evs & E & F). rewrite Hrun in E. eauto. Qed.

Section LegacyAlphabets.
Context {W : Type} `{Host W}.
Variable cfg : config.

Abbreviation quiet := (λ e, is_quiet e = true).
Abbreviation aux := (λ e, is_aux e = true).

Lemma emits_legacy_git_sync u n d : emits (W:=W) aux (Legacy.git_sync cfg u n d).
Proof. unfold Legacy.git_sync. emits_tac. Qed.

Lemma emits_legacy_patch_pc path libs : emits (W:=W) quiet (Legacy.patch_pc path libs).
Proof. unfold Legacy.patch_pc. emits_tac. Qed.

Lemma emits_legacy_create_pc a b c d e f :
  emits (W:=W) quiet (Legacy.create_pc cfg a b c d e f).
Proof. unfold Legacy.create_pc. emits_tac. Qed.

Lemma emits_legacy_clean_libs : emits (W:=W) quiet (Legacy.clean_libs cfg).
Proof. unfold Legacy.clean_libs. emits_tac. Qed.

Lemma emits_legacy_remove_pkg n : emits (W:=W) quiet (Legacy.remove_pkg cfg n).
Proof. unfold Legacy.remove_pkg. emits_tac. Qed.

Lemma emits_legacy_dump_meson_summary d :
  emits (W:=W) quiet (Legacy.dump_meson_summary d).
Proof. unfold Legacy.dump_meson_summary. emits_tac. Qed.

Lemma emits_legacy_extract_tar f d : emits (W:=W) quiet (Legacy.extract_tar f d).
Proof. unfold Legacy.extract_tar. emits_tac. Qed.

Lemma emits_legacy_download_first urls tar :
  emits (W:=W) quiet (Legacy.download_first urls tar).
Proof. induction urls; simpl; emits_tac. Qed.

Hint Resolve emits_legacy_git_sync emits_legacy_patch_pc emits_legacy_create_pc
  emits_legacy_clean_libs emits_legacy_remove_pkg emits_legacy_dump_meson_summary
  emits_legacy_extract_tar emits_legacy_download_first : emits.

Lemma emits_legacy_fetch_tarball d entry :
  emits (W:=W) quiet (Legacy.fetch_tarball cfg d entry).
Proof. destruct entry as [[[? ?] ?] ?]. unfold Legacy.fetch_tarball. emits_tac. Qed.

Hint Resolve emits_legacy_fetch_tarball : emits.

Lemma emits_legacy_acquire p : emits (W:=W) aux (Legacy.acquire cfg p).
Proof. unfold Legacy.acquire. emits_tac. Qed.

Lemma emits_legacy_corruption_check n c :
  emits (W:=W) quiet (Legacy.corruption_check cfg n c).
Proof. unfold Legacy.corruption_check. emits_tac. Qed.

Lemma emits_legacy_dispatch p b : emits (W:=W) aux (Legacy.dispatch cfg p b).
Proof. unfold Legacy.dispatch. emits_tac. Qed.

Lemma emits_legacy_fixups n : emits (W:=W) quiet (Legacy.fixups cfg n).
Proof. unfold Legacy.fixups. emits_tac. Qed.

Lemma emits_legacy_write_marker n :
  emits (W:=W) (λ e, is_silent e = true) (Legacy.write_marker cfg n).
Proof.
  unfold Legacy.write_marker. apply emits_bind; [|intros ?; by apply emits_emit].
  eapply emits_mono; [|apply emits_write_file]. by intros [? []| | | |].
Qed.

End LegacyAlphabets.

#[global] Hint Resolve emits_legacy_git_sync emits_legacy_patch_pc emits_legacy_create_pc
  emits_legacy_clean_libs emits_legacy_remove_pkg emits_legacy_dump_meson_summary
  emits_legacy_extract_tar emits_legacy_download_first emits_legacy_fetch_tarball
  emits_legacy_acquire emits_legacy_corruption_check emits_legacy_dispatch
  emits_legacy_fixups : emits.

(** What one iteration of the legacy loop contributes to the decisions of a
    run, from [deps_rebuilt] before to [deps_rebuilt] after. *)
Inductive legacy_step_shape (cfg : config) (p : Legacy.package) (flag : bool)
    : result bool → list (string * bool) → Prop :=
| legacy_abort e : legacy_step_shape cfg p flag (Raise e) []
| legacy_failed e : legacy_step_shape cfg p flag (Raise e) [(Legacy.pkg_n p, true)]
| legacy_rebuilt : legacy_step_shape cfg p flag (Ok true) [(Legacy.pkg_n p, true)]
| legacy_skipped r :
    flag = false → clean_mode cfg = false → (∀ b, r = Ok b → b = false) →
    legacy_step_shape cfg p flag r [(Legacy.pkg_n p, false)].

Inductive legacy_loop_shape (cfg : config) : list Legacy.package → bool
    → result bool → list (string * bool) → Prop :=
| legacy_done flag : legacy_loop_shape cfg [] flag (Ok flag) []
| legacy_stop p ps flag e ds :
    legacy_step_shape cfg p flag (Raise e) ds →
    legacy_loop_shape cfg (p :: ps) flag (Raise e) ds
| legacy_next p ps flag flag' r ds1 ds2 :
    legacy_step_shape cfg p flag (Ok flag') ds1 → legacy_loop_shape cfg ps flag' r ds2 →
    legacy_loop_shape cfg (p :: ps) flag r (ds1 ++ ds2).

Definition legacy_names (ps : list Legacy.package) : list string := Legacy.pkg_n <$> ps.

Section LegacyLoop.
Context {W : Type} `{Host W}.
Variable cfg : config.

Lemma legacy_rebuild_decisions p (st : state W) r st' :
  Legacy.rebuild cfg p st = (r, st') →
  ∃ evs, trace st' = trace st ++ evs ∧ decisions evs = [(Legacy.pkg_n p, true)].
Proof.
  unfold Legacy.rebuild. lazy zeta.
  intros [([] & st1 & Hl & Hrun)|(e & [=] & _)]%bind_inv.
  unfold logi, emit in Hl. injection Hl as <-.
  assert (emits (W:=W) (λ e, is_silent e = true)
            (Legacy.remove_pkg cfg (Legacy.pkg_n p) ;;
             rmd (FS.join (dirs cfg "working") (Legacy.pkg_n p)) ;;
             shutil_copytree (FS.join (dirs cfg "repositories") (Legacy.pkg_n p))
               (FS.join (dirs cfg "working") (Legacy.pkg_n p)) ;;
             Legacy.dispatch cfg p (FS.join (dirs cfg "working") (Legacy.pkg_n p)) ;;
             Legacy.clean_libs cfg ;;
             Legacy.write_marker cfg (Legacy.pkg_n p))) as Hem.
  { pose proof (emits_legacy_write_marker (W:=W) cfg (Legacy.pkg_n p)). emits_tac. }
  eapply emits_inv in Hrun as (evs & E & F); [|exact Hem]. simpl in E.
  exists (EvLog INFO (Building (Legacy.pkg_n p)) :: evs).
  split; [by rewrite E, <- (assoc_L (++))|].
  change (?x :: evs) with ([x] ++ evs). by rewrite decisions_app, (decisions_silent evs).
Qed.

Lemma legacy_dep_step_decisions p flag (st : state W) r st' :
  Legacy.dep_step cfg p flag st = (r, st') →
  ∃ evs, trace st' = trace st ++ evs ∧ legacy_step_shape cfg p flag r (decisions evs).
Proof.
  unfold Legacy.dep_step. lazy zeta.
  intros [(c0 & st1 & Ha & Hrun)|(e & Ha & ->)]%bind_inv;
    eapply emits_inv in Ha as (evs0 & E0 & F0%decisions_aux); try apply emits_legacy_acquire.
  2:{ exists evs0. split; [done|]. rewrite F0. constructor. }
  apply bind_inv in Hrun as [(c1 & st2 & Hc & Hrun)|(e & Hc & ->)];
    eapply emits_inv in Hc as (evs1 & E1 & F1); try apply emits_legacy_corruption_check.
  all: assert (decisions evs1 = []) as D1
    by (apply decisions_aux; eapply Forall_impl; [done|]; apply quiet_aux).
  2:{ exists (evs0 ++ evs1). split; [by rewrite E1, E0, (assoc_L (++))|].
      rewrite decisions_app, F0, D1. constructor. }
  apply bind_inv in Hrun as [(f & st3 & [= <- <-] & Hrun)|(e & [=] & _)].
  assert (∀ (rf : result unit) (b : bool) ds stf evsd,
            trace stf = trace st2 ++ evsd → decisions evsd = ds →
            Legacy.fixups cfg (Legacy.pkg_n p) stf = (rf, st') →
            r = match rf with Ok _ => Ok b | Raise e => Raise e end →
            ∃ evs, trace st' = trace st ++ evs ∧ decisions evs = ds) as Hfix.
  { intros rf b ds stf evsd Ed Dd Hf _.
    eapply emits_inv in Hf as (evs2 & E2 & F2); [|apply emits_legacy_fixups].
    exists (evs0 ++ evs1 ++ evsd ++ evs2).
    split; [by rewrite E2, Ed, E1, E0, <- !(assoc_L (++))|].
    rewrite !decisions_app, F0, D1, Dd. simpl.
    rewrite (decisions_aux evs2); [by rewrite app_nil_r|].
    eapply Forall_impl; [done|]. apply quiet_aux. }
  destruct (Legacy.stale cfg (Legacy.pkg_n p) (if flag then true else c1) (fs st2)) eqn:Hst.
  - apply bind_inv in Hrun as [(b & st4 & Hb & Hrun)|(e & Hb & ->)].
    + apply bind_inv in Hb as [([] & st5 & Hr & [= <- <-])|(e & Hr & [=])].
      apply legacy_rebuild_decisions in Hr as (evsd & Ed & Dd).
      apply bind_inv in Hrun as [([] & st6 & Hf & [= <- <-])|(e & Hf & ->)].
      * destruct (Hfix (Ok tt) true _ _ _ Ed Dd Hf eq_refl) as (evs & E & D).
        exists evs. split; [done|]. rewrite D. constructor.
      * destruct (Hfix (Raise e) true _ _ _ Ed Dd Hf eq_refl) as (evs & E & D).
        exists evs. split; [done|]. rewrite D. constructor.
    + apply bind_inv in Hb as [([] & st5 & Hr & [=])|(e' & Hr & [= <-])].
      apply legacy_rebuild_decisions in Hr as (evsd & Ed & Dd).
      exists (evs0 ++ evs1 ++ evsd). split; [by rewrite Ed, E1, E0, <- !(assoc_L (++))|].
      rewrite !decisions_app, F0, D1, Dd. constructor.
  - unfold Legacy.stale in Hst.
    apply orb_false_iff in Hst as [Hst Hch].
    apply orb_false_iff in Hst as [Hcl _].
    assert (flag = false) as -> by by destruct flag.
    apply bind_inv in Hrun as [(b & st4 & Hb & Hrun)|(e & Hb & ->)].
    2:{ unfold logi, emit, bind, ret in Hb. done. }
    unfold logi, emit, bind, ret in Hb. injection Hb as <- <-.
    assert (trace (State (fs st2) (world st2)
                     (trace st2 ++ [EvLog INFO (Skipping (Legacy.pkg_n p))]))
            = trace st2 ++ [EvLog INFO (Skipping (Legacy.pkg_n p))]) as Ed by done.
    apply bind_inv in Hrun as [([] & st6 & Hf & [= <- <-])|(e & Hf & ->)].
    + destruct (Hfix (Ok tt) false _ _ _ Ed eq_refl Hf eq_refl) as (evs & E & D).
      exists evs. split; [done|]. rewrite D. constructor; [done..|]. by intros ? [= <-].
    + destruct (Hfix (Raise e) false _ _ _ Ed eq_refl Hf eq_refl) as (evs & E & D).
      exists evs. split; [done|]. rewrite D. by constructor.
Qed.

Lemma legacy_loop_decisions ps flag (st : state W) r st' :
  Legacy.dependency_loop cfg ps flag st = (r, st') →
  ∃ evs, trace st' = trace st ++ evs ∧ legacy_loop_shape cfg ps flag r (decisions evs).
Proof.
  revert flag st. induction ps as [|p ps IH]; intros flag st; simpl.
  - intros [= <- <-]. exists []. rewrite app_nil_r. split; [done|]. constructor.
  - intros [(flag' & st1 & Hs & Hrun)|(e & Hs & ->)]%bind_inv.
    + apply legacy_dep_step_decisions in Hs as (evs1 & E1 & S1).
      apply IH in Hrun as (evs2 & E2 & S2).
      exists (evs1 ++ evs2). rewrite E2, E1, (assoc_L (++)). split; [done|].
      rewrite decisions_app. by econstructor.
    + apply legacy_dep_step_decisions in Hs as (evs1 & E1 & S1).
      exists evs1. split; [done|]. by constructor.
Qed.

End LegacyLoop.

Lemma legacy_step_shape_names cfg p flag r ds n b :
  legacy_step_shape cfg p flag r ds → (n, b) ∈ ds → n = Legacy.pkg_n p.
Proof.
  intros [] Hin; try by apply elem_of_nil in Hin.
  all: by apply list_elem_of_singleton in Hin as [= -> _].
Qed.

Lemma legacy_loop_shape_names cfg ps flag r ds n b :
  legacy_loop_shape cfg ps flag r ds → (n, b) ∈ ds → n ∈ legacy_names ps.
Proof.
  induction 1 as [|p ps flag e ds S|p ps flag flag' r ds1 ds2 S L IH]; intros Hin.
  - by apply elem_of_nil in Hin.
  - apply (legacy_step_shape_names _ _ _ _ _ _ _ S) in Hin as ->. apply list_elem_of_here.
  - apply elem_of_app in Hin as [Hin|Hin].
    + apply (legacy_step_shape_names _ _ _ _ _ _ _ S) in Hin as ->. apply list_elem_of_here.
    + apply list_elem_of_further. auto.
Qed.

(** Once [deps_rebuilt] is set, every package reached is rebuilt. *)
Lemma legacy_loop_shape_set cfg ps r ds :
  legacy_loop_shape cfg ps true r ds →
  (∀ n, (n, false) ∉ ds) ∧ (∀ b, r = Ok b → ds = builds (legacy_names ps)).
Proof.
  remember true as flag eqn:Hf. induction 1 as [|p ps flag e ds S|p ps flag flag' r ds1 ds2 S L IH].
  - split; [intros n Hin; by apply elem_of_nil in Hin|done].
  - subst. split; [|done]. intros n Hin. inversion S; subst; try done.
    + by apply elem_of_nil in Hin.
    + by apply list_elem_of_singleton in Hin.
  - subst. inversion S; subst; try done.
    destruct (IH eq_refl) as [IH1 IH2]. split.
    + intros n [Hin|Hin]%elem_of_app; [by apply list_elem_of_singleton in Hin|].
      by apply (IH1 n).
    + intros b Hb. simpl. f_equal. eauto.
Qed.

(** List-order propagation: a package declared after a rebuilt one is never
    skipped, and is rebuilt when the loop runs to its end. *)
Lemma legacy_loop_shape_propagate cfg ps flag r ds :
  legacy_loop_shape cfg ps flag r ds → NoDup (legacy_names ps) →
  ∀ l1 Q l2 P, ps = l1 ++ Q :: l2 → P ∈ l2 → (Legacy.pkg_n Q, true) ∈ ds →
    ((Legacy.pkg_n P, false) ∉ ds) ∧ (∀ b, r = Ok b → (Legacy.pkg_n P, true) ∈ ds).
Proof.
  induction 1 as [|p ps flag e ds S|p ps flag flag' r ds1 ds2 S L IH];
    intros Hnd l1 Q l2 P Eps HP HQ.
  - by destruct l1.
  - split; [|done]. intros Hin.
    apply (legacy_step_shape_names _ _ _ _ _ _ _ S) in Hin.
    apply (legacy_step_shape_names _ _ _ _ _ _ _ S) in HQ.
    apply NoDup_cons in Hnd as [Hnd _]. apply Hnd.
    destruct l1 as [|x l1]; injection Eps as -> ->.
    + rewrite <- Hin. unfold legacy_names. by apply list_elem_of_fmap_2.
    + exfalso. apply Hnd. rewrite <- HQ. unfold legacy_names.
      apply list_elem_of_fmap_2. apply elem_of_app. right. apply list_elem_of_here.
  - apply NoDup_cons in Hnd as [Hp Hnd].
    assert (P ∈ ps → ((Legacy.pkg_n P, false) ∉ ds1) ∧ ((Legacy.pkg_n P, true) ∉ ds1)) as Hds1.
    { intros HPps. split; intros Hin;
        apply (legacy_step_shape_names _ _ _ _ _ _ _ S) in Hin;
        apply Hp; rewrite <- Hin; by apply list_elem_of_fmap_2. }
    destruct l1 as [|x l1]; injection Eps as -> ->.
    + apply elem_of_app in HQ as [HQ|HQ].
      2:{ exfalso. by apply legacy_loop_shape_names with (n := Legacy.pkg_n Q) (b := true)
                        in L. }
      assert (flag' = true) as ->.
      { inversion S; subst; [done|]. by apply list_elem_of_singleton in HQ. }
      apply legacy_loop_shape_set in L as [L1 L2].
      destruct (Hds1 HP) as [Hf _]. split.
      * intros [Hin|Hin]%elem_of_app; [done|]. by apply (L1 (Legacy.pkg_n P)).
      * intros b Hb. apply elem_of_app. right. rewrite (L2 b Hb).
        unfold builds, legacy_names. rewrite <- list_fmap_compose.
        by apply (list_elem_of_fmap_2 (λ p, (Legacy.pkg_n p, true))).
    + assert (P ∈ l1 ++ Q :: l2) as HPps.
      { apply elem_of_app. right. by apply list_elem_of_further. }
      destruct (Hds1 HPps) as [Hf Ht].
      apply elem_of_app in HQ as [HQ|HQ].
      { exfalso. apply (legacy_step_shape_names _ _ _ _ _ _ _ S) in HQ.
        apply Hp. rewrite <- HQ. unfold legacy_names.
        apply list_elem_of_fmap_2. apply elem_of_app. right. apply list_elem_of_here. }
      destruct (IH Hnd l1 Q l2 P eq_refl HP HQ) as [I1 I2]. split.
      * intros [Hin|Hin]%elem_of_app; done.
      * intros b Hb. apply elem_of_app. right. eauto.
Qed.

(** ** Rebuilt packages *)

Lemma elem_of_rebuilt n evs : n ∈ rebuilt evs ↔ (n, true) ∈ decisions evs.
Proof.
  unfold rebuilt. rewrite list_elem_of_omap. split.
  - intros ([m b] & Hin & Hs). simpl in Hs. destruct b; [|done]. by injection Hs as ->.
  - intros Hin. by exists (n, true).
Qed.

Lemma rebuilt_skips ns : omap (λ d : string * bool, if d.2 then Some d.1 else None)
                           (skips ns) = [].
Proof. by induction ns. Qed.

(** ** A skipped package and the install prefix *)

Section SkipFrame.
Context {W : Type} `{Host W}.
Variable cfg : config.
Hypothesis host_ok : acquisition_frame cfg.

(** An iteration that ends in the skip branch is the acquisition followed
    by the log line, and the acquisition leaves the install prefix alone. *)
Lemma dep_step_skipped p upd (st : state W) r st' :
  let n := V2.pkg_n p in
  V2.dep_step cfg p upd st = (r, st') →
  (n, false) ∈ decisions (new_events st st') →
  r = Ok upd ∧
  agree_below (dirs cfg "installed") (fs st) (fs st') ∧
  ∃ sc st1, V2.acquire cfg p st = (Ok sc, st1) ∧
    st' = State (fs st1) (world st1)
            (trace st1 ++ [EvSync n sc; EvLog INFO (Skipping n)]).
Proof.
  intros n (ra & st1 & Ha & Hrest)%dep_step_inv Hin. fold n in Hrest.
  destruct (emits_acquire cfg p st) as (evs0 & E0 & F0).
  pose proof (frames_acquire cfg host_ok p st) as K0.
  rewrite Ha in E0, K0. simpl in E0, K0.
  pose proof (decisions_aux _ F0) as D0.
  destruct ra as [sc|e].
  2:{ destruct Hrest as (-> & ->). rewrite (new_events_app _ _ _ E0), D0 in Hin.
      by apply elem_of_nil in Hin. }
  pose proof Hrest as (evs1 & E1 & _)%decide_and_build_decisions. simpl in E1.
  assert (new_events st st' = evs0 ++ [EvSync n sc] ++ evs1) as En.
  { apply new_events_app. by rewrite E1, E0, <- !(assoc_L (++)). }
  rewrite En, !decisions_app, D0 in Hin. simpl in Hin.
  destruct (decide_and_build_skipped cfg p sc upd _ r st' evs1 Hrest E1 Hin)
    as (-> & Hfs & Hw & ->).
  simpl in Hfs, Hw. split; [done|]. split; [by rewrite Hfs|].
  exists sc, st1. split; [done|]. destruct st' as [f' w' t']. simpl in *.
  by rewrite Hfs, Hw, E1, <- (assoc_L (++)).
Qed.

End SkipFrame.

(** ** A package without its source tree, updates switched off *)

Section SkipUpdatesStep.
Context {W : Type} `{Host W}.
Variable cfg : config.
Hypothesis skip : skip_updates cfg = true.
Hypothesis no_clean : clean_mode cfg = false.


End SkipUpdatesStep.

(** ** The loop up to a package whose output file is gone *)

Section MissingRun.
Context {W : Type} `{Host W}.
Variable cfg : config.
Hypothesis host_ok : acquisition_frame cfg.
Hypothesis no_clean : clean_mode cfg = false.

Lemma dependency_loop_missing l1 p l2 (st : state W) r st' path :
  let n := V2.pkg_n p in
  (∀ q, q ∈ l1 → settled cfg (fs st) (V2.pkg_n q)) →
  V2.check_path cfg n = Some path →
  FS.exists_ (fs st) path = false →
  FS.isfile (fs st) (marker_of cfg n) = true →
  V2.dependency_loop cfg (l1 ++ p :: l2) ∅ st = (r, st') →
  (∀ q, q ∈ l1 → EvSync (V2.pkg_n q) true ∉ new_events st st') →
  let ds := decisions (new_events st st') in
  ((ds `prefix_of` skips (names l1)) ∧ ∃ e, r = Raise e) ∨
  (∃ ds2, ds = skips (names l1) ++ (n, true) :: ds2 ∧
          ∀ m b, (m, b) ∈ ds2 → m ∈ names l2).
Proof.
  intros n Hall Hp Hx Hm Hrun Hsync ds. subst ds.
  apply dependency_loop_app in Hrun as [(e & Hl & ->)|(u & st1 & Hl & Hrun)].
  - apply (dependency_loop_settled cfg host_ok no_clean) in Hl as (evs & E & Hcase).
    2:{ intros q Hq. split; [apply dep_changed_empty|auto]. }
    rewrite (new_events_app _ _ _ E) in Hsync |- *.
    destruct Hcase as [(q & Hq & Hin)|(_ & P & _)]; [by destruct (Hsync q Hq)|].
    left. split; [done|by eexists].
  - pose proof Hl as (evs1 & E1 & Hcase)%(dependency_loop_settled cfg host_ok no_clean).
    2:{ intros q Hq. split; [apply dep_changed_empty|auto]. }
    simpl in Hrun.
    apply bind_inv in Hrun as [(u' & st2 & Hs & Hrun)|(e & Hs & ->)].
    + pose proof Hrun as (evs3 & E3 & S3)%dependency_loop_decisions.
      assert (trace st' = trace st ++ evs1 ++ drop (length (trace st1)) (trace st'))
        as Et.
      { rewrite E3. destruct (emits_acquire cfg p st1) as (? & _ & _).
        apply dep_step_decisions in Hs as (evs2 & E2 & _).
        rewrite E2, E1, <- !(assoc_L (++)). f_equal. f_equal.
        rewrite (assoc_L (++)), drop_app_length'; [done|].
        by rewrite length_app. }
      destruct Hcase as [(q & Hq & Hin)|(K1 & _ & Q1)].
      { destruct (Hsync q Hq). rewrite (new_events_app _ _ _ Et).
        apply elem_of_app. by left. }
      destruct (Q1 u eq_refl) as [-> D1].
      rewrite <- (agree_exists _ _ _ _ K1 (under_check_path _ _ _ Hp)) in Hx.
      rewrite <- (agree_isfile _ _ _ _ K1 (under_marker cfg n)) in Hm.
      apply (dep_step_missing cfg host_ok p ∅ st1 _ _ path Hp Hx Hm) in Hs
        as (evs2 & E2 & [((e & [=]) & _)|D2]).
      right. exists (decisions evs3). split.
      * rewrite (new_events_app st st' (evs1 ++ evs2 ++ evs3)).
        2:{ by rewrite E3, E2, E1, <- !(assoc_L (++)). }
        by rewrite !decisions_app, D1, D2.
      * intros m b Hin. by eapply loop_shape_elem.
    + destruct Hcase as [(q & Hq & Hin)|(K1 & _ & Q1)].
      { apply dep_step_decisions in Hs as (evs2 & E2 & _).
        destruct (Hsync q Hq). rewrite (new_events_app st st' (evs1 ++ evs2)).
        2:{ by rewrite E2, E1, <- !(assoc_L (++)). }
        apply elem_of_app. by left. }
      destruct (Q1 u eq_refl) as [-> D1].
      rewrite <- (agree_exists _ _ _ _ K1 (under_check_path _ _ _ Hp)) in Hx.
      rewrite <- (agree_isfile _ _ _ _ K1 (under_marker cfg n)) in Hm.
      apply (dep_step_missing cfg host_ok p ∅ st1 _ _ path Hp Hx Hm) in Hs
        as (evs2 & E2 & [(_ & D2)|D2]).
      * left. rewrite (new_events_app st st' (evs1 ++ evs2)).
        2:{ by rewrite E2, E1, <- !(assoc_L (++)). }
        rewrite decisions_app, D1, D2, app_nil_r. split; [done|by eexists].
      * right. exists []. rewrite (new_events_app st st' (evs1 ++ evs2)).
        2:{ by rewrite E2, E1, <- !(assoc_L (++)). }
        rewrite decisions_app, D1, D2. split; [done|].
        intros m b Hin. by apply elem_of_nil in Hin.
Qed.

End MissingRun.

(** ** The legacy metadata patch *)



Lemma legacy_patch_pc_missing {W} `{Host W} path libs (st : state W) :
  FS.exists_ (fs st) path = false → Legacy.patch_pc path libs st = (Ok tt, st).
Proof. intros Hx. unfold Legacy.patch_pc, bind, get_fs, ret. simpl. by rewrite Hx. Qed.

(** A path that names a directory: [open] fails, the handler logs it. *)
Lemma patch_pc_dir {W} `{Host W} cfg path libs (st : state W) :
  fs st !! path = Some FS.Dir →
  V2.patch_pc cfg path libs st =
    (Ok tt, State (fs st) (world st) (trace st ++ [EvLog ERROR (PatchFailed path)])).
Proof.
  intros Hp. unfold V2.patch_pc, try_except, read_file, log_error.
  unfold bind, get_fs, emit, raise, ret, FS.exists_. cbn [fs world trace].
  rewrite Hp. cbn [negb]. by rewrite Hp.
Qed.

Lemma legacy_patch_pc_dir {W} `{Host W} path libs (st : state W) :
  fs st !! path = Some FS.Dir →
  Legacy.patch_pc path libs st =
    (Ok tt, State (fs st) (world st) (trace st ++ [EvLog ERROR (PatchFailed path)])).
Proof.
  intros Hp. unfold Legacy.patch_pc, try_except, read_file, log_error.
  unfold bind, get_fs, emit, raise, ret, FS.exists_. cbn [fs world trace].
  rewrite Hp. cbn [negb]. by rewrite Hp.
Qed.


(** * Concrete runs *)

(** A host on which every child process succeeds without output and
    without touching anything, as do downloads and extraction. *)
Definition still_host : Host unit := {|
  spawn := λ _ _ w f, (0, EmptyString, w, f);
  urlretrieve := λ _ _ w f, Some (w, f);
  extractall := λ _ _ w f, Some (w, f);
  toolchain := λ w f, Some (w, f);
  environment := λ w f, Some (false, w, f)
|}.


Definition demo_cfg : config := Config "bd" false false false false.

(** An install prefix in which every package and both projects are marked
    as built and every output file the integrity check looks for is
    there, beside the source trees. *)
Definition settled_tree : gmap string FS.node :=
  list_to_map
    ([("bd/installed", FS.Dir); ("bd/installed/bin", FS.Dir);
      ("bd/installed/bin/mpv.exe", FS.File "mpv"); ("bd/installed/bin/mpv.pdb", FS.File "pdb");
      ("bd/working", FS.Dir); ("bd/repositories", FS.Dir)]
     ++ ((λ p, (marker_of demo_cfg (V2.pkg_n p), FS.File EmptyString)) <$> V2.deps)
     ++ omap (λ p, (λ c, (c, FS.File EmptyString)) <$> V2.check_path demo_cfg (V2.pkg_n p))
          V2.deps
     ++ ((λ p, (FS.join (dirs demo_cfg "repositories") (V2.pkg_n p), FS.Dir)) <$> V2.deps)
     ++ ((λ p, (FS.join3 (dirs demo_cfg "repositories") (V2.pkg_n p) ".git", FS.Dir))
           <$> filter (λ p, is_Some (V2.pkg_u p)) V2.deps)
     ++ [(marker_of demo_cfg "ffmpeg", FS.File EmptyString);
         (marker_of demo_cfg "mpv", FS.File EmptyString);
         ("bd/repositories/ffmpeg", FS.Dir); ("bd/repositories/ffmpeg/.git", FS.Dir);
         ("bd/repositories/mpv", FS.Dir); ("bd/repositories/mpv/.git", FS.Dir)]).

Definition settled_state : state unit := State settled_tree tt [].

(** The first entry of the canonical [deps]. *)
Definition expat_pkg : V2.package :=
  V2.Package "expat" (Some "https://github.com/libexpat/libexpat.git") (Some V2.cmake) [].

Definition fontconfig_pkg : V2.package :=
  V2.Package "fontconfig" (Some "https://gitlab.freedesktop.org/fontconfig/fontconfig.git")
    (Some V2.meson) ["freetype"; "expat"; "libiconv"; "gettext"].

Definition uchardet_pkg : V2.package :=
  V2.Package "uchardet" (Some "https://gitlab.freedesktop.org/uchardet/uchardet.git")
    (Some V2.cmake) [].

(** The settled tree without the output file of [uchardet]. *)
Definition damaged_state : state unit :=
  State (delete "bd/installed/lib/pkgconfig/uchardet.pc" settled_tree) tt [].

(** The settled tree without the output file of [expat]. *)
Definition damaged_early_state : state unit :=
  State (delete "bd/installed/lib/pkgconfig/expat.pc" settled_tree) tt [].



(** A tree of the legacy variant in which [gettext] is marked as built,
    with a metadata file from an earlier run. *)
Definition legacy_state : state unit :=
  State (<["bd/tarballs/gettext-0.22.tar.xz" := FS.File "tar"]>
           (<["bd/installed/lib/pkgconfig/libintl.pc" := FS.File "stale"]> settled_tree))
    tt [].

Definition settledb (cfg : config) (f : gmap string FS.node) (n : string) : bool :=
  FS.exists_ f (marker_of cfg n)
  && match V2.check_path cfg n with Some path => FS.exists_ f path | None => true end.

Definition unchanged (evs : list event) : bool :=
  forallb (λ e, match e with EvSync _ true => false | _ => true end) evs.

Lemma settledb_spec cfg f ps :
  forallb (λ p, settledb cfg f (V2.pkg_n p)) ps = true →
  ∀ p, p ∈ ps → settled cfg f (V2.pkg_n p).
Proof.
  rewrite forallb_forall. intros Hall p Hp%list_elem_of_In.
  apply Hall, andb_true_iff in Hp as [Hm Hc]. split; [done|].
  intros path Hpath. by rewrite Hpath in Hc.
Qed.

Lemma unchanged_spec evs : unchanged evs = true → ∀ n, EvSync n true ∉ evs.
Proof.
  unfold unchanged. rewrite forallb_forall. intros Hall n Hin%list_elem_of_In.
  by apply Hall in Hin.
Qed.

Lemma still_host_frame cfg : acquisition_frame (H:=still_host) cfg.
Proof.
  split_and!.
  - by intros.
  - by intros ?????? [= _ <-].
  - by intros ?????? [= _ <-].
Qed.

Lemma deps_names_nodup : NoDup (names V2.deps).
Proof. apply (bool_decide_unpack _). by vm_compute. Qed.

Lemma legacy_deps_names_nodup : NoDup (legacy_names Legacy.deps).
Proof. apply (bool_decide_unpack _). by vm_compute. Qed.

Lemma rebuilt_prefix_skips evs ns :
  decisions evs `prefix_of` skips ns → rebuilt evs = [].
Proof.
  intros [k E]. pose proof (rebuilt_skips ns) as Hs. rewrite E, omap_app in Hs.
  by apply app_eq_nil in Hs as [? _].
Qed.

Lemma elem_of_skips n b ns : (n, b) ∈ skips ns → b = false ∧ n ∈ ns.
Proof.
  unfold skips. intros (m & [= -> ->] & Hm)%list_elem_of_fmap. done.
Qed.

(** * The properties *)

(** C1: in the canonical orchestrator, a run without [--clean] and without
    [--force-mpv], started where every package of the dependency list has
    its completion marker and the output file its integrity check looks
    for, and both projects have their markers, in which no acquisition
    reports a changed source, rebuilds nothing: it leaves the install prefix
    as it was, and a run that completes has taken the skip branch for every
    package of the list, in order. *)
Theorem C1_settled_run_rebuilds_nothing {W} `{Host W} cfg (st : state W) r st' :
  acquisition_frame cfg →
  clean_mode cfg = false → force_mpv cfg = false →
  (∀ p, p ∈ V2.deps → settled cfg (fs st) (V2.pkg_n p)) →
  FS.exists_ (fs st) (marker_of cfg "ffmpeg") = true →
  FS.exists_ (fs st) (marker_of cfg "mpv") = true →
  V2.orchestrate cfg st = (r, st') →
  (∀ n, EvSync n true ∉ new_events st st') →
  rebuilt (new_events st st') = [] ∧
  agree_below (dirs cfg "installed") (fs st) (fs st') ∧
  (r = Ok tt → decisions (new_events st st') = skips (names V2.deps)).
Proof.
  intros Hh Hc Hf Hall Hmf Hmm Hrun Hsync.
  apply (orchestrate_settled cfg Hh Hc _ _ _ Hf Hall Hmf Hmm) in Hrun
    as (evs & E & Hcase).
  rewrite (new_events_app _ _ _ E) in Hsync |- *.
  destruct Hcase as [(n & Hin)|(K & P & Q)]; [by destruct (Hsync n)|].
  split; [by eapply rebuilt_prefix_skips|]. done.
Qed.

Lemma C1_witness :
  let st' := (V2.orchestrate (H:=still_host) demo_cfg settled_state).2 in
  rebuilt (new_events settled_state st') = [] ∧
  agree_below (dirs demo_cfg "installed") (fs settled_state) (fs st') ∧
  ((V2.orchestrate (H:=still_host) demo_cfg settled_state).1 = Ok tt →
   decisions (new_events settled_state st') = skips (names V2.deps)).
Proof.
  apply (C1_settled_run_rebuilds_nothing (H:=still_host) demo_cfg settled_state).
  - apply still_host_frame.
  - reflexivity.
  - reflexivity.
  - apply settledb_spec. vm_compute. reflexivity.
  - vm_compute. reflexivity.
  - vm_compute. reflexivity.
  - apply surjective_pairing.
  - apply unchanged_spec. vm_compute. reflexivity.
Defined.

(** Every marker is there, no source changed, [--clean] is absent, and yet
    the run rebuilds: the output file of [uchardet] is gone. *)
Lemma C1_counterexample :
  let res := V2.orchestrate (H:=still_host) demo_cfg damaged_state in
  clean_mode demo_cfg = false ∧
  forallb (λ n, FS.exists_ (fs damaged_state) (marker_of demo_cfg n)) all_names = true ∧
  unchanged (new_events damaged_state res.2) = true ∧
  res.1 = Ok tt ∧
  rebuilt (new_events damaged_state res.2) = ["uchardet"; "ffmpeg"; "mpv"].
Proof. vm_compute. done. Qed.

(** C2: if a package [Q] is rebuilt during a run of the dependency loop,
    then no package [P] that has [Q] in its [depends_on] (canonical
    variant), or that is declared after [Q] (legacy variant), takes the
    skip branch in that run, and [P] is rebuilt whenever the loop runs to
    its end. *)
Theorem C2_rebuild_propagates {W} `{Host W} cfg :
  (∀ (st : state W) r st' P Q,
     V2.dependency_loop cfg V2.deps ∅ st = (r, st') →
     P ∈ V2.deps → Q ∈ V2.depends_on P →
     Q ∈ rebuilt (new_events st st') →
     ((V2.pkg_n P, false) ∉ decisions (new_events st st')) ∧
     (∀ upd, r = Ok upd → V2.pkg_n P ∈ rebuilt (new_events st st'))) ∧
  (∀ (st : state W) flag r st' l1 Q l2 P,
     Legacy.dependency_loop cfg Legacy.deps flag st = (r, st') →
     Legacy.deps = l1 ++ Q :: l2 → P ∈ l2 →
     Legacy.pkg_n Q ∈ rebuilt (new_events st st') →
     ((Legacy.pkg_n P, false) ∉ decisions (new_events st st')) ∧
     (∀ b, r = Ok b → Legacy.pkg_n P ∈ rebuilt (new_events st st'))).
Proof.
  split.
  - intros st r st' P Q (evs & E & S)%dependency_loop_decisions HP HQ Hin.
    rewrite (new_events_app _ _ _ E) in Hin |- *. apply elem_of_rebuilt in Hin.
    destruct (loop_shape_propagate cfg V2.deps [] ∅ r (decisions evs) S eq_refl
                deps_names_nodup P Q HP HQ (or_intror Hin)) as [Hn Hr].
    split; [done|]. intros upd Hupd. apply elem_of_rebuilt. eauto.
  - intros st flag r st' l1 Q l2 P (evs & E & S)%legacy_loop_decisions Hd HP Hin.
    rewrite (new_events_app _ _ _ E) in Hin |- *. apply elem_of_rebuilt in Hin.
    destruct (legacy_loop_shape_propagate cfg Legacy.deps flag r (decisions evs) S
                legacy_deps_names_nodup l1 Q l2 P Hd HP Hin) as [Hn Hr].
    split; [done|]. intros b Hb. apply elem_of_rebuilt. eauto.
Qed.

Lemma C2_witness :
  let st' := (V2.dependency_loop (H:=still_host) demo_cfg V2.deps ∅ damaged_early_state).2 in
  ((V2.pkg_n fontconfig_pkg, false) ∉ decisions (new_events damaged_early_state st')) ∧
  (∀ upd, (V2.dependency_loop (H:=still_host) demo_cfg V2.deps ∅ damaged_early_state).1
          = Ok upd →
          V2.pkg_n fontconfig_pkg ∈ rebuilt (new_events damaged_early_state st')).
Proof.
  apply (proj1 (C2_rebuild_propagates (H:=still_host) demo_cfg)
           damaged_early_state _ _ fontconfig_pkg "expat").
  - apply surjective_pairing.
  - apply (list_elem_of_lookup_2 _ 12%nat). reflexivity.
  - apply (bool_decide_unpack _). vm_compute. exact I.
  - apply (bool_decide_unpack _). vm_compute. exact I.
Defined.




(** C4: in the canonical loop without [--clean], a package whose marker is
    a file but whose expected output file is missing is never skipped;
    when the loop runs to its end, the settled packages declared before it
    whose sources did not change were skipped, it was rebuilt right after
    them, and so was every later package that depends on it.  None of the
    packages before it is rebuilt. *)
Theorem C4_missing_output_is_rebuilt {W} `{Host W} cfg (st : state W) r st' l1 p l2 path :
  acquisition_frame cfg → clean_mode cfg = false →
  V2.deps = l1 ++ p :: l2 →
  (∀ q, q ∈ l1 → settled cfg (fs st) (V2.pkg_n q)) →
  V2.check_path cfg (V2.pkg_n p) = Some path →
  FS.exists_ (fs st) path = false →
  FS.isfile (fs st) (marker_of cfg (V2.pkg_n p)) = true →
  V2.dependency_loop cfg V2.deps ∅ st = (r, st') →
  (∀ q, q ∈ l1 → EvSync (V2.pkg_n q) true ∉ new_events st st') →
  (∀ q, q ∈ l1 → (V2.pkg_n q, true) ∉ decisions (new_events st st')) ∧
  ((V2.pkg_n p, false) ∉ decisions (new_events st st')) ∧
  (∀ upd, r = Ok upd →
     ((skips (names l1) ++ [(V2.pkg_n p, true)]) `prefix_of` decisions (new_events st st')) ∧
     ∀ P, P ∈ l2 → V2.pkg_n p ∈ V2.depends_on P →
          (V2.pkg_n P, true) ∈ decisions (new_events st st')).
Proof.
  intros Hh Hc Hd Hall Hp Hx Hm Hrun Hsync.
  pose proof deps_names_nodup as Hnd. unfold names in Hnd.
  rewrite Hd, fmap_app, fmap_cons in Hnd.
  apply NoDup_app in Hnd as (_ & Hl1 & [Hpl2 _]%NoDup_cons).
  assert (∀ q, q ∈ l1 → V2.pkg_n q ≠ V2.pkg_n p ∧ V2.pkg_n q ∉ names l2) as Hq.
  { intros q Hin. apply (list_elem_of_fmap_2 V2.pkg_n) in Hin.
    split; intros Hbad; apply (Hl1 _ Hin); [rewrite Hbad; by left|by right]. }
  assert (V2.pkg_n p ∉ names l1) as Hpl1.
  { intros Hin. apply (Hl1 _ Hin). by left. }
  pose proof Hrun as (evs & E & S)%dependency_loop_decisions.
  rewrite Hd in Hrun.
  apply (dependency_loop_missing cfg Hh Hc l1 p l2 st r st' path Hall Hp Hx Hm) in Hrun;
    [|done].
  cbv zeta in Hrun.
  destruct Hrun as [(Hpre & e & ->)|(ds2 & Hds & Hin2)].
  - split_and!.
    + intros q Hin Hbad. by eapply elem_of_prefix, elem_of_skips in Hbad as [? _].
    + intros Hbad. by eapply elem_of_prefix, elem_of_skips in Hbad as [_ ?].
    + done.
  - rewrite Hds. split_and!.
    + intros q Hin. destruct (Hq q Hin) as [Hne Hn2].
      intros [[? _]%elem_of_skips|[[=]|Hbad]%elem_of_cons]%elem_of_app; [done..|].
      apply Hn2. eauto.
    + intros [[_ ?]%elem_of_skips|[[=]|Hbad]%elem_of_cons]%elem_of_app; [done|].
      apply Hpl2. eauto.
    + intros upd ->. split.
      { apply prefix_app. by apply prefix_cons, prefix_nil. }
      intros P HP Hdep. rewrite <- Hds, (new_events_app _ _ _ E).
      rewrite (new_events_app _ _ _ E) in Hds.
      assert (P ∈ V2.deps) as HPd.
      { rewrite Hd. apply elem_of_app. right. by right. }
      assert ((V2.pkg_n p, true) ∈ decisions evs) as Hin.
      { rewrite Hds. apply elem_of_app. right. by left. }
      destruct (loop_shape_propagate cfg V2.deps [] ∅ (Ok upd) (decisions evs) S eq_refl
                  deps_names_nodup P (V2.pkg_n p) HPd Hdep (or_intror Hin)) as [_ Hr].
      eauto.
Qed.

Lemma C4_witness :
  let res := V2.dependency_loop (H:=still_host) demo_cfg V2.deps ∅ damaged_state in
  let l1 := take 25 V2.deps in
  let l2 := drop 26 V2.deps in
  (∀ q, q ∈ l1 → (V2.pkg_n q, true) ∉ decisions (new_events damaged_state res.2)) ∧
  (("uchardet", false) ∉ decisions (new_events damaged_state res.2)) ∧
  (∀ upd, res.1 = Ok upd →
     ((skips (names l1) ++ [("uchardet", true)])
        `prefix_of` decisions (new_events damaged_state res.2)) ∧
     ∀ P, P ∈ l2 → "uchardet" ∈ V2.depends_on P →
          (V2.pkg_n P, true) ∈ decisions (new_events damaged_state res.2)).
Proof.
  apply (C4_missing_output_is_rebuilt (H:=still_host) demo_cfg damaged_state _ _
           (take 25 V2.deps) uchardet_pkg (drop 26 V2.deps)
           "bd/installed/lib/pkgconfig/uchardet.pc").
  - apply still_host_frame.
  - reflexivity.
  - reflexivity.
  - apply settledb_spec. vm_compute. reflexivity.
  - vm_compute. reflexivity.
  - vm_compute. reflexivity.
  - vm_compute. reflexivity.
  - apply surjective_pairing.
  - intros q _. apply unchanged_spec. vm_compute. reflexivity.
Defined.






(** C7: in the canonical loop, an iteration that takes the skip branch
    is the source acquisition followed by the log line; when the
    acquisition's [git] commands, downloads and extraction leave the
    install prefix alone, nothing under the install prefix is created,
    changed or deleted. *)
Theorem C7_skip_leaves_install_prefix {W} `{Host W} cfg p upd (st : state W) r st' :
  acquisition_frame cfg →
  V2.dep_step cfg p upd st = (r, st') →
  (V2.pkg_n p, false) ∈ decisions (new_events st st') →
  r = Ok upd ∧
  agree_below (dirs cfg "installed") (fs st) (fs st') ∧
  ∃ sc st1, V2.acquire cfg p st = (Ok sc, st1) ∧
    st' = State (fs st1) (world st1)
            (trace st1 ++ [EvSync (V2.pkg_n p) sc; EvLog INFO (Skipping (V2.pkg_n p))]).
Proof. intros Hh Hrun Hin. by apply dep_step_skipped. Qed.

Lemma C7_witness :
  let res := V2.dep_step (H:=still_host) demo_cfg expat_pkg ∅ settled_state in
  res.1 = Ok ∅ ∧
  agree_below (dirs demo_cfg "installed") (fs settled_state) (fs res.2) ∧
  ∃ sc st1, V2.acquire (H:=still_host) demo_cfg expat_pkg settled_state = (Ok sc, st1) ∧
    res.2 = State (fs st1) (world st1)
              (trace st1 ++ [EvSync "expat" sc; EvLog INFO (Skipping "expat")]).
Proof.
  apply (C7_skip_leaves_install_prefix (H:=still_host) demo_cfg expat_pkg ∅ settled_state).
  - apply still_host_frame.
  - apply surjective_pairing.
  - apply (bool_decide_unpack _). vm_compute. exact I.
Defined.

(** The legacy loop skips [gettext] and still rewrites its metadata file
    under the install prefix. *)
Lemma C7_counterexample :
  let gettext := Legacy.Package "gettext" None (Some Legacy.intl) in
  let pc := "bd/installed/lib/pkgconfig/libintl.pc" in
  let res := Legacy.dep_step (H:=still_host) demo_cfg gettext false legacy_state in
  Legacy.deps !! 1%nat = Some gettext ∧
  res.1 = Ok false ∧
  decisions (new_events legacy_state res.2) = [("gettext", false)] ∧
  FS.under (dirs demo_cfg "installed") pc = true ∧
  fs legacy_state !! pc = Some (FS.File "stale") ∧
  fs res.2 !! pc =
    Some (FS.File (Legacy.pc_text demo_cfg "libintl" "0.22" "GNU gettext runtime library"
                     "-lintl" "" "-I${includedir}")) ∧
  fs res.2 !! pc ≠ fs legacy_state !! pc.
Proof. vm_compute. done. Qed.


Definition sample_pc : string :=
  Py.join Py.nl ["prefix=/ucrt64"; "Libs: -L${libdir} -lfoo"; "Libs.private: -lz -ldl";
                 "Cflags: -I${includedir}"].

Definition sample_state : state unit :=
  State {["bd/installed/lib/pkgconfig/foo.pc" := FS.File sample_pc]} tt [].



(** C9: on a path that names no regular file, the metadata patch of
    either variant returns without an exception and leaves every file as
    it was; when nothing is at the path it does nothing at all, and when a
    directory is there it logs the failed patch. *)
Theorem C9_patch_without_file_is_noop {W} `{Host W} cfg path libs (st : state W) :
  FS.isfile (fs st) path = false →
  (∃ t, V2.patch_pc cfg path libs st = (Ok tt, State (fs st) (world st) t) ∧
        (FS.exists_ (fs st) path = false → t = trace st)) ∧
  (∃ t, Legacy.patch_pc path libs st = (Ok tt, State (fs st) (world st) t) ∧
        (FS.exists_ (fs st) path = false → t = trace st)).
Proof.
  unfold FS.isfile, FS.exists_. intros Hf.
  destruct (fs st !! path) as [[c|]|] eqn:Hp; [done| |].
  - split; eexists; (split; [by (apply patch_pc_dir || apply legacy_patch_pc_dir)|done]).
  - split; exists (trace st).
    + rewrite patch_pc_missing; [by destruct st|]. unfold FS.exists_. by rewrite Hp.
    + rewrite legacy_patch_pc_missing; [by destruct st|]. unfold FS.exists_. by rewrite Hp.
Qed.

Lemma C9_witness :
  let path := "bd/installed/lib/pkgconfig/bar.pc" in
  (∃ t, V2.patch_pc demo_cfg path "-lm" sample_state
          = (Ok tt, State (fs sample_state) (world sample_state) t) ∧
        (FS.exists_ (fs sample_state) path = false → t = trace sample_state)) ∧
  (∃ t, Legacy.patch_pc path "-lm" sample_state
          = (Ok tt, State (fs sample_state) (world sample_state) t) ∧
        (FS.exists_ (fs sample_state) path = false → t = trace sample_state)).
Proof.
  apply (C9_patch_without_file_is_noop (H:=still_host) demo_cfg
           "bd/installed/lib/pkgconfig/bar.pc" "-lm" sample_state).
  vm_compute. reflexivity.
Defined.


